(** * totp-api: TOTP and U2F second-factor credentials, encrypted at rest

    A shallow embedding of

    - [helpers/encryption.js]  (module [Encryption]),
    - [models/totp.js]         (module [Totp]),
    - [models/u2f.js]          (module [U2f]),

    together with the properties of the design document that concern
    them.  Node-style callbacks are kept as continuations, console output
    and the key/value store are threaded through a small state monad, and
    everything the code obtains from outside (randomness, the clock, the
    AES block function, the u2f and speakeasy libraries, store failures)
    is an explicit parameter. *)

From Stdlib Require Import NArith ZArith Lia Bool List.
From Stdlib Require Import Strings.Byte Strings.Ascii Strings.String.
From stdpp Require Import base option list gmap strings pretty.

Local Open Scope string_scope.

(** ** JavaScript values used by the code *)

(** A value that is a string or [undefined]: a request header, a path
    parameter, a destructured option. *)
Abbreviation jsstring := (option string).

(** An object property that holds a string, [null], or is missing. *)
Inductive field : Type :=
| Undefined
| Null
| Text (s : string).

(** [!x] is false exactly for a non-empty string. *)
Definition truthy (x : jsstring) : bool :=
  match x with
  | Some s => negb (String.eqb s "")
  | None => false
  end.

Definition field_truthy (f : field) : bool :=
  match f with
  | Text s => negb (String.eqb s "")
  | _ => false
  end.

(** [if (x)] for a value that is an object or [undefined]/[null]. *)
Definition present {A : Type} (x : option A) : bool :=
  match x with
  | Some _ => true
  | None => false
  end.

(** ['...' + x] *)
Definition to_String (x : jsstring) : string :=
  match x with
  | Some s => s
  | None => "undefined"
  end.

(** Exceptions that escape a function instead of reaching its callback.
    [CipherInitError] is what [createCipheriv] and [createDecipheriv]
    throw for a key or IV of the wrong length; [Exhausted] is not a
    JavaScript exception: it ends a run that needs more random draws
    than the world supplies. *)
Inductive exn : Type :=
| ReferenceError (name : string)
| TypeError (what : string)
| SyntaxError
| CipherInitError
| LibraryError (what : string)
| Exhausted.

(** ** Buffers and their base64 text form *)

Module Base64.

Definition byte_of_N (n : N) : byte :=
  default x00 (Byte.of_N (n mod 256)).

(** The 64 characters of the standard alphabet. *)
Definition b64_char (n : N) : ascii :=
  if (n <? 26)%N then ascii_of_N (65 + n)
  else if (n <? 52)%N then ascii_of_N (97 + (n - 26))
  else if (n <? 62)%N then ascii_of_N (48 + (n - 52))
  else if (n =? 62)%N then "+"%char
  else "/"%char.

(** Value of a character; the decoder also accepts the URL-safe pair. *)
Definition b64_value (c : ascii) : option N :=
  let n := N_of_ascii c in
  if ((65 <=? n) && (n <=? 90))%N then Some (n - 65)%N
  else if ((97 <=? n) && (n <=? 122))%N then Some (n - 71)%N
  else if ((48 <=? n) && (n <=? 57))%N then Some (n + 4)%N
  else if ((n =? 43) || (n =? 45))%N then Some 62%N
  else if ((n =? 47) || (n =? 95))%N then Some 63%N
  else None.

(** [buffer.toString('base64')] *)
Fixpoint encode (bs : list byte) : string :=
  match bs with
  | [] => ""
  | [a] =>
      let n := Byte.to_N a in
      String (b64_char (n / 4))
        (String (b64_char ((n mod 4) * 16)) "==")
  | [a; b] =>
      let n := Byte.to_N a in
      let m := Byte.to_N b in
      String (b64_char (n / 4))
        (String (b64_char ((n mod 4) * 16 + m / 16))
           (String (b64_char ((m mod 16) * 4)) "="))
  | a :: b :: c :: rest =>
      let w := (Byte.to_N a * 65536 + Byte.to_N b * 256 + Byte.to_N c)%N in
      String (b64_char (w / 262144))
        (String (b64_char ((w / 4096) mod 64))
           (String (b64_char ((w / 64) mod 64))
              (String (b64_char (w mod 64)) (encode rest))))
  end.

(** The decoder is lenient: characters outside the alphabet are skipped
    and the first [=] ends the input. *)
Fixpoint sextets (s : string) : list N :=
  match s with
  | EmptyString => []
  | String c s' =>
      if Ascii.eqb c "="%char then []
      else match b64_value c with
           | Some v => v :: sextets s'
           | None => sextets s'
           end
  end.

Fixpoint bytes_of_sextets (vs : list N) : list byte :=
  match vs with
  | s0 :: s1 :: s2 :: s3 :: rest =>
      let w := (((s0 * 64 + s1) * 64 + s2) * 64 + s3)%N in
      byte_of_N (w / 65536) :: byte_of_N ((w / 256) mod 256)
        :: byte_of_N (w mod 256) :: bytes_of_sextets rest
  | [s0; s1; s2] =>
      [byte_of_N (s0 * 4 + s1 / 16); byte_of_N ((s1 mod 16) * 16 + s2 / 4)]
  | [s0; s1] => [byte_of_N (s0 * 4 + s1 / 16)]
  | _ => []
  end.

(** [Buffer.from(s, 'base64')] *)
Definition decode (s : string) : list byte :=
  bytes_of_sextets (sextets s).

End Base64.

(** ** JavaScript strings and their UTF-8 form *)

Module Utf16.

(** A JavaScript string: its sequence of 16-bit code units. *)
Definition t : Type := list N.

Definition is_high (u : N) : bool := ((55296 <=? u) && (u <=? 56319))%N.
Definition is_low (u : N) : bool := ((56320 <=? u) && (u <=? 57343))%N.

(** No unpaired surrogate: every high surrogate is followed by a low
    one and every low surrogate follows a high one. *)
Fixpoint well_formed (s : t) : bool :=
  match s with
  | [] => true
  | u :: rest =>
      if is_high u then
        match rest with
        | v :: rest' => is_low v && well_formed rest'
        | [] => false
        end
      else negb (is_low u) && (u <? 65536)%N && well_formed rest
  end.

(** The bytes of one code point in UTF-8. *)
Definition utf8 (cp : N) : list N :=
  (if cp <? 128 then [cp]
   else if cp <? 2048 then [192 + cp / 64; 128 + cp mod 64]
   else if cp <? 65536 then
     [224 + cp / 4096; 128 + (cp / 64) mod 64; 128 + cp mod 64]
   else [240 + cp / 262144; 128 + (cp / 4096) mod 64;
         128 + (cp / 64) mod 64; 128 + cp mod 64])%N.

(** U+FFFD, the replacement character, in UTF-8. *)
Definition replacement : list N := [239; 191; 189]%N.

(** The byte values that the ['utf8'] encoding writes for a string: a
    surrogate pair is one code point, an unpaired surrogate is written
    as U+FFFD. *)
Fixpoint encode (s : t) : list N :=
  match s with
  | [] => []
  | u :: rest =>
      if is_high u then
        match rest with
        | v :: rest' =>
            if is_low v
            then (utf8 (65536 + (u - 55296) * 1024 + (v - 56320))%N ++ encode rest')%list
            else (replacement ++ encode rest)%list
        | [] => replacement
        end
      else if is_low u then (replacement ++ encode rest)%list
      else (utf8 u ++ encode rest)%list
  end.

(** The code units of one code point. *)
Definition units (cp : N) : list N :=
  (if cp <? 65536 then [cp]
   else [55296 + (cp - 65536) / 1024; 56320 + (cp - 65536) mod 1024])%N.

Definition between (lo hi b : N) : bool := ((lo <=? b) && (b <=? hi))%N.

(** The string that the ['utf8'] decoding reads from byte values: a
    well-formed sequence gives its code point, and each maximal
    ill-formed part gives U+FFFD. *)
Fixpoint decode (bs : list N) : t :=
  match bs with
  | [] => []
  | b1 :: r1 =>
      if (b1 <? 128)%N then b1 :: decode r1
      else if between 194 223 b1 then
        match r1 with
        | b2 :: r2 =>
            if between 128 191 b2
            then ((b1 - 192) * 64 + (b2 - 128))%N :: decode r2
            else 65533%N :: decode r1
        | [] => [65533%N]
        end
      else if between 224 239 b1 then
        match r1 with
        | b2 :: r2 =>
            if between (if (b1 =? 224)%N then 160 else 128)
                 (if (b1 =? 237)%N then 159 else 191) b2
            then
              match r2 with
              | b3 :: r3 =>
                  if between 128 191 b3
                  then ((b1 - 224) * 4096 + (b2 - 128) * 64 + (b3 - 128))%N
                       :: decode r3
                  else 65533%N :: decode r2
              | [] => [65533%N]
              end
            else 65533%N :: decode r1
        | [] => [65533%N]
        end
      else if between 240 244 b1 then
        match r1 with
        | b2 :: r2 =>
            if between (if (b1 =? 240)%N then 144 else 128)
                 (if (b1 =? 244)%N then 143 else 191) b2
            then
              match r2 with
              | b3 :: r3 =>
                  if between 128 191 b3
                  then
                    match r3 with
                    | b4 :: r4 =>
                        if between 128 191 b4
                        then (units ((b1 - 240) * 262144 + (b2 - 128) * 4096
                                     + (b3 - 128) * 64 + (b4 - 128))%N
                              ++ decode r4)%list
                        else 65533%N :: decode r3
                    | [] => [65533%N]
                    end
                  else 65533%N :: decode r2
              | [] => [65533%N]
              end
            else 65533%N :: decode r1
        | [] => [65533%N]
        end
      else 65533%N :: decode r1
  end.

(** [Buffer.from(s, 'utf8')] *)
Definition utf8_write (s : t) : list byte := map Base64.byte_of_N (encode s).

(** [buffer.toString('utf8')] *)
Definition utf8_slice (bs : list byte) : t := decode (map Byte.to_N bs).

End Utf16.

(** ** The account record and the outside world *)

(** A JavaScript [Error]. *)
Record Error : Type := mkError { message : string }.

(** [apiKeyRecord.totp[uuid]] *)
Record TotpEntry : Type := mkTotpEntry {
  encryptedTotpKey : field
}.

(** [apiKeyRecord.u2f[uuid]] *)
Record U2fEntry : Type := mkU2fEntry {
  encryptedAppId : field;
  encryptedRegistrationRequest : field;
  encryptedPublicKey : field;
  encryptedKeyHandle : field;
  encryptedAuthenticationRequest : field
}.

(** Modelled from the spec: the account record of [models/api-key.js]
    (Account Record, section 3): an identifier, the state that the
    activation predicate reads, and one credential mapping per kind; a
    mapping that was never created is [None]. *)
Record ApiKeyRecord : Type := mkApiKeyRecord {
  record_id : string;
  activated : bool;
  totp : option (gmap string TotpEntry);
  u2f : option (gmap string U2fEntry)
}.

(** Everything a request can read or change outside its own arguments:
    the store ([table]), every record handed to [updateApiKeyRecord]
    ([updates], latest first), whether the store currently fails on
    reads or writes, the console, the clock (milliseconds, [Date.now()]),
    and the random draws still to come. *)
Record World : Type := mkWorld {
  table : gmap string ApiKeyRecord;
  updates : list ApiKeyRecord;
  read_fault : option Error;
  write_fault : option Error;
  console : list string;
  clock : Z;
  random : nat -> byte;
  random_pos : nat;
  uuids : list string
}.

Definition with_console (c : list string) (w : World) : World :=
  mkWorld (table w) (updates w) (read_fault w) (write_fault w) c
    (clock w) (random w) (random_pos w) (uuids w).

Definition with_store (t : gmap string ApiKeyRecord) (u : list ApiKeyRecord)
    (w : World) : World :=
  mkWorld t u (read_fault w) (write_fault w) (console w)
    (clock w) (random w) (random_pos w) (uuids w).

Definition with_random_pos (p : nat) (w : World) : World :=
  mkWorld (table w) (updates w) (read_fault w) (write_fault w) (console w)
    (clock w) (random w) p (uuids w).

Definition with_uuids (l : list string) (w : World) : World :=
  mkWorld (table w) (updates w) (read_fault w) (write_fault w) (console w)
    (clock w) (random w) (random_pos w) l.

Definition with_clock (t : Z) (w : World) : World :=
  mkWorld (table w) (updates w) (read_fault w) (write_fault w) (console w)
    t (random w) (random_pos w) (uuids w).

(** ** Computations *)

(** A statement sequence either completes with a value or is left by an
    uncaught exception. *)
Inductive Completion (A : Type) : Type :=
| Normal (a : A)
| Abrupt (e : exn).
Arguments Normal {A} a.
Arguments Abrupt {A} e.

Definition Js (A : Type) : Type := World -> Completion A * World.

#[export] Instance Js_ret : MRet Js := fun A a w => (Normal a, w).

#[export] Instance Js_bind : MBind Js := fun A B f m w =>
  match m w with
  | (Normal a, w') => f a w'
  | (Abrupt e, w') => (Abrupt e, w')
  end.

#[export] Instance Js_throw : MThrow exn Js := fun A e w => (Abrupt e, w).

(** The world after one more line on the console. *)
Definition log (line : string) (w : World) : World :=
  with_console (console w ++ [line]) w.

(** [console.log] and [console.error]: the first argument is recorded;
    further arguments (error objects) are not. *)
Definition console_log (line : string) : Js unit :=
  fun w => (Normal tt, log line w).

Definition console_error (line : string) : Js unit := console_log line.

(** [crypto.randomBytes(n)] *)
Definition randomBytes (n : nat) : Js (list byte) :=
  fun w => (Normal (map (random w) (seq (random_pos w) n)),
            with_random_pos (random_pos w + n) w).

(** [uuid.v4()] *)
Definition uuid_v4 : Js string :=
  fun w => match uuids w with
           | u :: rest => (Normal u, with_uuids rest w)
           | [] => (Abrupt Exhausted, w)
           end.

(** ** helpers/encryption.js *)

(** The [crypto] module: the block function of AES-256 (key, input
    block, output block).  Counter mode, key and IV length checks and the
    text encodings are written out below. *)
Class Crypto : Type := {
  aes256_encrypt_block : list byte -> list byte -> list byte
}.

Module Encryption.

(** [s.split(sep)] for a one-character separator. *)
Fixpoint split (sep : ascii) (s : string) : list string :=
  match s with
  | EmptyString => [EmptyString]
  | String c s' =>
      if Ascii.eqb c sep then EmptyString :: split sep s'
      else match split sep s' with
           | piece :: pieces => String c piece :: pieces
           | [] => [String c EmptyString]
           end
  end.

Definition xor_bits (a b : bool * (bool * (bool * (bool * (bool * (bool * (bool * bool)))))))
  : bool * (bool * (bool * (bool * (bool * (bool * (bool * bool)))))) :=
  let '(a0, (a1, (a2, (a3, (a4, (a5, (a6, a7))))))) := a in
  let '(b0, (b1, (b2, (b3, (b4, (b5, (b6, b7))))))) := b in
  (xorb a0 b0, (xorb a1 b1, (xorb a2 b2, (xorb a3 b3,
   (xorb a4 b4, (xorb a5 b5, (xorb a6 b6, xorb a7 b7))))))).

Definition byte_xor (a b : byte) : byte :=
  Byte.of_bits (xor_bits (Byte.to_bits a) (Byte.to_bits b)).

(** Data xor key stream; a key stream that ends early (a real block
    function never produces one) leaves the remaining data as it is. *)
Fixpoint xor_bytes (data ks : list byte) : list byte :=
  match data, ks with
  | d :: data', k :: ks' => byte_xor d k :: xor_bytes data' ks'
  | _, [] => data
  | [], _ => []
  end.

(** The counter block is a big-endian integer, incremented with
    wrap-around. *)
Fixpoint incr_le (bs : list byte) : list byte :=
  match bs with
  | [] => []
  | b :: rest =>
      if Byte.eqb b xff then x00 :: incr_le rest
      else Base64.byte_of_N (Byte.to_N b + 1) :: rest
  end.

Definition incr_be (bs : list byte) : list byte := rev (incr_le (rev bs)).

Section Cipher.
Context `{Crypto}.

Fixpoint keystream (key counter : list byte) (blocks : nat) : list byte :=
  match blocks with
  | O => []
  | S n => aes256_encrypt_block key counter ++ keystream key (incr_be counter) n
  end.

(** What a cipher or decipher object of ['aes-256-ctr'] does to the
    whole input given to [update] and [final]. *)
Definition ctr_crypt (key iv data : list byte) : list byte :=
  xor_bytes data (keystream key iv ((length data + 15) / 16)).

(** [crypto.createCipheriv('aes-256-ctr', key, iv)]: the object is the
    pair of key and IV. *)
Definition createCipheriv (key iv : list byte) : Js (list byte * list byte) :=
  if (length key =? 32)%nat && (length iv =? 16)%nat
  then mret (key, iv)
  else mthrow CipherInitError.

(** [crypto.createDecipheriv('aes-256-ctr', key, iv)] *)
Definition createDecipheriv (key iv : list byte) : Js (list byte * list byte) :=
  createCipheriv key iv.

(** [Buffer.from(x, 'base64')]: a [TypeError] when [x] is [undefined]. *)
Definition Buffer_from_base64 (x : jsstring) : Js (list byte) :=
  match x with
  | Some s => mret (Base64.decode s)
  | None => mthrow (TypeError "first argument must be a string")
  end.

(** [module.exports.encrypt].  Text is represented by its UTF-8 bytes,
    so the ['utf8'] input encoding is [list_byte_of_string]; a string
    with an unpaired surrogate, which Node writes as U+FFFD, has no
    such representation and goes through [encrypt_utf16] below.  With a
    ['base64'] output encoding [update] and [final] together yield the
    base64 form of the whole cipher text. *)
Definition encrypt (plainTextMessage aesKeyBase64 : jsstring) : Js string :=
  aesKeyBuffer ← Buffer_from_base64 aesKeyBase64;
  ivBuffer ← randomBytes 16;
  cipher ← createCipheriv aesKeyBuffer ivBuffer;
  match plainTextMessage with
  | None => mthrow (TypeError "data must be a string or a buffer")
  | Some text =>
      let encrypted :=
        Base64.encode (ctr_crypt cipher.1 cipher.2 (list_byte_of_string text)) in
      mret (Base64.encode ivBuffer ++ ":" ++ encrypted)
  end.

(** [module.exports.decrypt]; [callback error decrypted] stands for
    [callback(error, decrypted)], a missing argument being [None].  With
    a ['utf8'] output encoding [update] and [final] together yield the
    text of the whole plain text. *)
Definition decrypt {A : Type} (ivAndEncryptedDataBase64 : string)
    (aesKeyBase64 : jsstring)
    (callback : option Error -> jsstring -> Js A) : Js A :=
  let inputPieces := split ":" ivAndEncryptedDataBase64 in
  if negb (length inputPieces =? 2)%nat then
    console_error
      ("Expected a single color (:) delimiter, between the IV and the "
       ++ "encrypted data. Found " ++ pretty (length inputPieces) ++ ".");;
    callback (Some (mkError "Unable to decrypt the given data.")) None
  else
    let ivBuffer := Base64.decode (nth 0 inputPieces "") in
    let encryptedDataBase64 := nth 1 inputPieces "" in
    aesKeyBuffer ← Buffer_from_base64 aesKeyBase64;
    decipher ← createDecipheriv aesKeyBuffer ivBuffer;
    let decrypted :=
      string_of_list_byte
        (ctr_crypt decipher.1 decipher.2 (Base64.decode encryptedDataBase64)) in
    callback None (Some decrypted).

(** [module.exports.encrypt] applied to a JavaScript string given by
    its code units: line 8 hands the cipher the string's ['utf8']
    encoding. *)
Definition encrypt_utf16 (plainTextMessage : Utf16.t) (aesKeyBase64 : jsstring)
  : Js string :=
  encrypt (Some (string_of_list_byte (Utf16.utf8_write plainTextMessage)))
    aesKeyBase64.

(** [module.exports.decrypt] with the JavaScript string that lines 30
    and 31 read from the decrypted bytes. *)
Definition decrypt_utf16 {A : Type} (ivAndEncryptedDataBase64 : string)
    (aesKeyBase64 : jsstring)
    (callback : option Error -> option Utf16.t -> Js A) : Js A :=
  decrypt ivAndEncryptedDataBase64 aesKeyBase64
    (fun error decrypted =>
       callback error
         (text ← decrypted; Some (Utf16.utf8_slice (list_byte_of_string text)))).

End Cipher.

End Encryption.

(** ** helpers/response.js and models/api-key.js *)

(** The body of a successful response. [Json] is the type of parsed JSON
    values of the u2f library's interface below. *)
Inductive Body (Json : Type) : Type :=
| NoBody
| Message (text : string) (status : nat)
| TotpCreated (uuid totpKey imageUrl : string)
| U2fRegistrationCreated (uuid : string) (challenge : Json)
| U2fAuthenticationCreated (uuid : jsstring) (version challenge : Json)
    (appId keyHandle : jsstring).
Arguments NoBody {Json}.
Arguments Message {Json} text status.
Arguments TotpCreated {Json} uuid totpKey imageUrl.
Arguments U2fRegistrationCreated {Json} uuid challenge.
Arguments U2fAuthenticationCreated {Json} uuid version challenge appId keyHandle.

(** What the caller's callback receives. *)
Inductive Response (Json : Type) : Type :=
| Failure (status : nat) (text : string)
| Success (body : Body Json).
Arguments Failure {Json} status text.
Arguments Success {Json} body.

(** Modelled from the spec: [response.returnError(status, message,
    callback)] of [helpers/response.js] hands the caller a failure with
    that status and message (section 7: every failure is surfaced to the
    caller of the single request). *)
Definition returnError {Json : Type} (status : nat) (text : string)
  : Js (Response Json) := mret (Failure status text).

(** Modelled from the spec: [response.returnSuccess(body, callback)] of
    [helpers/response.js] hands the caller the result of the operation. *)
Definition returnSuccess {Json : Type} (body : Body Json)
  : Js (Response Json) := mret (Success body).

(** Modelled from the spec: [getApiKeyByValue] of [models/api-key.js] is
    the Store Adapter's [get(accountId) -> Record | NotFound] (section 6);
    a store failure reaches the callback as its error. *)
Definition getApiKeyByValue {A : Type} (apiKeyValue : jsstring)
    (callback : option Error -> option ApiKeyRecord -> Js A) : Js A :=
  fun w =>
    match read_fault w with
    | Some e => callback (Some e) None w
    | None => callback None (table w !! to_String apiKeyValue) w
    end.

(** Modelled from the spec: [isAlreadyActivated] of [models/api-key.js]
    is the Store Adapter's [isActivated(Record) -> bool] (section 6). *)
Definition isAlreadyActivated (apiKeyRecord : ApiKeyRecord) : bool :=
  activated apiKeyRecord.

(** Modelled from the spec: [updateApiKeyRecord] of [models/api-key.js]
    is the Store Adapter's [put(Record) -> Ok | Error] (section 6), a
    compare-free overwrite under the record's identifier; a failed write
    leaves the store as it was. *)
Definition updateApiKeyRecord {A : Type} (apiKeyRecord : ApiKeyRecord)
    (callback : option Error -> Js A) : Js A :=
  fun w =>
    match write_fault w with
    | Some e =>
        callback (Some e) (with_store (table w) (apiKeyRecord :: updates w) w)
    | None =>
        callback None
          (with_store (<[record_id apiKeyRecord := apiKeyRecord]> (table w))
             (apiKeyRecord :: updates w) w)
    end.

(** Modelled from the spec: [getActivatedApiKey] of [models/api-key.js]
    runs the shared precondition chain of section 4.4: the account
    resolves via the Store Adapter and is activated; a missing key or
    secret is refused first (section 7, [Unauthorized]).  It only reads. *)
Definition getActivatedApiKey {A : Type} (apiKeyValue apiSecret : jsstring)
    (callback : option Error -> option ApiKeyRecord -> Js A) : Js A :=
  if negb (truthy apiKeyValue) then
    callback (Some (mkError "No API Key provided.")) None
  else if negb (truthy apiSecret) then
    callback (Some (mkError "No API Secret provided.")) None
  else
    getApiKeyByValue apiKeyValue (fun error apiKeyRecord =>
      match error, apiKeyRecord with
      | Some e, _ => callback (Some e) None
      | None, None => callback (Some (mkError "No such API Key found.")) None
      | None, Some record =>
          if negb (isAlreadyActivated record) then
            callback (Some (mkError "API Key has not yet been activated.")) None
          else callback None (Some record)
      end).

(** ** The libraries the models call *)

(** [speakeasy]: the base32 secret made from fresh random bytes, the
    [otpauth://] URL (label, secret, issuer), and the counter-based code
    generator that [totp.verify] compares against. *)
Class Speakeasy : Type := {
  base32_secret : list byte -> string;
  otpauthURL : string -> string -> jsstring -> string;
  hotp : string -> Z -> string
}.

(** [qrcode]: [toDataURL(text, callback)] ends in an error or a data URL. *)
Class QrCode : Type := {
  toDataURL : string -> Error + string
}.

(** What [u2f.checkRegistration] returns. *)
Record RegistrationResult : Type := mkRegistrationResult {
  registration_errorMessage : jsstring;
  publicKey : jsstring;
  keyHandle : jsstring
}.

(** What [u2f.checkSignature] returns. *)
Record SignatureResult : Type := mkSignatureResult {
  signature_errorMessage : jsstring
}.

(** [JSON] and the [u2f] library (section 6, Challenge-Response Protocol
    collaborator).  [JSON_parse] is [None] where [JSON.parse] throws;
    [u2f_request] receives the random bytes of its challenge. *)
Class U2fLib : Type := {
  Json : Type;
  JSON_parse : string -> option Json;
  JSON_stringify : Json -> string;
  Json_get : Json -> string -> Json;
  u2f_request : jsstring -> jsstring -> list byte -> Json;
  u2f_checkRegistration : Json -> option Json -> RegistrationResult;
  u2f_checkSignature : Json -> Json -> jsstring -> SignatureResult
}.

(** [while (mapping[uuid]) { console.log(...); uuid = uuid.v4(); }] *)
Fixpoint while_in_use (fuel : nat) (in_use : string -> bool) (candidate : string)
  : Js string :=
  if in_use candidate then
    console_log "Initial UUID was already in use. Generating a new one.";;
    match fuel with
    | O => mthrow Exhausted
    | S n => next ← uuid_v4; while_in_use n in_use next
    end
  else mret candidate.

(** A fresh UUID for a mapping: the first draw and the loop above. *)
Definition fresh_uuid (in_use : string -> bool) : Js string :=
  first ← uuid_v4;
  ((fun w => while_in_use (length (uuids w)) in_use first w) : Js string).

(** The string held by a truthy property. *)
Definition field_text (f : field) : string :=
  match f with
  | Text s => s
  | _ => ""
  end.

(** Reading a property of the record the callback received: a
    [TypeError] when the record is [undefined]. *)
Definition the_record (apiKeyRecord : option ApiKeyRecord) : Js ApiKeyRecord :=
  match apiKeyRecord with
  | Some record => mret record
  | None => mthrow (TypeError "cannot read properties of undefined")
  end.

(** ** models/totp.js *)

Module Totp.

Definition set_totp (m : gmap string TotpEntry) (r : ApiKeyRecord) : ApiKeyRecord :=
  mkApiKeyRecord (record_id r) (activated r) (Some m) (u2f r).

(** [apiKeyRecord.totp && apiKeyRecord.totp[totpUuid]]: the mapping is
    a finite map of its own properties (names inherited from
    [Object.prototype] are not part of it). *)
Definition totp_entry (r : ApiKeyRecord) (totpUuid : jsstring) : option TotpEntry :=
  m ← totp r; m !! to_String totpUuid.

Section Model.
Context `{Crypto} `{Speakeasy} `{QrCode} {Json : Type}.

(** [speakeasy.generateSecret().base32] *)
Definition generateSecret : Js string :=
  bytes ← randomBytes 32; mret (base32_secret bytes).

(** [Math.floor(Date.now() / 1000 / 30)], the current time step. *)
Definition counter (w : World) : Z := (clock w / 1000 / 30)%Z.

(** The codes a token is compared against: those of the time steps
    [counter - window .. counter + window]. *)
Definition candidates (secret : string) (window : Z) (w : World) : list string :=
  map (hotp secret) (seqZ (counter w - window) (2 * window + 1)).

(** Modelled from the spec: [speakeasy.totp.verify({secret, encoding:
    'base32', token, window})] is a function of the speakeasy library,
    which is not among the sources.  Section 4.3 gives what it does: the
    codes of the current 30-second time step and of [window] steps on
    each side are computed from the seed, and the token is valid iff it
    matches any of these candidates; a missing secret is an exception
    of the library. *)
Definition totp_verify (secret : jsstring) (token : jsstring) (window : Z) : Js bool :=
  match secret with
  | None => mthrow (LibraryError "Speakeasy - totp.verifyDelta - Missing secret")
  | Some secret =>
      fun w => (Normal (existsb (String.eqb (to_String token))
                          (candidates secret window w)), w)
  end.

(** [module.exports.create]; the options object is given by its two
    properties. *)
Definition create (apiKeyValue apiSecret issuer label : jsstring)
  : Js (Response Json) :=
  let label := default "SecretKey" label in
  if negb (truthy apiKeyValue) then
    console_log "TOTP create request had no API Key.";;
    returnError 401 "Unauthorized"
  else if negb (truthy apiSecret) then
    console_log "TOTP create request had no API Secret.";;
    returnError 401 "Unauthorized"
  else
  getApiKeyByValue apiKeyValue (fun error apiKeyRecord =>
    match error, apiKeyRecord with
    | Some e, _ =>
        console_error (message e);;
        returnError 500 "Failed to retrieve API Key."
    | None, None =>
        console_log "No such API Key found:";;
        returnError 401 "Unauthorized"
    | None, Some apiKeyRecord =>
        if negb (isAlreadyActivated apiKeyRecord) then
          console_log "API Key has not yet been activated.";;
          returnError 401 "Unauthorized"
        else
        otpSecrets ← generateSecret;
        let otpAuthUrl :=
          if truthy issuer
          then otpauthURL (to_String issuer ++ ":" ++ label) otpSecrets issuer
          else otpauthURL label otpSecrets None in
        match toDataURL otpAuthUrl with
        | inl e =>
            console_error (message e);;
            returnError 500 "Failed to generate QR code."
        | inr dataUrl =>
            let totpKey := otpSecrets in
            let mapping := default ∅ (totp apiKeyRecord) in
            totpUuid ← fresh_uuid (fun u => present (mapping !! u));
            encrypted ← Encryption.encrypt (Some totpKey) apiSecret;
            let apiKeyRecord :=
              set_totp (<[totpUuid := mkTotpEntry (Text encrypted)]> mapping)
                apiKeyRecord in
            updateApiKeyRecord apiKeyRecord (fun error =>
              match error with
              | Some e =>
                  console_error (message e);;
                  returnError 500 "Failed to create new TOTP entry."
              | None =>
                  returnSuccess (TotpCreated totpUuid totpKey dataUrl)
              end)
        end
    end).

(** [module.exports.validate] *)
Definition validate (apiKeyValue apiSecret totpUuid code : jsstring)
  : Js (Response Json) :=
  if negb (truthy apiKeyValue) then
    console_log "TOTP validate request had no API Key.";;
    returnError 401 "Unauthorized"
  else if negb (truthy apiSecret) then
    console_log "TOTP validate request had no API Secret.";;
    returnError 401 "Unauthorized"
  else if negb (truthy totpUuid) then
    console_log "TOTP validate request had no UUID string in the URL.";;
    returnError 401 "Unauthorized"
  else if negb (truthy code) then
    returnError 400 "code (as a string) is required"
  else
  getApiKeyByValue apiKeyValue (fun error apiKeyRecord =>
    match error, apiKeyRecord with
    | Some e, _ =>
        console_error "Failed to retrieve API Key.";;
        returnError 500 "Error validating TOTP code."
    | None, None =>
        console_log "No such API Key found:";;
        returnError 401 "Unauthorized"
    | None, Some apiKeyRecord =>
        if negb (isAlreadyActivated apiKeyRecord) then
          console_log "API Key has not yet been activated.";;
          returnError 401 "Unauthorized"
        else
        match totp_entry apiKeyRecord totpUuid with
        | None =>
            console_log "API Key has no such TOTP uuid.";;
            returnError 401 "Unauthorized"
        | Some entry =>
            let encryptedTotpKey := encryptedTotpKey entry in
            if negb (field_truthy encryptedTotpKey) then
              console_error "No encryptedTotpKey found in that TOTP record.";;
              returnError 500 "Error validating TOTP code."
            else
            Encryption.decrypt (field_text encryptedTotpKey) apiSecret
              (fun error totpKey =>
                 match error with
                 | Some e =>
                     console_error (message e);;
                     returnError 500 "Error validating TOTP code."
                 | None =>
                     isValid ← totp_verify totpKey code 1;
                     if negb isValid then
                       console_log "Invalid TOTP code.";;
                       returnError 401 "Invalid"
                     else
                       console_log "Valid TOTP code.";;
                       returnSuccess (Message "Valid" 200)
                 end)
        end
    end).

End Model.

End Totp.

(** ** models/u2f.js *)

Module U2f.

Definition set_u2f (m : gmap string U2fEntry) (r : ApiKeyRecord) : ApiKeyRecord :=
  mkApiKeyRecord (record_id r) (activated r) (totp r) (Some m).

(** [apiKeyRecord.u2f && apiKeyRecord.u2f[u2fUuid]]: the mapping is a
    finite map of its own properties (names inherited from
    [Object.prototype] are not part of it). *)
Definition u2f_entry (r : ApiKeyRecord) (u2fUuid : jsstring) : option U2fEntry :=
  m ← u2f r; m !! to_String u2fUuid.

(** [apiKeyRecord.u2f[u2fUuid] = entry] *)
Definition set_u2f_entry (u2fUuid : jsstring) (entry : U2fEntry) (r : ApiKeyRecord)
  : ApiKeyRecord :=
  set_u2f (<[to_String u2fUuid := entry]> (default ∅ (u2f r))) r.

(** [delete apiKeyRecord.u2f[u2fUuid]] *)
Definition delete_u2f_entry (u2fUuid : jsstring) (r : ApiKeyRecord) : ApiKeyRecord :=
  set_u2f (base.delete (to_String u2fUuid) (default ∅ (u2f r))) r.

Definition set_encryptedAuthenticationRequest (v : field) (e : U2fEntry) : U2fEntry :=
  mkU2fEntry (encryptedAppId e) (encryptedRegistrationRequest e)
    (encryptedPublicKey e) (encryptedKeyHandle e) v.

Definition set_encryptedRegistrationRequest (v : field) (e : U2fEntry) : U2fEntry :=
  mkU2fEntry (encryptedAppId e) v
    (encryptedPublicKey e) (encryptedKeyHandle e) (encryptedAuthenticationRequest e).

Definition set_encryptedPublicKey (v : field) (e : U2fEntry) : U2fEntry :=
  mkU2fEntry (encryptedAppId e) (encryptedRegistrationRequest e)
    v (encryptedKeyHandle e) (encryptedAuthenticationRequest e).

Definition set_encryptedKeyHandle (v : field) (e : U2fEntry) : U2fEntry :=
  mkU2fEntry (encryptedAppId e) (encryptedRegistrationRequest e)
    (encryptedPublicKey e) v (encryptedAuthenticationRequest e).

Section Model.
Context `{Crypto} `{U2fLib}.

(** [JSON.parse(text)]; [undefined] is no JSON text either. *)
Definition JSON_parse_or_throw (text : jsstring) : Js Json :=
  match text with
  | None => mthrow SyntaxError
  | Some s =>
      match JSON_parse s with
      | Some v => mret v
      | None => mthrow SyntaxError
      end
  end.

(** [u2f.request(appId, keyHandle)] *)
Definition request (appId keyHandle : jsstring) : Js Json :=
  challenge ← randomBytes 32; mret (u2f_request appId keyHandle challenge).

(** [module.exports.createAuthentication] *)
Definition createAuthentication (apiKeyValue apiSecret u2fUuid : jsstring)
  : Js (Response Json) :=
  console_log ("Starting create U2F authentication for uuid: " ++ to_String u2fUuid);;
  getActivatedApiKey apiKeyValue apiSecret (fun error apiKeyRecord =>
    if present error then
      console_log "Unable to get activated API Key in order to create U2F:";;
      returnError 401 "Unauthorized"
    else if negb (truthy u2fUuid) then
      console_log "U2F delete request had no UUID.";;
      returnError 401 "Unauthorized"
    else
    apiKeyRecord ← the_record apiKeyRecord;
    match u2f_entry apiKeyRecord u2fUuid with
    | None =>
        console_log "API Key has no such U2F uuid.";;
        returnError 404 "No U2F entry found with that uuid for that API Key."
    | Some entry =>
        let encryptedAppId := encryptedAppId entry in
        if negb (field_truthy encryptedAppId) then
          console_error "No encryptedAppId found in that U2F record.";;
          returnError 500 "Internal Server Error"
        else
        Encryption.decrypt (field_text encryptedAppId) apiSecret (fun error appId =>
          if present error then
            console_error "Error validating AppId";;
            returnError 500 "Internal Server Error"
          else
          let encryptedKeyHandle := encryptedKeyHandle entry in
          if negb (field_truthy encryptedKeyHandle) then
            console_error "No encryptedKeyHandle found in that U2F record.";;
            returnError 500 "Internal Server Error"
          else
          Encryption.decrypt (field_text encryptedKeyHandle) apiSecret
            (fun error keyHandle =>
               if present error then
                 console_error "Error validating KeyHandle";;
                 returnError 500 "Internal Server Error"
               else
               authRequest ← request appId keyHandle;
               encrypted ← Encryption.encrypt (Some (JSON_stringify authRequest)) apiSecret;
               let apiKeyRecord :=
                 set_u2f_entry u2fUuid
                   (set_encryptedAuthenticationRequest (Text encrypted) entry)
                   apiKeyRecord in
               updateApiKeyRecord apiKeyRecord (fun error =>
                 if present error then
                   console_error "Failed to create new U2F authentication request.";;
                   returnError 500 "Internal Server Error"
                 else
                   console_log ("Successfully created U2F authentication for uuid: "
                                ++ to_String u2fUuid);;
                   returnSuccess
                     (U2fAuthenticationCreated u2fUuid
                        (Json_get authRequest "version")
                        (Json_get authRequest "challenge")
                        appId keyHandle))))
    end).

(** The callback that [createRegistration] passes to
    [getActivatedApiKey] (lines 89 to 124). *)
Definition createRegistration_callback (apiSecret appId : jsstring)
    (error : option Error) (apiKeyRecord : option ApiKeyRecord)
  : Js (Response Json) :=
  if present error then
    console_log "Unable to get activated API Key in order to create U2F:";;
    returnError 401 "Unauthorized"
  else
  registrationRequest ← request appId None;
  u2fUuid ← uuid_v4;
  apiKeyRecord ← the_record apiKeyRecord;
  let mapping := default ∅ (u2f apiKeyRecord) in
  u2fUuid ← (fun w => while_in_use (length (uuids w))
                         (fun u => present (mapping !! u)) u2fUuid w)
            : Js string;
  encryptedAppId ← Encryption.encrypt appId apiSecret;
  encryptedRegistrationRequest ←
    Encryption.encrypt (Some (JSON_stringify registrationRequest)) apiSecret;
  let apiKeyRecord :=
    set_u2f (<[u2fUuid := mkU2fEntry (Text encryptedAppId)
                            (Text encryptedRegistrationRequest)
                            Undefined Undefined Undefined]> mapping)
      apiKeyRecord in
  updateApiKeyRecord apiKeyRecord (fun error =>
    if present error then
      console_error "Failed to create new U2F entry.";;
      returnError 500 "Internal Server Error"
    else
      console_log ("Successfully created U2F registration for uuid: " ++ u2fUuid);;
      returnSuccess (U2fRegistrationCreated u2fUuid registrationRequest)).

(** [module.exports.createRegistration].  Its first statement (line 88)
    reads [u2fUuid], which is declared by the [var] of line 98 inside
    the callback and by nothing in the enclosing scopes: evaluating it
    throws a [ReferenceError] before anything else happens. *)
Definition createRegistration (apiKeyValue apiSecret appId : jsstring)
  : Js (Response Json) :=
  u2fUuid ← (mthrow (ReferenceError "u2fUuid") : Js jsstring);
  console_log ("Begin creating U2F registration for uuid: " ++ to_String u2fUuid);;
  getActivatedApiKey apiKeyValue apiSecret
    (createRegistration_callback apiSecret appId).

(** [module.exports.delete] *)
Definition delete (apiKeyValue apiSecret u2fUuid : jsstring) : Js (Response Json) :=
  console_log ("Begin deleting U2F for uuid: " ++ to_String u2fUuid);;
  getActivatedApiKey apiKeyValue apiSecret (fun error apiKeyRecord =>
    if present error then
      console_log "Unable to get activated API Key in order to delete U2F:";;
      returnError 401 "Unauthorized"
    else if negb (truthy u2fUuid) then
      console_log "U2F delete request had no UUID.";;
      returnError 401 "Unauthorized"
    else
    apiKeyRecord ← the_record apiKeyRecord;
    match u2f_entry apiKeyRecord u2fUuid with
    | None =>
        console_log "API Key has no such U2F uuid.";;
        returnError 404 "No U2F entry found with that uuid for that API Key."
    | Some _ =>
        let apiKeyRecord := delete_u2f_entry u2fUuid apiKeyRecord in
        updateApiKeyRecord apiKeyRecord (fun error =>
          if present error then
            console_error "Error while deleting U2F entry.";;
            returnError 500 "Internal Server Error"
          else
            console_log ("Successfully deleted U2F for uuid: " ++ to_String u2fUuid);;
            returnSuccess NoBody)
    end).

(** [module.exports.validateAuthentication]; the options object is given
    by its property [signResult], a JSON text. *)
Definition validateAuthentication (apiKeyValue apiSecret u2fUuid signResult : jsstring)
  : Js (Response Json) :=
  console_log ("Begin validating authentication for uuid: " ++ to_String u2fUuid);;
  getActivatedApiKey apiKeyValue apiSecret (fun error apiKeyRecord =>
    if present error then
      console_log
        "Unable to get activated API Key in order to validate U2F authentication:";;
      returnError 401 "Unauthorized"
    else if negb (truthy u2fUuid) then
      console_log "U2F validate authentication request had no UUID.";;
      returnError 401 "Unauthorized"
    else
    apiKeyRecord ← the_record apiKeyRecord;
    match u2f_entry apiKeyRecord u2fUuid with
    | None =>
        console_log "API Key has no such U2F uuid.";;
        returnError 404 "No U2F entry found with that uuid for that API Key."
    | Some entry =>
        let encryptedAuthenticationRequest := encryptedAuthenticationRequest entry in
        if negb (field_truthy encryptedAuthenticationRequest) then
          console_error "No encryptedAuthenticationRequest found in that U2F record.";;
          returnError 500 "Internal Server Error"
        else
        Encryption.decrypt (field_text encryptedAuthenticationRequest) apiSecret
          (fun error authenticationRequest =>
             if present error then
               console_error "Error validating authenticationRequest";;
               returnError 500 "Internal Server Error"
             else
             let encryptedPublicKey := encryptedPublicKey entry in
             if negb (field_truthy encryptedPublicKey) then
               console_error "No encryptedPublicKey found in that U2F record.";;
               returnError 500 "Internal Server Error"
             else
             Encryption.decrypt (field_text encryptedPublicKey) apiSecret
               (fun error publicKey =>
                  parsedRequest ← JSON_parse_or_throw authenticationRequest;
                  parsedSignResult ← JSON_parse_or_throw signResult;
                  let result :=
                    u2f_checkSignature parsedRequest parsedSignResult publicKey in
                  if truthy (signature_errorMessage result) then
                    console_error ("Error validating U2F authentication. Error: "
                                   ++ to_String (signature_errorMessage result));;
                    returnError 400 (to_String (signature_errorMessage result))
                  else
                  let apiKeyRecord :=
                    set_u2f_entry u2fUuid
                      (set_encryptedAuthenticationRequest (Text " ") entry)
                      apiKeyRecord in
                  updateApiKeyRecord apiKeyRecord (fun error =>
                    if present error then
                      console_error
                        "Unable to unset encryptedAuthenticationRequest after successful authentication";;
                      returnError 500 "Internal Server Error"
                    else
                      console_log ("Successfully validated U2F authentication for uuid: "
                                   ++ to_String u2fUuid);;
                      returnSuccess (Message "Valid" 200))))
    end).

(** [module.exports.validateRegistration]; the options object is given
    by its property [signResult], an already parsed value. *)
Definition validateRegistration (apiKeyValue apiSecret u2fUuid : jsstring)
    (signResult : option Json) : Js (Response Json) :=
  console_log ("Begin validating registration for uuid: " ++ to_String u2fUuid);;
  getActivatedApiKey apiKeyValue apiSecret (fun error apiKeyRecord =>
    if present error then
      console_log
        "Unable to get activated API Key in order to validate U2F authentication:";;
      returnError 401 "Unauthorized"
    else if negb (truthy u2fUuid) then
      console_log "U2F validate authentication request had no UUID.";;
      returnError 401 "Unauthorized"
    else
    apiKeyRecord ← the_record apiKeyRecord;
    match u2f_entry apiKeyRecord u2fUuid with
    | None =>
        console_log "API Key has no such U2F uuid.";;
        returnError 404 "No U2F entry found with that uuid for that API Key."
    | Some entry =>
        let encryptedRegistrationRequest := encryptedRegistrationRequest entry in
        if negb (field_truthy encryptedRegistrationRequest) then
          console_error "No encryptedRegistrationRequest found in that U2F record.";;
          returnError 500 "Internal Server Error"
        else
        Encryption.decrypt (field_text encryptedRegistrationRequest) apiSecret
          (fun error registrationRequest =>
             if present error then
               console_error "Error validating registrationRequest";;
               returnError 500 "Internal Server Error"
             else
             parsedRequest ← JSON_parse_or_throw registrationRequest;
             let result := u2f_checkRegistration parsedRequest signResult in
             if truthy (registration_errorMessage result) then
               console_error ("U2F check registration failed. Error: "
                              ++ to_String (registration_errorMessage result));;
               returnError 500 "Internal Server Error"
             else
             let entry := set_encryptedRegistrationRequest Null entry in
             encrypted ← Encryption.encrypt (publicKey result) apiSecret;
             let entry := set_encryptedPublicKey (Text encrypted) entry in
             encrypted ← Encryption.encrypt (keyHandle result) apiSecret;
             let entry := set_encryptedKeyHandle (Text encrypted) entry in
             let apiKeyRecord := set_u2f_entry u2fUuid entry apiKeyRecord in
             updateApiKeyRecord apiKeyRecord (fun error =>
               if present error then
                 console_error
                   "Error while updating U2F entry after validating registration";;
                 returnError 500 "Internal Server Error"
               else
                 console_log ("Successfully validated U2F registration for uuid: "
                              ++ to_String u2fUuid);;
                 returnSuccess NoBody))
    end).

End Model.

End U2f.

(** ** Vocabulary of the properties *)

(** Number of separator characters in a string. *)
Fixpoint count_sep (sep : ascii) (s : string) : nat :=
  match s with
  | EmptyString => 0
  | String c s' => (if Ascii.eqb c sep then 1 else 0) + count_sep sep s'
  end.

(** The error and the console line of [decrypt] for a malformed blob. *)
Definition format_error : Error := mkError "Unable to decrypt the given data.".

Definition format_error_line (pieces : nat) : string :=
  "Expected a single color (:) delimiter, between the IV and the "
  ++ "encrypted data. Found " ++ pretty pieces ++ ".".

(** The three ways a call of [decrypt] can end, whatever its callback:
    it hands over the plain text, it reports the format error, or an
    exception of the cipher set-up escapes. *)
Definition decrypts_to `{Crypto} (blob : string) (key : jsstring) (text : string)
  : Prop :=
  forall (A : Type) (callback : option Error -> jsstring -> Js A) (w : World),
    Encryption.decrypt blob key callback w = callback None (Some text) w.

Definition decrypt_fails `{Crypto} (blob : string) (key : jsstring) : Prop :=
  forall (A : Type) (callback : option Error -> jsstring -> Js A) (w : World),
    Encryption.decrypt blob key callback w
    = callback (Some format_error) None
        (log (format_error_line (length (Encryption.split ":" blob))) w).

Definition decrypt_throws `{Crypto} (blob : string) (key : jsstring) (e : exn)
  : Prop :=
  forall (A : Type) (callback : option Error -> jsstring -> Js A) (w : World),
    Encryption.decrypt blob key callback w = (Abrupt e, w).

(** The account that passes the shared precondition chain: key and
    secret given, the store answers, the record exists and is activated. *)
Definition account (apiKeyValue apiSecret : jsstring) (w : World)
  : option ApiKeyRecord :=
  if truthy apiKeyValue && truthy apiSecret then
    match read_fault w with
    | Some _ => None
    | None =>
        match table w !! to_String apiKeyValue with
        | Some record => if activated record then Some record else None
        | None => None
        end
    end
  else None.

(** The chain continued to the credential: a non-empty UUID that is
    present in the account's mapping. *)
Definition u2f_chain (apiKeyValue apiSecret u2fUuid : jsstring) (w : World)
  : option (ApiKeyRecord * U2fEntry) :=
  match account apiKeyValue apiSecret w with
  | Some record =>
      if truthy u2fUuid then
        match U2f.u2f_entry record u2fUuid with
        | Some entry => Some (record, entry)
        | None => None
        end
      else None
  | None => None
  end.

Definition totp_chain (apiKeyValue apiSecret totpUuid : jsstring) (w : World)
  : option (ApiKeyRecord * TotpEntry) :=
  match account apiKeyValue apiSecret w with
  | Some record =>
      if truthy totpUuid then
        match Totp.totp_entry record totpUuid with
        | Some entry => Some (record, entry)
        | None => None
        end
      else None
  | None => None
  end.

(** No store mutation: same content, and no record was handed to
    [updateApiKeyRecord]. *)
Definition unchanged (w w' : World) : Prop :=
  table w' = table w /\ updates w' = updates w.

(** The caller received a failure. *)
Definition refused {Json : Type} (c : Completion (Response Json)) : Prop :=
  exists status text, c = Normal (Failure status text).

(** Records are stored under their own identifier. *)
Definition store_keyed (w : World) : Prop :=
  forall k r, table w !! k = Some r -> record_id r = k.

(** The two phases of a U2F credential (section 3). *)
Definition pending (e : U2fEntry) : bool :=
  field_truthy (encryptedRegistrationRequest e).

Definition registered (e : U2fEntry) : bool :=
  field_truthy (encryptedPublicKey e) && field_truthy (encryptedKeyHandle e).

Definition entry_invariant (e : U2fEntry) : Prop :=
  xorb (pending e) (registered e) = true.

Definition store_invariant (w : World) : Prop :=
  forall k r m uuid e,
    table w !! k = Some r -> u2f r = Some m -> m !! uuid = Some e ->
    entry_invariant e.

(** The world changed on the console only. *)
Definition logged (w w' : World) : Prop :=
  exists lines, w' = with_console (console w ++ lines)%list w.

(** The phase invariant for all credentials of one account. *)
Definition record_invariant (r : ApiKeyRecord) : Prop :=
  forall m uuid e, u2f r = Some m -> m !! uuid = Some e -> entry_invariant e.

(** First console line of [validateAuthentication] and of
    [validateRegistration]. *)
Definition begin_authentication (uuid : jsstring) : string :=
  "Begin validating authentication for uuid: " ++ to_String uuid.

Definition begin_registration (uuid : jsstring) : string :=
  "Begin validating registration for uuid: " ++ to_String uuid.

(** A sextet's character decodes to the sextet and is neither the
    padding character nor the blob delimiter. *)
Definition sextet_ok (n : N) : bool :=
  match Base64.b64_value (Base64.b64_char n) with
  | Some v => (v =? n)%N
  | None => false
  end
  && negb (Ascii.eqb (Base64.b64_char n) "="%char)
  && negb (Ascii.eqb (Base64.b64_char n) ":"%char).

(** ** Outcomes of requests *)

(** The caller received a success. *)
Definition succeeded {Json : Type} (c : Completion (Response Json)) : bool :=
  match c with
  | Normal (Success _) => true
  | _ => false
  end.

(** Exactly one write: record [r'] replaced [r] under its identifier. *)
Definition wrote (w w' : World) (r r' : ApiKeyRecord) : Prop :=
  table w' = <[record_id r := r']> (table w) /\ updates w' = r' :: updates w.

(** Nothing reached the store's content; with a healthy store nothing
    was even handed to [updateApiKeyRecord]. *)
Definition untouched (w w' : World) : Prop :=
  table w' = table w /\ (write_fault w = None -> updates w' = updates w).

(** [r'] is [r] except possibly for the U2F credential [uuid]. *)
Definition same_but_u2f (uuid : string) (r r' : ApiKeyRecord) : Prop :=
  record_id r' = record_id r /\ activated r' = activated r /\ totp r' = totp r
  /\ forall u, u <> uuid -> default ∅ (u2f r') !! u = default ∅ (u2f r) !! u.

(** [r'] is [r] except possibly for the TOTP credential [uuid]. *)
Definition same_but_totp (uuid : string) (r r' : ApiKeyRecord) : Prop :=
  record_id r' = record_id r /\ activated r' = activated r /\ u2f r' = u2f r
  /\ forall u, u <> uuid -> default ∅ (totp r') !! u = default ∅ (totp r) !! u.

(** The [otpauth://] URL that [Totp.create] renders: with an issuer the
    label is prefixed by it. *)
Definition enrollment_url `{Speakeasy} (issuer label : jsstring) (seed : string)
  : string :=
  if truthy issuer
  then otpauthURL (to_String issuer ++ ":" ++ default "SecretKey" label) seed issuer
  else otpauthURL (default "SecretKey" label) seed None.

(** The credential after its registration proof was accepted. *)
Definition registered_entry (publicKeyBlob keyHandleBlob : string) (entry : U2fEntry)
  : U2fEntry :=
  U2f.set_encryptedKeyHandle (Text keyHandleBlob)
    (U2f.set_encryptedPublicKey (Text publicKeyBlob)
       (U2f.set_encryptedRegistrationRequest Null entry)).

(** The requests that the two managers serve.  [RegistrationCallback] is
    the callback of [createRegistration] run by [getActivatedApiKey]. *)
Inductive Operation (Json : Type) : Type :=
| CreateRegistration (apiKeyValue apiSecret appId : jsstring)
| RegistrationCallback (apiKeyValue apiSecret appId : jsstring)
| ValidateRegistration (apiKeyValue apiSecret u2fUuid : jsstring)
    (signResult : option Json)
| CreateAuthentication (apiKeyValue apiSecret u2fUuid : jsstring)
| ValidateAuthentication (apiKeyValue apiSecret u2fUuid signResult : jsstring)
| Delete (apiKeyValue apiSecret u2fUuid : jsstring)
| TotpCreate (apiKeyValue apiSecret issuer label : jsstring)
| TotpValidate (apiKeyValue apiSecret totpUuid code : jsstring).
Arguments CreateRegistration {Json} apiKeyValue apiSecret appId.
Arguments RegistrationCallback {Json} apiKeyValue apiSecret appId.
Arguments ValidateRegistration {Json} apiKeyValue apiSecret u2fUuid signResult.
Arguments CreateAuthentication {Json} apiKeyValue apiSecret u2fUuid.
Arguments ValidateAuthentication {Json} apiKeyValue apiSecret u2fUuid signResult.
Arguments Delete {Json} apiKeyValue apiSecret u2fUuid.
Arguments TotpCreate {Json} apiKeyValue apiSecret issuer label.
Arguments TotpValidate {Json} apiKeyValue apiSecret totpUuid code.

(** The API key and the API secret that a request presents. *)
Definition api_key {Json : Type} (op : Operation Json) : jsstring :=
  match op with
  | CreateRegistration k _ _ | RegistrationCallback k _ _
  | ValidateRegistration k _ _ _ | CreateAuthentication k _ _
  | ValidateAuthentication k _ _ _ | Delete k _ _
  | TotpCreate k _ _ _ | TotpValidate k _ _ _ => k
  end.

Definition api_secret {Json : Type} (op : Operation Json) : jsstring :=
  match op with
  | CreateRegistration _ s _ | RegistrationCallback _ s _
  | ValidateRegistration _ s _ _ | CreateAuthentication _ s _
  | ValidateAuthentication _ s _ _ | Delete _ s _
  | TotpCreate _ s _ _ | TotpValidate _ s _ _ => s
  end.

(** The account that a request names. *)
Definition caller {Json : Type} (op : Operation Json) (w : World)
  : option ApiKeyRecord :=
  account (api_key op) (api_secret op) w.

(** How the record written by a successful request differs from the
    caller's record: at the one credential the request addresses, or at
    one credential identifier that was free. *)
Definition credential_change {Json : Type} (op : Operation Json)
    (r r' : ApiKeyRecord) : Prop :=
  match op with
  | CreateRegistration _ _ _ | TotpValidate _ _ _ _ => False
  | RegistrationCallback _ _ _ =>
      exists u, default ∅ (u2f r) !! u = None /\ same_but_u2f u r r'
  | ValidateRegistration _ _ uuid _ | CreateAuthentication _ _ uuid
  | ValidateAuthentication _ _ uuid _ | Delete _ _ uuid =>
      is_Some (U2f.u2f_entry r uuid) /\ same_but_u2f (to_String uuid) r r'
  | TotpCreate _ _ _ _ =>
      exists u, default ∅ (totp r) !! u = None /\ same_but_totp u r r'
  end.

Section RequestModel.
Context `{Crypto} `{Speakeasy} `{QrCode} `{U2fLib}.

(** The challenge that [createAuthentication] builds in world [w]. *)
Definition authentication_request (appId keyHandle : string) (w : World) : Json :=
  u2f_request (Some appId) (Some keyHandle) (map (random w) (seq (random_pos w) 32)).


(** The answer for a UUID that the account does not have. *)
Definition not_found : Completion (Response Json) :=
  Normal (Failure 404 "No U2F entry found with that uuid for that API Key.").

(** What an operation on the credential [uuid] leaves behind. *)
Definition u2f_settled (k s uuid : jsstring) (w : World)
    (outcome : Completion (Response Json) * World) : Prop :=
  if succeeded outcome.1 then
    exists r entry r',
      u2f_chain k s uuid w = Some (r, entry)
      /\ write_fault w = None
      /\ wrote w outcome.2 r r'
      /\ same_but_u2f (to_String uuid) r r'
  else untouched w outcome.2.

(** What the callback of [createRegistration] leaves behind. *)
Definition registration_settled (k s : jsstring) (w : World)
    (outcome : Completion (Response Json) * World) : Prop :=
  if succeeded outcome.1 then
    exists r r' u,
      account k s w = Some r
      /\ write_fault w = None
      /\ wrote w outcome.2 r r'
      /\ default ∅ (u2f r) !! u = None
      /\ same_but_u2f u r r'
  else untouched w outcome.2.

(** What [Totp.create] leaves behind. *)
Definition enrollment_settled (k s : jsstring) (w : World)
    (outcome : Completion (Response Json) * World) : Prop :=
  if succeeded outcome.1 then
    exists r r' u,
      account k s w = Some r
      /\ write_fault w = None
      /\ wrote w outcome.2 r r'
      /\ default ∅ (totp r) !! u = None
      /\ same_but_totp u r r'
  else untouched w outcome.2.

(** One request, served by the function that the module exports for it. *)
Definition perform (op : Operation Json) : Js (Response Json) :=
  match op with
  | CreateRegistration k s appId => U2f.createRegistration k s appId
  | RegistrationCallback k s appId =>
      getActivatedApiKey k s (U2f.createRegistration_callback s appId)
  | ValidateRegistration k s uuid signResult =>
      U2f.validateRegistration k s uuid signResult
  | CreateAuthentication k s uuid => U2f.createAuthentication k s uuid
  | ValidateAuthentication k s uuid signResult =>
      U2f.validateAuthentication k s uuid signResult
  | Delete k s uuid => U2f.delete k s uuid
  | TotpCreate k s issuer label => Totp.create k s issuer label
  | TotpValidate k s uuid code => Totp.validate k s uuid code
  end.

(** The world after a sequence of requests, whatever their outcomes. *)
Fixpoint perform_all (ops : list (Operation Json)) (w : World) : World :=
  match ops with
  | [] => w
  | op :: ops => perform_all ops (perform op w).2
  end.

(** What a successful request leaves behind. *)
Definition success_effect (op : Operation Json) (w w' : World) : Prop :=
  exists r,
    caller op w = Some r
    /\ match op with
       | TotpValidate _ _ _ _ => unchanged w w'
       | _ =>
           write_fault w = None
           /\ exists r', wrote w w' r r' /\ credential_change op r r'
       end.

End RequestModel.

(** ** A concrete installation *)

Module Sample.

Definition crypto : Crypto :=
  {| aes256_encrypt_block := fun key block =>
       map (fun p => Encryption.byte_xor p.1 p.2) (zip (take 16 key) block) |}.

Definition speakeasy : Speakeasy :=
  {| base32_secret := fun bytes => Base64.encode bytes;
     otpauthURL := fun label secret issuer =>
       "otpauth://totp/" ++ label ++ "?secret=" ++ secret;
     hotp := fun secret step => pretty (100000 + (step mod 900000))%Z |}.

Definition qrcode : QrCode :=
  {| toDataURL := fun text => inr ("data:image/png;base64," ++ text) |}.

Definition u2flib : U2fLib :=
  {| Json := string;
     JSON_parse := fun text => if String.eqb text "" then None else Some text;
     JSON_stringify := fun value => value;
     Json_get := fun value name => name;
     u2f_request := fun appId keyHandle challenge =>
       "{challenge:" ++ Base64.encode challenge ++ "}";
     u2f_checkRegistration := fun request signResult =>
       match signResult with
       | Some "good" => mkRegistrationResult None (Some "PK") (Some "KH")
       | _ => mkRegistrationResult (Some "Invalid registration data") None None
       end;
     u2f_checkSignature := fun request signResult publicKey =>
       match publicKey with
       | None => mkSignatureResult (Some "Invalid public key")
       | Some _ =>
           if String.eqb signResult "good"
           then mkSignatureResult None
           else mkSignatureResult (Some "Invalid signature")
       end |}.

(** Thirty-two key bytes in base64: a valid API Secret. *)
Definition secret : string := "AQIDBAUGBwgJCgsMDQ4PEBESExQVFhcYGRobHB0eHyA=".

Definition blank : World :=
  mkWorld ∅ [] None None [] 1500000000000 (fun n => x2a) 0 ["uuid-1"; "uuid-2"].

Definition encrypted (text : string) : string :=
  match @Encryption.encrypt crypto (Some text) (Some secret) blank with
  | (Normal blob, _) => blob
  | _ => ""
  end.

Definition seed_blob : string := Eval vm_compute in encrypted "JBSWY3DPEHPK3PXP".
Definition request_blob : string := Eval vm_compute in encrypted "{challenge:abc}".
Definition appId_blob : string := Eval vm_compute in encrypted "https://example.com".
Definition publicKey_blob : string := Eval vm_compute in encrypted "PK".
Definition keyHandle_blob : string := Eval vm_compute in encrypted "KH".

(** A credential waiting for its registration proof. *)
Definition pending_entry : U2fEntry :=
  mkU2fEntry (Text appId_blob) (Text request_blob) Undefined Undefined Undefined.

(** A registered credential with an authentication challenge out. *)
Definition awaiting_entry : U2fEntry :=
  mkU2fEntry (Text appId_blob) Null (Text publicKey_blob) (Text keyHandle_blob)
    (Text request_blob).

(** A registered credential whose stored public key is not an encrypted
    blob. *)
Definition damaged_entry : U2fEntry :=
  mkU2fEntry (Text appId_blob) Null (Text "not-an-encrypted-blob")
    (Text keyHandle_blob) (Text request_blob).

Definition record : ApiKeyRecord :=
  mkApiKeyRecord "key-1" true
    (Some {[ "totp-1" := mkTotpEntry (Text seed_blob) ]})
    (Some {[ "u2f-pending" := pending_entry;
             "u2f-awaiting" := awaiting_entry;
             "u2f-damaged" := damaged_entry ]}).

(** An account that was never activated. *)
Definition dormant : ApiKeyRecord :=
  mkApiKeyRecord "key-2" false None None.

Definition world : World :=
  mkWorld {[ "key-1" := record; "key-2" := dormant ]} [] None None []
    1500000000000 (fun n => x2a) 0 ["uuid-1"; "uuid-2"].

End Sample.

(** ** Further installations *)

Module Cases.

(** A credential whose stored values are not encrypted blobs. *)
Definition garbled_entry : U2fEntry :=
  mkU2fEntry (Text "garbled") (Text "garbled") Undefined Undefined (Text "garbled").

Definition garbled_record : ApiKeyRecord :=
  mkApiKeyRecord "key-3" true
    (Some {[ "totp-3" := mkTotpEntry (Text "garbled") ]})
    (Some {[ "u2f-3" := garbled_entry ]}).

Definition garbled : World :=
  mkWorld {[ "key-3" := garbled_record ]} [] None None []
    1500000000000 (fun n => x2a) 0 ["uuid-1"].

(** The sample accounts with a random source whose bytes differ from
    draw to draw, and a first UUID draw that is already a TOTP
    credential of the account. *)
Definition varied : World :=
  mkWorld (table Sample.world) [] None None [] 1500000000000
    (fun n => Base64.byte_of_N (N.of_nat n)) 0 ["totp-1"; "uuid-1"; "uuid-2"].


End Cases.

(** * Properties *)

(** ** Base64 *)

Ltac div_lia := zify; Z.to_euclidean_division_equations; lia.

Lemma list_ind3 {A : Type} (P : list A -> Prop) :
  P [] -> (forall a, P [a]) -> (forall a b, P [a; b]) ->
  (forall a b c l, P l -> P (a :: b :: c :: l)) ->
  forall l, P l.
Proof.
  intros H0 H1 H2 H3 l.
  cut (P l /\ (forall a, P (a :: l)) /\ (forall a b, P (a :: b :: l))).
  { tauto. }
  induction l as [|x l IH].
  - auto.
  - destruct IH as (IHl & IH1 & IH2). repeat split; auto.
Qed.

Lemma byte_of_N_to_N (b : byte) : Base64.byte_of_N (Byte.to_N b) = b.
Proof.
  unfold Base64.byte_of_N.
  pose proof (Byte.to_N_bounded b) as Hb.
  rewrite N.mod_small by lia.
  now rewrite Byte.of_to_N.
Qed.

Lemma byte_of_N_eq (n : N) (b : byte) : n = Byte.to_N b -> Base64.byte_of_N n = b.
Proof. intros ->. apply byte_of_N_to_N. Qed.

Lemma sextet_ok_all (n : N) : (n < 64)%N -> sextet_ok n = true.
Proof.
  intros Hn.
  assert (Hall : forallb sextet_ok (map N.of_nat (seq 0 64)) = true)
    by (vm_compute; reflexivity).
  rewrite forallb_forall in Hall. apply Hall.
  apply in_map_iff. exists (N.to_nat n). split; [lia|].
  apply in_seq. lia.
Qed.

Lemma b64_value_char (n : N) :
  (n < 64)%N -> Base64.b64_value (Base64.b64_char n) = Some n.
Proof.
  intros Hn. pose proof (sextet_ok_all n Hn) as Hok. unfold sextet_ok in Hok.
  apply andb_prop in Hok as [Hok _]. apply andb_prop in Hok as [Hok _].
  destruct (Base64.b64_value (Base64.b64_char n)); [|discriminate].
  apply N.eqb_eq in Hok. now subst.
Qed.

Lemma b64_char_not_pad (n : N) :
  (n < 64)%N -> Ascii.eqb (Base64.b64_char n) "="%char = false.
Proof.
  intros Hn. pose proof (sextet_ok_all n Hn) as Hok. unfold sextet_ok in Hok.
  apply andb_prop in Hok as [Hok _]. apply andb_prop in Hok as [_ Hok].
  now apply negb_true_iff in Hok.
Qed.

Lemma b64_char_not_colon (n : N) :
  (n < 64)%N -> Ascii.eqb (Base64.b64_char n) ":"%char = false.
Proof.
  intros Hn. pose proof (sextet_ok_all n Hn) as Hok. unfold sextet_ok in Hok.
  apply andb_prop in Hok as [_ Hok].
  now apply negb_true_iff in Hok.
Qed.

Lemma sextets_char (n : N) (s : string) :
  (n < 64)%N -> Base64.sextets (String (Base64.b64_char n) s) = n :: Base64.sextets s.
Proof.
  intros Hn. cbn [Base64.sextets].
  now rewrite b64_char_not_pad, b64_value_char.
Qed.

Lemma sextets_pad (s : string) : Base64.sextets (String "="%char s) = [].
Proof. reflexivity. Qed.

(** Decoding the base64 form of a buffer gives the buffer back. *)
Lemma decode_encode (bs : list byte) : Base64.decode (Base64.encode bs) = bs.
Proof.
  unfold Base64.decode.
  induction bs as [|a|a b|a b c rest IH] using list_ind3.
  - reflexivity.
  - pose proof (Byte.to_N_bounded a).
    cbn [Base64.encode]. rewrite !sextets_char by div_lia.
    rewrite sextets_pad. cbn [Base64.bytes_of_sextets].
    f_equal. apply byte_of_N_eq; div_lia.
  - pose proof (Byte.to_N_bounded a). pose proof (Byte.to_N_bounded b).
    cbn [Base64.encode]. rewrite !sextets_char by div_lia.
    rewrite sextets_pad. cbn [Base64.bytes_of_sextets].
    f_equal; [|f_equal].
    + apply byte_of_N_eq; div_lia.
    + apply byte_of_N_eq; div_lia.
  - pose proof (Byte.to_N_bounded a). pose proof (Byte.to_N_bounded b).
    pose proof (Byte.to_N_bounded c).
    cbn [Base64.encode]. rewrite !sextets_char by div_lia.
    cbn [Base64.bytes_of_sextets]. rewrite IH.
    f_equal; [|f_equal; [|f_equal]].
    + apply byte_of_N_eq; div_lia.
    + apply byte_of_N_eq; div_lia.
    + apply byte_of_N_eq; div_lia.
Qed.

(** The base64 form of a buffer never contains the delimiter. *)
Lemma encode_no_colon (bs : list byte) : count_sep ":" (Base64.encode bs) = 0.
Proof.
  induction bs as [|a|a b|a b c rest IH] using list_ind3.
  - reflexivity.
  - pose proof (Byte.to_N_bounded a).
    cbn [Base64.encode count_sep].
    rewrite !b64_char_not_colon by div_lia. reflexivity.
  - pose proof (Byte.to_N_bounded a). pose proof (Byte.to_N_bounded b).
    cbn [Base64.encode count_sep].
    rewrite !b64_char_not_colon by div_lia. reflexivity.
  - pose proof (Byte.to_N_bounded a). pose proof (Byte.to_N_bounded b).
    pose proof (Byte.to_N_bounded c).
    cbn [Base64.encode count_sep].
    rewrite !b64_char_not_colon by div_lia. now rewrite IH.
Qed.

(** ** Splitting and the stream cipher *)

Lemma append_nil_l (s : string) : "" ++ s = s.
Proof. reflexivity. Qed.

Lemma append_cons (c : ascii) (s1 s2 : string) :
  String c s1 ++ s2 = String c (s1 ++ s2).
Proof. reflexivity. Qed.

(** [split] yields one piece more than there are separators. *)
Lemma length_split (sep : ascii) (s : string) :
  length (Encryption.split sep s) = S (count_sep sep s).
Proof.
  induction s as [|c s IH]; [reflexivity|].
  cbn [Encryption.split count_sep]. destruct (Ascii.eqb c sep).
  - cbn. now rewrite IH.
  - destruct (Encryption.split sep s); [discriminate|]. cbn in *. lia.
Qed.

Lemma split_no_sep (sep : ascii) (s : string) :
  count_sep sep s = 0 -> Encryption.split sep s = [s].
Proof.
  induction s as [|c s IH]; [reflexivity|].
  cbn [Encryption.split count_sep]. destruct (Ascii.eqb c sep); [discriminate|].
  intros Hs. now rewrite IH.
Qed.

Lemma split_app (sep : ascii) (s1 s2 : string) :
  count_sep sep s1 = 0 ->
  Encryption.split sep (s1 ++ String sep s2) = s1 :: Encryption.split sep s2.
Proof.
  induction s1 as [|c s1 IH]; intros Hs.
  - rewrite append_nil_l. cbn [Encryption.split]. now rewrite Ascii.eqb_refl.
  - cbn [count_sep] in Hs. rewrite append_cons. cbn [Encryption.split].
    destruct (Ascii.eqb c sep); [discriminate|].
    now rewrite IH.
Qed.

Lemma xor_bits_involutive a k :
  Encryption.xor_bits (Encryption.xor_bits a k) k = a.
Proof.
  destruct a as (a0 & a1 & a2 & a3 & a4 & a5 & a6 & a7).
  destruct k as (k0 & k1 & k2 & k3 & k4 & k5 & k6 & k7).
  cbn [Encryption.xor_bits].
  rewrite !xorb_assoc, !xorb_nilpotent, !xorb_false_r.
  reflexivity.
Qed.

Lemma byte_xor_involutive (a k : byte) :
  Encryption.byte_xor (Encryption.byte_xor a k) k = a.
Proof.
  unfold Encryption.byte_xor.
  now rewrite Byte.to_bits_of_bits, xor_bits_involutive, Byte.of_bits_to_bits.
Qed.

Lemma xor_bytes_involutive (data ks : list byte) :
  Encryption.xor_bytes (Encryption.xor_bytes data ks) ks = data.
Proof.
  revert ks. induction data as [|d data IH]; intros [|k ks]; cbn; try reflexivity.
  now rewrite byte_xor_involutive, IH.
Qed.

Lemma length_xor_bytes (data ks : list byte) :
  length (Encryption.xor_bytes data ks) = length data.
Proof.
  revert ks. induction data as [|d data IH]; intros [|k ks]; cbn; try reflexivity.
  now rewrite IH.
Qed.

(** ** UTF-8 *)

Lemma to_N_byte_of_N (n : N) : (n < 256)%N -> Byte.to_N (Base64.byte_of_N n) = n.
Proof.
  intros Hn. unfold Base64.byte_of_N. rewrite N.mod_small by exact Hn.
  destruct (Byte.of_N n) as [b|] eqn:Hb.
  - cbn [default from_option id]. now apply Byte.to_of_N.
  - apply Byte.of_N_None_iff in Hb. lia.
Qed.

Lemma to_N_bytes_of_N (l : list N) :
  Forall (fun n => (n < 256)%N) l -> map Byte.to_N (map Base64.byte_of_N l) = l.
Proof.
  induction 1 as [|n l Hn _ IH]; cbn [map]; [reflexivity|].
  now rewrite to_N_byte_of_N, IH.
Qed.

Ltac tests_to_props :=
  unfold Utf16.is_high, Utf16.is_low, Utf16.between in *;
  repeat match goal with
         | H : _ && _ = true |- _ => apply andb_true_iff in H; destruct H
         | H : _ && _ = false |- _ => apply andb_false_iff in H; destruct H
         | H : (_ <=? _)%N = true |- _ => apply N.leb_le in H
         | H : (_ <=? _)%N = false |- _ => apply N.leb_gt in H
         | H : (_ <? _)%N = true |- _ => apply N.ltb_lt in H
         | H : (_ <? _)%N = false |- _ => apply N.ltb_ge in H
         | H : (_ =? _)%N = true |- _ => apply N.eqb_eq in H
         | H : (_ =? _)%N = false |- _ => apply N.eqb_neq in H
         | H : negb _ = true |- _ => apply negb_true_iff in H
         end.

Ltac test_is v :=
  match goal with
  | |- ?b = v =>
      destruct b eqn:?; [|]; try reflexivity; exfalso; tests_to_props;
      zify; Z.to_euclidean_division_equations; lia
  end.

Ltac settle_tests :=
  repeat match goal with
         | |- context [if ?b then _ else _] =>
             first [ replace b with true by (symmetry; test_is true)
                   | replace b with false by (symmetry; test_is false) ]
         end.

Lemma utf8_bytes (cp : N) :
  (cp < 1114112)%N -> Forall (fun n => (n < 256)%N) (Utf16.utf8 cp).
Proof.
  intros Hcp. unfold Utf16.utf8.
  destruct (cp <? 128)%N eqn:H1; [|destruct (cp <? 2048)%N eqn:H2;
    [|destruct (cp <? 65536)%N eqn:H3]];
    tests_to_props; repeat constructor;
    zify; Z.to_euclidean_division_equations; lia.
Qed.

Lemma decode_utf8 (cp : N) (bs : list N) :
  (cp < 1114112)%N -> ~ (55296 <= cp <= 57343)%N ->
  Utf16.decode (Utf16.utf8 cp ++ bs) = (Utf16.units cp ++ Utf16.decode bs)%list.
Proof.
  intros Hcp Hscalar. unfold Utf16.utf8, Utf16.units.
  destruct (cp <? 128)%N eqn:H1; [|destruct (cp <? 2048)%N eqn:H2;
    [|destruct (cp <? 65536)%N eqn:H3]]; tests_to_props.
  - replace (cp <? 65536)%N with true by (symmetry; test_is true).
    cbn [app Utf16.decode]. settle_tests. reflexivity.
  - replace (cp <? 65536)%N with true by (symmetry; test_is true).
    cbn [app Utf16.decode]. settle_tests. cbn [app]. f_equal.
    zify; Z.to_euclidean_division_equations; lia.
  - cbn [app Utf16.decode]. settle_tests.
    repeat match goal with
           | |- context [(?a =? ?b)%N] => destruct (a =? b)%N eqn:?
           end; tests_to_props;
      first [ exfalso; zify; Z.to_euclidean_division_equations; lia
            | settle_tests; cbn [app]; f_equal;
              zify; Z.to_euclidean_division_equations; lia ].
  - cbn [app Utf16.decode]. settle_tests.
    replace ((240 + cp / 262144 - 240) * 262144 + (128 + (cp / 4096) mod 64 - 128) * 4096
             + (128 + (cp / 64) mod 64 - 128) * 64 + (128 + cp mod 64 - 128))%N
      with cp by (zify; Z.to_euclidean_division_equations; lia).
    unfold Utf16.units.
    repeat match goal with
           | |- context [(?a =? ?b)%N] => destruct (a =? b)%N eqn:?
           end; tests_to_props;
      first [ exfalso; zify; Z.to_euclidean_division_equations; lia
            | settle_tests; reflexivity ].
Qed.

Lemma units_pair (u v : N) :
  Utf16.is_high u = true -> Utf16.is_low v = true ->
  Utf16.units (65536 + (u - 55296) * 1024 + (v - 56320)) = [u; v].
Proof.
  intros Hu Hv. unfold Utf16.units. tests_to_props. settle_tests.
  f_equal; [|f_equal]; zify; Z.to_euclidean_division_equations; lia.
Qed.

Lemma encode_round_trip (n : nat) (s : Utf16.t) :
  length s <= n -> Utf16.well_formed s = true ->
  Forall (fun b => (b < 256)%N) (Utf16.encode s)
  /\ Utf16.decode (Utf16.encode s) = s.
Proof.
  revert s. induction n as [|n IH]; intros s Hlen Hwf.
  - destruct s; [split; [constructor | reflexivity] | cbn in Hlen; lia].
  - destruct s as [|u rest]; [split; [constructor | reflexivity]|].
    cbn [Utf16.well_formed Utf16.encode] in *.
    destruct (Utf16.is_high u) eqn:Hhigh.
    + destruct rest as [|v rest']; [discriminate|].
      apply andb_true_iff in Hwf as [Hlow Hwf]. rewrite Hlow.
      destruct (IH rest') as (Hbytes & Hdecode); [cbn in Hlen; lia | exact Hwf |].
      assert (Hcp : (65536 + (u - 55296) * 1024 + (v - 56320) < 1114112)%N)
        by (tests_to_props; lia).
      split.
      * apply Forall_app. split; [now apply utf8_bytes | exact Hbytes].
      * rewrite decode_utf8; [| exact Hcp | tests_to_props; lia].
        now rewrite units_pair, Hdecode.
    + apply andb_true_iff in Hwf as [Hwf Hrest].
      apply andb_true_iff in Hwf as [Hlow Hu].
      apply negb_true_iff in Hlow. rewrite Hlow.
      destruct (IH rest) as (Hbytes & Hdecode); [cbn in Hlen; lia | exact Hrest |].
      split.
      * apply Forall_app. split; [apply utf8_bytes; tests_to_props; lia | exact Hbytes].
      * rewrite decode_utf8; [| tests_to_props; lia | tests_to_props; lia].
        unfold Utf16.units. rewrite Hu. cbn [app]. now rewrite Hdecode.
Qed.

Lemma utf8_slice_write (s : Utf16.t) :
  Utf16.well_formed s = true -> Utf16.utf8_slice (Utf16.utf8_write s) = s.
Proof.
  intros Hwf. destruct (encode_round_trip (length s) s (le_n _) Hwf) as (Hbytes & Hdecode).
  unfold Utf16.utf8_slice, Utf16.utf8_write. now rewrite to_N_bytes_of_N.
Qed.

(** ** helpers/encryption.js *)

Section EncryptionFacts.
Context `{Crypto}.

Lemma ctr_crypt_involutive (key iv data : list byte) :
  Encryption.ctr_crypt key iv (Encryption.ctr_crypt key iv data) = data.
Proof.
  unfold Encryption.ctr_crypt. rewrite length_xor_bytes.
  apply xor_bytes_involutive.
Qed.

Lemma length_randomBytes (n : nat) (w : World) :
  exists bs, randomBytes n w = (Normal bs, with_random_pos (random_pos w + n) w)
             /\ length bs = n.
Proof.
  eexists. split; [reflexivity|]. now rewrite length_map, length_seq.
Qed.

(** A blob with any number of pieces other than two is refused. *)
Lemma decrypt_malformed (blob : string) (key : jsstring) :
  length (Encryption.split ":" blob) <> 2 -> decrypt_fails blob key.
Proof.
  intros Hlen A callback w. unfold Encryption.decrypt.
  apply Nat.eqb_neq in Hlen. rewrite Hlen. reflexivity.
Qed.

(** The same in terms of the number of delimiters: none, or more than
    one. *)
Lemma decrypt_delimiter_count (blob : string) (key : jsstring) :
  count_sep ":" blob <> 1 -> decrypt_fails blob key.
Proof.
  intros Hcount. apply decrypt_malformed. rewrite length_split. lia.
Qed.

(** Every call of [decrypt] ends in one of the three ways. *)
Lemma decrypt_cases (blob : string) (key : jsstring) :
  decrypt_fails blob key
  \/ (exists e, decrypt_throws blob key e)
  \/ (exists text, decrypts_to blob key text).
Proof.
  destruct (Nat.eq_dec (length (Encryption.split ":" blob)) 2) as [Hlen|Hlen].
  2: { left. now apply decrypt_malformed. }
  right. apply Nat.eqb_eq in Hlen.
  destruct key as [k|].
  2: { left. eexists. intros A callback w. unfold Encryption.decrypt.
       rewrite Hlen. reflexivity. }
  destruct ((length (Base64.decode k) =? 32)%nat
            && (length (Base64.decode (nth 0 (Encryption.split ":" blob) "")) =? 16)%nat)
    eqn:Hinit.
  - right. eexists. intros A callback w. unfold Encryption.decrypt.
    rewrite Hlen. cbn [negb Encryption.Buffer_from_base64].
    unfold Encryption.createDecipheriv, Encryption.createCipheriv.
    unfold mbind, Js_bind, mret, Js_ret. rewrite Hinit. reflexivity.
  - left. eexists. intros A callback w. unfold Encryption.decrypt.
    rewrite Hlen. cbn [negb Encryption.Buffer_from_base64].
    unfold Encryption.createDecipheriv, Encryption.createCipheriv.
    unfold mbind, Js_bind, mret, Js_ret. rewrite Hinit. reflexivity.
Qed.

(** What is decryptable is not the empty string. *)
Lemma decrypts_to_truthy (blob : string) (key : jsstring) (text : string) :
  decrypts_to blob key text -> field_truthy (Text blob) = true.
Proof.
  intros Hdec. destruct blob; [|reflexivity].
  specialize (Hdec _ (fun e v => mret (e, v)) Sample.blank).
  discriminate Hdec.
Qed.

(** [encrypt] either throws, leaving the store alone, or returns a
    non-empty blob after drawing sixteen random bytes. *)
Lemma encrypt_cases (text key : jsstring) (w : World) :
  (exists e w', Encryption.encrypt text key w = (Abrupt e, w')
                /\ unchanged w w')
  \/ (exists blob, Encryption.encrypt text key w
                   = (Normal blob, with_random_pos (random_pos w + 16) w)
                   /\ field_truthy (Text blob) = true).
Proof.
  unfold Encryption.encrypt.
  destruct key as [k|]; [|left; do 2 eexists; split; [reflexivity|split; reflexivity]].
  cbn [Encryption.Buffer_from_base64].
  unfold mbind, Js_bind, mret, Js_ret, Encryption.createCipheriv, randomBytes.
  destruct (_ && _).
  - destruct text as [s|].
    + right. eexists. split; [reflexivity|].
      cbn [field_truthy]. apply negb_true_iff. apply String.eqb_neq.
      destruct (Base64.encode _); discriminate.
    + left. do 2 eexists. split; [reflexivity|split; reflexivity].
  - left. do 2 eexists. split; [reflexivity|split; reflexivity].
Qed.

(** C7. For every key, [decrypt] applied to a string that does not split
    into exactly two [:]-delimited pieces logs the piece count, hands
    the error "Unable to decrypt the given data." to its callback, and
    hands over no plain text. *)
Theorem decrypt_rejects_malformed_blob (blob : string) (key : jsstring) :
  length (Encryption.split ":" blob) <> 2 ->
  forall (A : Type) (callback : option Error -> jsstring -> Js A) (w : World),
    Encryption.decrypt blob key callback w
    = callback (Some format_error) None
        (log (format_error_line (length (Encryption.split ":" blob))) w).
Proof. intros Hlen. exact (decrypt_malformed blob key Hlen). Qed.

(** Encrypting and then decrypting with the same 32-byte key. *)
Lemma encrypt_then_decrypt (s k : string) (w : World) :
  length (Base64.decode k) = 32 ->
  exists blob,
    Encryption.encrypt (Some s) (Some k) w
      = (Normal blob, with_random_pos (random_pos w + 16) w)
    /\ forall (A : Type) (callback : option Error -> jsstring -> Js A) (w' : World),
         Encryption.decrypt blob (Some k) callback w' = callback None (Some s) w'.
Proof.
  intros Hk.
  destruct (length_randomBytes 16 w) as (iv & Hiv & Hlen).
  unfold Encryption.encrypt. cbn [Encryption.Buffer_from_base64].
  unfold mbind, Js_bind, mret, Js_ret. rewrite Hiv.
  unfold Encryption.createCipheriv. rewrite Hk, Hlen. cbn [Nat.eqb andb fst snd].
  eexists. split; [reflexivity|].
  intros A callback w'. unfold Encryption.decrypt.
  rewrite (append_cons ":"%char ""), append_nil_l.
  rewrite split_app by apply encode_no_colon.
  rewrite split_no_sep by apply encode_no_colon.
  cbn [length Nat.eqb negb nth Encryption.Buffer_from_base64].
  rewrite !decode_encode.
  unfold Encryption.createDecipheriv, Encryption.createCipheriv,
    mbind, Js_bind, mret, Js_ret.
  rewrite Hk, Hlen. cbn [Nat.eqb andb fst snd].
  now rewrite ctr_crypt_involutive, string_of_list_byte_of_string.
Qed.

(** The same for a JavaScript string: what comes back is the string
    that the UTF-8 form of the original decodes to. *)
Lemma encrypt_utf16_then_decrypt (s : Utf16.t) (k : string) (w : World) :
  length (Base64.decode k) = 32 ->
  exists blob,
    Encryption.encrypt_utf16 s (Some k) w
      = (Normal blob, with_random_pos (random_pos w + 16) w)
    /\ forall (A : Type) (callback : option Error -> option Utf16.t -> Js A)
         (w' : World),
         Encryption.decrypt_utf16 blob (Some k) callback w'
         = callback None (Some (Utf16.utf8_slice (Utf16.utf8_write s))) w'.
Proof.
  intros Hk. unfold Encryption.encrypt_utf16, Encryption.decrypt_utf16.
  destruct (encrypt_then_decrypt (string_of_list_byte (Utf16.utf8_write s)) k w Hk)
    as (blob & Hrun & Hdec).
  exists blob. split; [exact Hrun|].
  intros A callback w'. rewrite Hdec. cbn [mbind option_bind].
  now rewrite list_byte_of_string_of_list_byte.
Qed.

(** C3, as amended. For every JavaScript string without an unpaired
    surrogate and every key that decodes to 32 bytes, [encrypt] returns
    a blob, and [decrypt] with the same key hands exactly that string
    to its callback, without an error. *)
Theorem decrypt_encrypt_roundtrip (s : Utf16.t) (k : string) (w : World) :
  Utf16.well_formed s = true ->
  length (Base64.decode k) = 32 ->
  exists blob w',
    Encryption.encrypt_utf16 s (Some k) w = (Normal blob, w')
    /\ forall (A : Type) (callback : option Error -> option Utf16.t -> Js A)
         (w0 : World),
         Encryption.decrypt_utf16 blob (Some k) callback w0
         = callback None (Some s) w0.
Proof.
  intros Hwf Hk.
  destruct (encrypt_utf16_then_decrypt s k w Hk) as (blob & Hrun & Hdec).
  exists blob. eexists. split; [exact Hrun|].
  intros A callback w0. now rewrite Hdec, utf8_slice_write.
Qed.

(** A secret that decrypts something is a usable key. *)
Lemma decrypts_to_key (blob : string) (s : jsstring) (text : string) :
  decrypts_to blob s text ->
  exists k, s = Some k /\ length (Base64.decode k) = 32.
Proof.
  intros Hdec. specialize (Hdec _ (fun e v => mret (e, v)) Sample.blank).
  unfold Encryption.decrypt in Hdec.
  destruct (negb _); [discriminate|].
  destruct s as [k|]; [|discriminate]. exists k. split; [reflexivity|].
  cbn [Encryption.Buffer_from_base64] in Hdec.
  unfold Encryption.createDecipheriv, Encryption.createCipheriv in Hdec.
  unfold mbind, Js_bind, mret, Js_ret in Hdec.
  destruct (length (Base64.decode k) =? 32)%nat eqn:Hk; [|discriminate].
  now apply Nat.eqb_eq in Hk.
Qed.

Lemma encrypt_with_key (text k : string) (w : World) :
  length (Base64.decode k) = 32 ->
  exists blob,
    Encryption.encrypt (Some text) (Some k) w
    = (Normal blob, with_random_pos (random_pos w + 16) w)
    /\ field_truthy (Text blob) = true.
Proof.
  intros Hk. destruct (encrypt_then_decrypt text k w Hk) as (blob & Henc & Hdec).
  exists blob. split; [exact Henc|].
  exact (decrypts_to_truthy blob (Some k) text Hdec).
Qed.

End EncryptionFacts.

(** The two malformed blobs of the design document. *)
Example decrypt_no_colon :
  forall (A : Type) (callback : option Error -> jsstring -> Js A) (w : World),
    @Encryption.decrypt Sample.crypto A "no-colon-here" (Some Sample.secret) callback w
    = callback (Some format_error) None (log (format_error_line 1) w).
Proof. intros. reflexivity. Qed.

Example decrypt_two_colons :
  forall (A : Type) (callback : option Error -> jsstring -> Js A) (w : World),
    @Encryption.decrypt Sample.crypto A "a:b:c" (Some Sample.secret) callback w
    = callback (Some format_error) None (log (format_error_line 3) w).
Proof. intros. reflexivity. Qed.

Lemma decrypt_rejects_malformed_blob_witness :
  length (Encryption.split ":" "a:b:c") <> 2
  /\ forall (A : Type) (callback : option Error -> jsstring -> Js A) (w : World),
       @Encryption.decrypt Sample.crypto A "a:b:c" None callback w
       = callback (Some format_error) None
           (log (format_error_line (length (Encryption.split ":" "a:b:c"))) w).
Proof.
  split.
  - cbn. lia.
  - apply (@decrypt_rejects_malformed_blob Sample.crypto "a:b:c" None). cbn. lia.
Defined.

(** C3 fails as stated: the string made of the single unpaired
    surrogate U+D800 is encrypted as the three bytes of U+FFFD, and
    [decrypt] hands the string U+FFFD to its callback. *)
Lemma unpaired_surrogate_not_restored :
  let s : Utf16.t := [55296%N] in
  let k := Sample.secret in
  length (Base64.decode k) = 32
  /\ Utf16.utf8_write s = [xef; xbf; xbd]
  /\ exists blob w',
       @Encryption.encrypt_utf16 Sample.crypto s (Some k) Sample.world
       = (Normal blob, w')
       /\ @Encryption.decrypt_utf16 Sample.crypto _ blob (Some k)
            (fun error decrypted => mret (error, decrypted)) w'
          = (Normal (None, Some [65533%N]), w')
       /\ Some [65533%N] <> Some s.
Proof.
  intros s k. split; [vm_compute; reflexivity|]. split; [reflexivity|].
  destruct (@encrypt_utf16_then_decrypt Sample.crypto s k Sample.world)
    as (blob & Hrun & Hdec); [vm_compute; reflexivity|].
  exists blob. eexists. split; [exact Hrun|]. split; [|discriminate].
  rewrite Hdec. reflexivity.
Qed.

Lemma decrypt_encrypt_roundtrip_witness :
  let s : Utf16.t := [72; 233; 8364; 55357; 56832]%N in
  (Utf16.well_formed s = true /\ length (Base64.decode Sample.secret) = 32)
  /\ exists blob w',
       @Encryption.encrypt_utf16 Sample.crypto s (Some Sample.secret) Sample.world
       = (Normal blob, w')
       /\ forall (A : Type) (callback : option Error -> option Utf16.t -> Js A)
            (w0 : World),
            @Encryption.decrypt_utf16 Sample.crypto A blob (Some Sample.secret)
              callback w0
            = callback None (Some s) w0.
Proof.
  intros s. split; [split; [reflexivity | vm_compute; reflexivity]|].
  apply (@decrypt_encrypt_roundtrip Sample.crypto s Sample.secret Sample.world).
  - reflexivity.
  - vm_compute. reflexivity.
Defined.

(** ** The shared precondition chain *)

Ltac js_unfold :=
  unfold mbind, Js_bind, mret, Js_ret, mthrow, Js_throw, console_error,
    console_log, returnError, returnSuccess, the_record.

Ltac js := repeat (js_unfold; cbn [fst snd present negb andb]).

Lemma getActivatedApiKey_some (k s : jsstring) (w : World) (r : ApiKeyRecord) :
  account k s w = Some r ->
  forall (A : Type) (callback : option Error -> option ApiKeyRecord -> Js A),
    getActivatedApiKey k s callback w = callback None (Some r) w.
Proof.
  unfold account, getActivatedApiKey, getApiKeyByValue, isAlreadyActivated.
  intros Hacc A callback.
  destruct (truthy k); [|discriminate]. destruct (truthy s); [|discriminate].
  cbn [andb negb] in *.
  destruct (read_fault w); [discriminate|].
  destruct (table w !! to_String k) as [r'|]; [|discriminate].
  destruct (activated r'); [|discriminate].
  now inversion Hacc.
Qed.

Lemma getActivatedApiKey_none (k s : jsstring) (w : World) :
  account k s w = None ->
  exists e, forall (A : Type) (callback : option Error -> option ApiKeyRecord -> Js A),
    getActivatedApiKey k s callback w = callback (Some e) None w.
Proof.
  unfold account, getActivatedApiKey, getApiKeyByValue, isAlreadyActivated.
  intros Hacc.
  destruct (truthy k); [|eexists; reflexivity].
  destruct (truthy s); [|eexists; reflexivity].
  cbn [andb negb] in *.
  destruct (read_fault w); [eexists; reflexivity|].
  destruct (table w !! to_String k) as [r'|]; [|eexists; reflexivity].
  destruct (activated r'); [discriminate|eexists; reflexivity].
Qed.

(** Case analysis on the account that [getActivatedApiKey] finds. *)
Ltac account_cases r Hacc :=
  match goal with
  | |- context [getActivatedApiKey ?k ?s _ ?w'] =>
      destruct (account k s w') as [r|] eqn:Hacc;
      [ rewrite (getActivatedApiKey_some k s w' r Hacc)
      | let e := fresh "e" in
        destruct (getActivatedApiKey_none k s w' Hacc) as (e & ->) ]
  end.

Ltac refused_unchanged :=
  split; [do 2 eexists; reflexivity | split; reflexivity].

Section ChainFacts.
Context `{Crypto} `{Speakeasy} `{QrCode} `{U2fLib}.

Lemma createRegistration_throws (k s appId : jsstring) (w : World) :
  U2f.createRegistration k s appId w = (Abrupt (ReferenceError "u2fUuid"), w).
Proof. reflexivity. Qed.

Lemma totp_validate_refused (k s uuid code : jsstring) (w : World) :
  totp_chain k s uuid w = None ->
  refused (Totp.validate (Json:=Json) k s uuid code w).1
  /\ unchanged w (Totp.validate (Json:=Json) k s uuid code w).2.
Proof.
  unfold totp_chain, account, Totp.validate, getApiKeyByValue, isAlreadyActivated.
  intros Hchain.
  destruct (truthy k); js; [|refused_unchanged].
  destruct (truthy s); js; [|refused_unchanged].
  cbn [andb] in Hchain.
  destruct (truthy uuid); js; [|refused_unchanged].
  destruct (truthy code); js; [|refused_unchanged].
  destruct (read_fault w); js; [refused_unchanged|].
  destruct (table w !! to_String k) as [r|]; js; [|refused_unchanged].
  destruct (activated r); js; [|refused_unchanged].
  destruct (Totp.totp_entry r uuid); [discriminate|]. js. refused_unchanged.
Qed.

End ChainFacts.

(** ** models/totp.js *)

Lemma logged_refl (w : World) : logged w w.
Proof. exists []. destruct w. unfold with_console. cbn. now rewrite app_nil_r. Qed.

Lemma logged_log (w w' : World) (line : string) :
  logged w w' -> logged w (log line w').
Proof.
  intros (lines & ->). exists (lines ++ [line])%list.
  unfold log, with_console. cbn. now rewrite app_assoc.
Qed.

Lemma logged_unchanged (w w' : World) : logged w w' -> unchanged w w'.
Proof. intros (lines & ->). split; reflexivity. Qed.

Ltac decrypt_cases_in_goal Hd text :=
  match goal with
  | |- context [Encryption.decrypt ?blob ?key _ _] =>
      let e := fresh "e" in
      destruct (decrypt_cases blob key) as [Hd | [(e & Hd) | (text & Hd)]];
      rewrite ?Hd
  end.

Section TotpFacts.
Context `{Crypto} `{Speakeasy} {Json : Type}.

Lemma validate_logged (k s uuid code : jsstring) (w : World) :
  logged w (Totp.validate (Json:=Json) k s uuid code w).2.
Proof.
  unfold Totp.validate, getApiKeyByValue, isAlreadyActivated.
  destruct (truthy k); js; [|apply logged_log, logged_refl].
  destruct (truthy s); js; [|apply logged_log, logged_refl].
  destruct (truthy uuid); js; [|apply logged_log, logged_refl].
  destruct (truthy code); js; [|apply logged_refl].
  destruct (read_fault w); js; [apply logged_log, logged_refl|].
  destruct (table w !! to_String k) as [r|]; js; [|apply logged_log, logged_refl].
  destruct (activated r); js; [|apply logged_log, logged_refl].
  destruct (Totp.totp_entry r uuid) as [entry|]; js; [|apply logged_log, logged_refl].
  destruct (field_truthy (encryptedTotpKey entry)); js; [|apply logged_log, logged_refl].
  decrypt_cases_in_goal Hd text; js.
  - apply logged_log, logged_log, logged_refl.
  - apply logged_refl.
  - unfold Totp.totp_verify. js. destruct (existsb _ _); js; apply logged_log, logged_refl.
Qed.

Lemma validate_response_ext (k s uuid code : jsstring) (w1 w2 : World) :
  table w1 = table w2 -> read_fault w1 = read_fault w2 ->
  Totp.counter w1 = Totp.counter w2 ->
  (Totp.validate (Json:=Json) k s uuid code w1).1
  = (Totp.validate (Json:=Json) k s uuid code w2).1.
Proof.
  intros Ht Hr Hc.
  unfold Totp.validate, getApiKeyByValue, isAlreadyActivated.
  destruct (truthy k); js; [|reflexivity].
  destruct (truthy s); js; [|reflexivity].
  destruct (truthy uuid); js; [|reflexivity].
  destruct (truthy code); js; [|reflexivity].
  rewrite <- Ht, <- Hr.
  destruct (read_fault w1); js; [reflexivity|].
  destruct (table w1 !! to_String k) as [r|]; js; [|reflexivity].
  destruct (activated r); js; [|reflexivity].
  destruct (Totp.totp_entry r uuid) as [entry|]; js; [|reflexivity].
  destruct (field_truthy (encryptedTotpKey entry)); js; [|reflexivity].
  decrypt_cases_in_goal Hd text; js; try reflexivity.
  unfold Totp.totp_verify, Totp.candidates. js. rewrite <- Hc.
  destruct (existsb _ _); js; reflexivity.
Qed.

Lemma candidates_window_1 (seed : string) (w : World) :
  Totp.candidates seed 1 w
  = [hotp seed (Totp.counter w - 1); hotp seed (Totp.counter w);
     hotp seed (Totp.counter w + 1)].
Proof.
  unfold Totp.candidates, seqZ.
  change (Z.to_nat (2 * 1 + 1)) with 3%nat.
  cbn [seq fmap list_fmap map].
  generalize (Totp.counter w). intros c.
  replace (Z.of_nat 0 + (c - 1))%Z with (c - 1)%Z by lia.
  replace (Z.of_nat 1 + (c - 1))%Z with c by lia.
  replace (Z.of_nat 2 + (c - 1))%Z with (c + 1)%Z by lia.
  reflexivity.
Qed.

Lemma validate_run (k s uuid code : jsstring) (w : World)
    (r : ApiKeyRecord) (entry : TotpEntry) (blob seed : string) :
  totp_chain k s uuid w = Some (r, entry) ->
  truthy code = true ->
  encryptedTotpKey entry = Text blob ->
  decrypts_to blob s seed ->
  Totp.validate (Json:=Json) k s uuid code w
  = if existsb (String.eqb (to_String code)) (Totp.candidates seed 1 w)
    then (Normal (Success (Message "Valid" 200)), log "Valid TOTP code." w)
    else (Normal (Failure 401 "Invalid"), log "Invalid TOTP code." w).
Proof.
  unfold totp_chain, account, Totp.validate, getApiKeyByValue, isAlreadyActivated.
  intros Hchain Hcode Hblob Hdec.
  destruct (truthy k); [|discriminate]. destruct (truthy s); [|discriminate].
  cbn [andb] in Hchain.
  destruct (read_fault w) eqn:Hread; [discriminate|].
  destruct (table w !! to_String k) as [r'|] eqn:Hrec; [|discriminate].
  destruct (activated r') eqn:Hact; [|discriminate].
  destruct (truthy uuid); [|discriminate]. rewrite Hcode. js.
  rewrite Hread, Hrec, Hact. js.
  destruct (Totp.totp_entry r' uuid) as [entry'|]; [|discriminate].
  injection Hchain as -> ->. js.
  rewrite Hblob, (decrypts_to_truthy blob s seed Hdec). js.
  cbn [field_text]. rewrite Hdec. js.
  unfold Totp.totp_verify. js.
  destruct (existsb _ _); reflexivity.
Qed.


(** C4. When the precondition chain holds, the code is non-empty and
    the stored seed decrypts, [validate] answers Valid exactly when the
    submitted code equals the candidate code of the previous, the
    current or the next 30-second time step of the clock, the current
    step being the clock's milliseconds divided by 1000 and by 30;
    otherwise it answers Invalid (status 401). *)
Theorem validate_valid_iff_candidate (k s uuid code : jsstring) (w : World)
    (r : ApiKeyRecord) (entry : TotpEntry) (blob seed : string) :
  totp_chain k s uuid w = Some (r, entry) ->
  truthy code = true ->
  encryptedTotpKey entry = Text blob ->
  decrypts_to blob s seed ->
  let step := (clock w / 1000 / 30)%Z in
  let response := (Totp.validate (Json:=Json) k s uuid code w).1 in
  (response = Normal (Success (Message "Valid" 200))
   <-> (to_String code = hotp seed (step - 1)
        \/ to_String code = hotp seed step
        \/ to_String code = hotp seed (step + 1)))
  /\ (response = Normal (Success (Message "Valid" 200))
      \/ response = Normal (Failure 401 "Invalid")).
Proof.
  intros Hchain Hcode Hblob Hdec step response. subst response.
  rewrite (validate_run k s uuid code w r entry blob seed Hchain Hcode Hblob Hdec).
  rewrite candidates_window_1. unfold Totp.counter. fold step. cbn [existsb].
  rewrite orb_false_r.
  destruct (String.eqb_spec (to_String code) (hotp seed (step - 1))) as [E1|N1];
  destruct (String.eqb_spec (to_String code) (hotp seed step)) as [E2|N2];
  destruct (String.eqb_spec (to_String code) (hotp seed (step + 1))) as [E3|N3];
  cbn [orb fst];
  first
    [ split; [split; [intros _; tauto | intros _; reflexivity] | left; reflexivity]
    | split; [split; [discriminate | intros [?|[?|?]]; contradiction]
             | right; reflexivity] ].
Qed.

(** C9. [validate] never mutates stored state: whatever its outcome,
    the store's content is the same afterwards and no record was handed
    to [updateApiKeyRecord]; and a repeated call at any time of the same
    30-second step gives the same answer, so a valid code stays valid. *)
Theorem validate_never_mutates (k s uuid code : jsstring) (w : World) :
  let w' := (Totp.validate (Json:=Json) k s uuid code w).2 in
  unchanged w w'
  /\ forall t : Z,
       Totp.counter (with_clock t w') = Totp.counter w ->
       (Totp.validate (Json:=Json) k s uuid code (with_clock t w')).1
       = (Totp.validate (Json:=Json) k s uuid code w).1.
Proof.
  intros w'. pose proof (validate_logged k s uuid code w) as Hlog.
  fold w' in Hlog. split; [now apply logged_unchanged|].
  intros t Hstep. destruct Hlog as (lines & Hw').
  apply validate_response_ext; [now rewrite Hw' | now rewrite Hw' | exact Hstep].
Qed.

End TotpFacts.

(** ** models/u2f.js *)

Lemma u2f_chain_some (k s uuid : jsstring) (w : World) (r : ApiKeyRecord)
    (entry : U2fEntry) :
  u2f_chain k s uuid w = Some (r, entry) ->
  account k s w = Some r /\ truthy uuid = true /\ U2f.u2f_entry r uuid = Some entry.
Proof.
  unfold u2f_chain. intros Hchain.
  destruct (account k s w) as [r'|]; [|discriminate].
  destruct (truthy uuid); [|discriminate].
  destruct (U2f.u2f_entry r' uuid) as [entry'|] eqn:Hentry; [|discriminate].
  injection Hchain as <- <-. auto.
Qed.

(** Running an operation up to the credential it was called for. *)
Ltac enter_u2f Hchain :=
  let Hacc := fresh "Hacc" in
  let Huuid := fresh "Huuid" in
  let Hentry := fresh "Hentry" in
  destruct (u2f_chain_some _ _ _ _ _ _ Hchain) as (Hacc & Huuid & Hentry);
  js;
  match goal with
  | |- context [getActivatedApiKey ?k ?s _ ?w'] =>
      rewrite (getActivatedApiKey_some k s w' _ Hacc)
  end;
  js; rewrite Huuid; js; rewrite Hentry; js.

(** ** The phase invariant of U2F credentials *)

Lemma account_in_table (k s : jsstring) (w : World) (r : ApiKeyRecord) :
  account k s w = Some r -> table w !! to_String k = Some r.
Proof.
  unfold account. intros Hacc.
  destruct (truthy k && truthy s); [|discriminate].
  destruct (read_fault w); [discriminate|].
  destruct (table w !! to_String k) as [r'|]; [|discriminate].
  destruct (activated r'); [|discriminate]. exact Hacc.
Qed.

Lemma store_invariant_record (w : World) (k : string) (r : ApiKeyRecord) :
  store_invariant w -> table w !! k = Some r -> record_invariant r.
Proof. intros Hinv Hrec m uuid e Hm He. exact (Hinv k r m uuid e Hrec Hm He). Qed.

Lemma store_invariant_insert (w w' : World) (id : string) (r' : ApiKeyRecord) :
  store_invariant w -> record_invariant r' ->
  table w' = <[id := r']> (table w) ->
  store_invariant w'.
Proof.
  intros Hinv Hrec Htable k r m uuid e Hk Hm He. rewrite Htable in Hk.
  destruct (decide (id = k)) as [->|Hne].
  - rewrite lookup_insert_eq in Hk. injection Hk as <-. exact (Hrec m uuid e Hm He).
  - rewrite lookup_insert_ne in Hk by exact Hne. exact (Hinv k r m uuid e Hk Hm He).
Qed.

Lemma store_invariant_same_table (w w' : World) :
  table w' = table w -> store_invariant w -> store_invariant w'.
Proof. intros Htable Hinv k r m uuid e Hk. rewrite Htable in Hk. eauto. Qed.

Lemma record_invariant_set_entry (uuid : jsstring) (e' : U2fEntry) (r : ApiKeyRecord) :
  record_invariant r -> entry_invariant e' ->
  record_invariant (U2f.set_u2f_entry uuid e' r).
Proof.
  intros Hrec He' m u e Hm He.
  unfold U2f.set_u2f_entry, U2f.set_u2f in Hm. cbn [u2f] in Hm.
  injection Hm as <-.
  destruct (decide (u = to_String uuid)) as [->|Hne].
  - rewrite lookup_insert_eq in He. now injection He as <-.
  - rewrite lookup_insert_ne in He by congruence.
    destruct (u2f r) as [m0|] eqn:Hm0; cbn [default] in He.
    + exact (Hrec m0 u e Hm0 He).
    + rewrite lookup_empty in He. discriminate.
Qed.

Lemma record_invariant_delete (uuid : jsstring) (r : ApiKeyRecord) :
  record_invariant r -> record_invariant (U2f.delete_u2f_entry uuid r).
Proof.
  intros Hrec m u e Hm He.
  unfold U2f.delete_u2f_entry, U2f.set_u2f in Hm. cbn [u2f] in Hm.
  injection Hm as <-.
  destruct (decide (u = to_String uuid)) as [->|Hne].
  - rewrite lookup_delete_eq in He. discriminate.
  - rewrite lookup_delete_ne in He by congruence.
    destruct (u2f r) as [m0|] eqn:Hm0; cbn [default] in He.
    + exact (Hrec m0 u e Hm0 He).
    + rewrite lookup_empty in He. discriminate.
Qed.

Lemma entry_invariant_set_authentication (v : field) (e : U2fEntry) :
  entry_invariant e ->
  entry_invariant (U2f.set_encryptedAuthenticationRequest v e).
Proof. intros He. exact He. Qed.

Lemma u2f_entry_invariant (r : ApiKeyRecord) (uuid : jsstring) (e : U2fEntry) :
  record_invariant r -> U2f.u2f_entry r uuid = Some e -> entry_invariant e.
Proof.
  unfold U2f.u2f_entry. intros Hrec He.
  destruct (u2f r) as [m|] eqn:Hm; [|discriminate].
  cbn [mbind option_bind] in He. exact (Hrec m _ e Hm He).
Qed.

Lemma while_in_use_store (fuel : nat) (in_use : string -> bool) (candidate : string)
    (w : World) :
  table (while_in_use fuel in_use candidate w).2 = table w
  /\ updates (while_in_use fuel in_use candidate w).2 = updates w
  /\ write_fault (while_in_use fuel in_use candidate w).2 = write_fault w.
Proof.
  revert candidate w. induction fuel as [|fuel IH]; intros candidate w.
  - cbn [while_in_use]. destruct (in_use candidate); js; auto.
  - cbn [while_in_use]. destruct (in_use candidate); js; [|auto].
    unfold uuid_v4. cbn [uuids log with_console].
    destruct (uuids w) as [|u rest]; js; [auto|].
    match goal with |- context [while_in_use fuel in_use u ?w1] =>
      destruct (IH u w1) as (Ht & Hu & Hw) end.
    rewrite Ht, Hu, Hw. auto.
Qed.

Section U2fFacts.
Context `{Crypto} `{U2fLib}.

Lemma validateAuthentication_checked (k s uuid signResult : jsstring) (w : World)
    (r : ApiKeyRecord) (entry : U2fEntry) (reqblob reqtext pkblob pktext stext : string)
    (jreq jsig : Json) :
  u2f_chain k s uuid w = Some (r, entry) ->
  encryptedAuthenticationRequest entry = Text reqblob ->
  decrypts_to reqblob s reqtext ->
  encryptedPublicKey entry = Text pkblob ->
  decrypts_to pkblob s pktext ->
  JSON_parse reqtext = Some jreq ->
  signResult = Some stext ->
  JSON_parse stext = Some jsig ->
  let result := u2f_checkSignature jreq jsig (Some pktext) in
  let w1 := log (begin_authentication uuid) w in
  let r' := U2f.set_u2f_entry uuid
              (U2f.set_encryptedAuthenticationRequest (Text " ") entry) r in
  U2f.validateAuthentication k s uuid signResult w
  = if truthy (signature_errorMessage result) then
      (Normal (Failure 400 (to_String (signature_errorMessage result))),
       log ("Error validating U2F authentication. Error: "
            ++ to_String (signature_errorMessage result)) w1)
    else match write_fault w with
         | Some _ =>
             (Normal (Failure 500 "Internal Server Error"),
              log "Unable to unset encryptedAuthenticationRequest after successful authentication"
                (with_store (table w) (r' :: updates w) w1))
         | None =>
             (Normal (Success (Message "Valid" 200)),
              log ("Successfully validated U2F authentication for uuid: "
                   ++ to_String uuid)
                (with_store (<[record_id r := r']> (table w)) (r' :: updates w) w1))
         end.
Proof.
  intros Hchain Hreq Hdreq Hpk Hdpk Hjreq -> Hjsig result w1 r'.
  unfold U2f.validateAuthentication. enter_u2f Hchain.
  rewrite Hreq, (decrypts_to_truthy _ _ _ Hdreq). js.
  cbn [field_text]. rewrite Hdreq. js.
  rewrite Hpk, (decrypts_to_truthy _ _ _ Hdpk). js.
  cbn [field_text]. rewrite Hdpk. js.
  unfold U2f.JSON_parse_or_throw. rewrite Hjreq, Hjsig. js.
  fold result. destruct (truthy (signature_errorMessage result)); js.
  - reflexivity.
  - unfold updateApiKeyRecord. cbn [write_fault log with_console].
    destruct (write_fault w); js; reflexivity.
Qed.


(** The callback of the second [decrypt] never
    looks at its error, so a stored public key that is not an encrypted
    blob reaches [u2f.checkSignature] as [undefined]. *)
Lemma validateAuthentication_publicKey_error_ignored
    (k s uuid signResult : jsstring) (w : World)
    (r : ApiKeyRecord) (entry : U2fEntry) (reqblob reqtext pkblob stext : string)
    (jreq jsig : Json) :
  u2f_chain k s uuid w = Some (r, entry) ->
  encryptedAuthenticationRequest entry = Text reqblob ->
  decrypts_to reqblob s reqtext ->
  encryptedPublicKey entry = Text pkblob ->
  pkblob <> "" ->
  length (Encryption.split ":" pkblob) <> 2 ->
  JSON_parse reqtext = Some jreq ->
  signResult = Some stext ->
  JSON_parse stext = Some jsig ->
  let result := u2f_checkSignature jreq jsig None in
  let w1 := log (format_error_line (length (Encryption.split ":" pkblob)))
              (log (begin_authentication uuid) w) in
  let r' := U2f.set_u2f_entry uuid
              (U2f.set_encryptedAuthenticationRequest (Text " ") entry) r in
  U2f.validateAuthentication k s uuid signResult w
  = if truthy (signature_errorMessage result) then
      (Normal (Failure 400 (to_String (signature_errorMessage result))),
       log ("Error validating U2F authentication. Error: "
            ++ to_String (signature_errorMessage result)) w1)
    else match write_fault w with
         | Some _ =>
             (Normal (Failure 500 "Internal Server Error"),
              log "Unable to unset encryptedAuthenticationRequest after successful authentication"
                (with_store (table w) (r' :: updates w) w1))
         | None =>
             (Normal (Success (Message "Valid" 200)),
              log ("Successfully validated U2F authentication for uuid: "
                   ++ to_String uuid)
                (with_store (<[record_id r := r']> (table w)) (r' :: updates w) w1))
         end.
Proof.
  intros Hchain Hreq Hdreq Hpk Hne Hsplit Hjreq -> Hjsig result w1 r'.
  unfold U2f.validateAuthentication. enter_u2f Hchain.
  rewrite Hreq, (decrypts_to_truthy _ _ _ Hdreq). js.
  cbn [field_text]. rewrite Hdreq. js.
  rewrite Hpk. cbn [field_truthy field_text].
  apply String.eqb_neq in Hne. rewrite Hne. js.
  rewrite (decrypt_malformed pkblob s Hsplit). js.
  unfold U2f.JSON_parse_or_throw. rewrite Hjreq, Hjsig. js.
  fold result. destruct (truthy (signature_errorMessage result)); js.
  - reflexivity.
  - unfold updateApiKeyRecord. cbn [write_fault log with_console].
    destruct (write_fault w); js; reflexivity.
Qed.

(** A request that was overwritten with the marker passes the presence
    test and is refused by [decrypt]. *)
Lemma validateAuthentication_spent (k s uuid signResult : jsstring) (w : World)
    (r : ApiKeyRecord) (entry : U2fEntry) :
  u2f_chain k s uuid w = Some (r, entry) ->
  encryptedAuthenticationRequest entry = Text " " ->
  U2f.validateAuthentication k s uuid signResult w
  = (Normal (Failure 500 "Internal Server Error"),
     log "Error validating authenticationRequest"
       (log (format_error_line 1) (log (begin_authentication uuid) w))).
Proof.
  intros Hchain Hreq.
  unfold U2f.validateAuthentication. enter_u2f Hchain.
  rewrite Hreq. cbn [field_truthy field_text String.eqb Ascii.eqb Bool.eqb]. js.
  rewrite (decrypt_malformed " " s); [|cbn; lia]. js. reflexivity.
Qed.

(** The chain after the record of the account was written back. *)
Lemma u2f_chain_after_update (k s uuid : jsstring) (w w' : World)
    (r : ApiKeyRecord) (entry entry' : U2fEntry) :
  store_keyed w ->
  u2f_chain k s uuid w = Some (r, entry) ->
  table w' = <[record_id r := U2f.set_u2f_entry uuid entry' r]> (table w) ->
  read_fault w' = read_fault w ->
  u2f_chain k s uuid w' = Some (U2f.set_u2f_entry uuid entry' r, entry').
Proof.
  intros Hkeyed Hchain Htable Hread.
  destruct (u2f_chain_some _ _ _ _ _ _ Hchain) as (Hacc & Huuid & Hentry).
  unfold u2f_chain, account in *. rewrite Htable, Hread, Huuid.
  destruct (truthy k && truthy s); [|discriminate].
  destruct (read_fault w); [discriminate|].
  destruct (table w !! to_String k) as [r0|] eqn:Hrec; [|discriminate].
  destruct (activated r0) eqn:Hact; [|discriminate].
  injection Hacc as ->.
  rewrite (Hkeyed _ _ Hrec), lookup_insert_eq.
  cbn [activated U2f.set_u2f_entry U2f.set_u2f]. rewrite Hact.
  unfold U2f.u2f_entry. cbn [u2f U2f.set_u2f_entry U2f.set_u2f mbind option_bind].
  now rewrite lookup_insert_eq.
Qed.


(** Whenever [validateAuthentication] reports success, it found the
    credential and wrote the account back with the request overwritten. *)
Lemma validateAuthentication_success_shape (k s uuid signResult : jsstring)
    (w : World) :
  match U2f.validateAuthentication k s uuid signResult w with
  | (Normal (Success _), w') =>
      exists r entry,
        u2f_chain k s uuid w = Some (r, entry)
        /\ table w' = <[record_id r :=
                          U2f.set_u2f_entry uuid
                            (U2f.set_encryptedAuthenticationRequest (Text " ") entry) r]>
                        (table w)
        /\ read_fault w' = read_fault w
  | _ => True
  end.
Proof.
  unfold U2f.validateAuthentication. js.
  account_cases r Hacc; js; [|exact I].
  change (account k s w = Some r) in Hacc.
  destruct (truthy uuid) eqn:Huuid; js; [|exact I].
  destruct (U2f.u2f_entry r uuid) as [entry|] eqn:Hentry; js; [|exact I].
  destruct (field_truthy (encryptedAuthenticationRequest entry)); js; [|exact I].
  decrypt_cases_in_goal Hd text; js; try exact I.
  destruct (field_truthy (encryptedPublicKey entry)); js; [|exact I].
  decrypt_cases_in_goal Hd' text'; js; try exact I.
  - unfold U2f.JSON_parse_or_throw.
    destruct (JSON_parse text) as [jreq|]; js; [|exact I].
    destruct signResult as [stext|]; js; [|exact I].
    destruct (JSON_parse stext) as [jsig|]; js; [|exact I].
    destruct (truthy (signature_errorMessage _)); js; [exact I|].
    unfold updateApiKeyRecord. cbn [write_fault log with_console].
    destruct (write_fault w); js; [exact I|].
    exists r, entry. unfold u2f_chain. rewrite Hacc, Huuid, Hentry. auto.
  - unfold U2f.JSON_parse_or_throw.
    destruct (JSON_parse text) as [jreq|]; js; [|exact I].
    destruct signResult as [stext|]; js; [|exact I].
    destruct (JSON_parse stext) as [jsig|]; js; [|exact I].
    destruct (truthy (signature_errorMessage _)); js; [exact I|].
    unfold updateApiKeyRecord. cbn [write_fault log with_console].
    destruct (write_fault w); js; [exact I|].
    exists r, entry. unfold u2f_chain. rewrite Hacc, Huuid, Hentry. auto.
Qed.


(** When [u2f.checkRegistration] reports an error
    message, the caller receives status 500 with the fixed text
    "Internal Server Error"; the message goes to the console only. *)
Lemma validateRegistration_rejected (k s uuid : jsstring) (signResult : option Json)
    (w : World) (r : ApiKeyRecord) (entry : U2fEntry) (blob text : string)
    (jreq : Json) :
  u2f_chain k s uuid w = Some (r, entry) ->
  encryptedRegistrationRequest entry = Text blob ->
  decrypts_to blob s text ->
  JSON_parse text = Some jreq ->
  truthy (registration_errorMessage (u2f_checkRegistration jreq signResult)) = true ->
  U2f.validateRegistration k s uuid signResult w
  = (Normal (Failure 500 "Internal Server Error"),
     log ("U2F check registration failed. Error: "
          ++ to_String (registration_errorMessage
                          (u2f_checkRegistration jreq signResult)))
       (log (begin_registration uuid) w)).
Proof.
  intros Hchain Hreq Hdec Hjreq Herr.
  unfold U2f.validateRegistration. enter_u2f Hchain.
  rewrite Hreq, (decrypts_to_truthy _ _ _ Hdec). js.
  cbn [field_text]. rewrite Hdec. js.
  unfold U2f.JSON_parse_or_throw. rewrite Hjreq. js.
  rewrite Herr. js. reflexivity.
Qed.

(** After a successful [validateRegistration] the credential is
    registered and no longer pending. *)
Lemma validateRegistration_registers (k s uuid : jsstring) (signResult : option Json)
    (w : World) (r : ApiKeyRecord) (entry : U2fEntry) (blob text pk kh : string)
    (jreq : Json) :
  u2f_chain k s uuid w = Some (r, entry) ->
  encryptedRegistrationRequest entry = Text blob ->
  decrypts_to blob s text ->
  JSON_parse text = Some jreq ->
  u2f_checkRegistration jreq signResult = mkRegistrationResult None (Some pk) (Some kh) ->
  write_fault w = None ->
  exists entry' w',
    U2f.validateRegistration k s uuid signResult w = (Normal (Success NoBody), w')
    /\ table w' = <[record_id r := U2f.set_u2f_entry uuid entry' r]> (table w)
    /\ read_fault w' = read_fault w
    /\ encryptedRegistrationRequest entry' = Null
    /\ pending entry' = false /\ registered entry' = true.
Proof.
  intros Hchain Hreq Hdec Hjreq Hcheck Hwrite.
  destruct (decrypts_to_key _ _ _ Hdec) as (key & -> & Hkey).
  unfold U2f.validateRegistration. enter_u2f Hchain.
  rewrite Hreq, (decrypts_to_truthy _ _ _ Hdec). js.
  cbn [field_text]. rewrite Hdec. js.
  unfold U2f.JSON_parse_or_throw. rewrite Hjreq. js.
  rewrite Hcheck. cbn [registration_errorMessage truthy publicKey keyHandle]. js.
  match goal with |- context [Encryption.encrypt (Some pk) (Some key) ?w1] =>
    destruct (encrypt_with_key pk key w1 Hkey) as (b1 & -> & Hb1) end.
  js.
  match goal with |- context [Encryption.encrypt (Some kh) (Some key) ?w1] =>
    destruct (encrypt_with_key kh key w1 Hkey) as (b2 & -> & Hb2) end.
  js. unfold updateApiKeyRecord. cbn [write_fault log with_console with_random_pos].
  rewrite Hwrite. js.
  do 2 eexists. split; [reflexivity|].
  cbn [table log with_console with_store read_fault].
  split; [reflexivity|]. split; [reflexivity|]. split; [reflexivity|].
  unfold pending, registered.
  cbn [encryptedRegistrationRequest encryptedPublicKey encryptedKeyHandle
       U2f.set_encryptedKeyHandle U2f.set_encryptedPublicKey
       U2f.set_encryptedRegistrationRequest].
  now rewrite Hb1, Hb2.
Qed.

(** A credential without a pending registration request is refused. *)
Lemma validateRegistration_not_pending (k s uuid : jsstring)
    (signResult : option Json) (w : World) (r : ApiKeyRecord) (entry : U2fEntry) :
  u2f_chain k s uuid w = Some (r, entry) ->
  pending entry = false ->
  U2f.validateRegistration k s uuid signResult w
  = (Normal (Failure 500 "Internal Server Error"),
     log "No encryptedRegistrationRequest found in that U2F record."
       (log (begin_registration uuid) w)).
Proof.
  intros Hchain Hpending.
  unfold U2f.validateRegistration. enter_u2f Hchain.
  unfold pending in Hpending. rewrite Hpending. js. reflexivity.
Qed.


Ltac encrypt_cases_in_goal blob Hblob :=
  match goal with
  | |- context [Encryption.encrypt ?text ?key ?w1] =>
      let e := fresh "e" in
      let w' := fresh "w'" in
      let Hw' := fresh "Hw'" in
      destruct (encrypt_cases text key w1) as [(e & w' & -> & Hw' & _) | (blob & -> & Hblob)]
  end.

Lemma validateAuthentication_invariant (k s uuid signResult : jsstring) (w : World) :
  store_invariant w ->
  store_invariant (U2f.validateAuthentication k s uuid signResult w).2.
Proof.
  intros Hinv. unfold U2f.validateAuthentication. js.
  account_cases r Hacc; js; [|exact Hinv].
  change (account k s w = Some r) in Hacc.
  pose proof (store_invariant_record _ _ _ Hinv (account_in_table _ _ _ _ Hacc)) as Hrec.
  destruct (truthy uuid) eqn:Huuid; js; [|exact Hinv].
  destruct (U2f.u2f_entry r uuid) as [entry|] eqn:Hentry; js; [|exact Hinv].
  pose proof (u2f_entry_invariant _ _ _ Hrec Hentry) as He.
  destruct (field_truthy (encryptedAuthenticationRequest entry)); js; [|exact Hinv].
  decrypt_cases_in_goal Hd text; js; try exact Hinv.
  destruct (field_truthy (encryptedPublicKey entry)); js; [|exact Hinv].
  decrypt_cases_in_goal Hd' text'; js; try exact Hinv.
  all: unfold U2f.JSON_parse_or_throw.
  all: destruct (JSON_parse text) as [jreq|]; js; [|exact Hinv].
  all: destruct signResult as [stext|]; js; [|exact Hinv].
  all: destruct (JSON_parse stext) as [jsig|]; js; [|exact Hinv].
  all: destruct (truthy (signature_errorMessage _)); js; [exact Hinv|].
  all: unfold updateApiKeyRecord; cbn [write_fault log with_console].
  all: destruct (write_fault w); js; [exact Hinv|].
  all: apply (store_invariant_insert w _ (record_id r)
                (U2f.set_u2f_entry uuid
                   (U2f.set_encryptedAuthenticationRequest (Text " ") entry) r));
    [exact Hinv | now apply record_invariant_set_entry | reflexivity].
Qed.

Lemma delete_invariant (k s uuid : jsstring) (w : World) :
  store_invariant w -> store_invariant (U2f.delete k s uuid w).2.
Proof.
  intros Hinv. unfold U2f.delete. js.
  account_cases r Hacc; js; [|exact Hinv].
  change (account k s w = Some r) in Hacc.
  pose proof (store_invariant_record _ _ _ Hinv (account_in_table _ _ _ _ Hacc)) as Hrec.
  destruct (truthy uuid) eqn:Huuid; js; [|exact Hinv].
  destruct (U2f.u2f_entry r uuid) as [entry|] eqn:Hentry; js; [|exact Hinv].
  unfold updateApiKeyRecord; cbn [write_fault log with_console].
  destruct (write_fault w); js; [exact Hinv|].
  apply (store_invariant_insert w _ (record_id r) (U2f.delete_u2f_entry uuid r));
    [exact Hinv | now apply record_invariant_delete | reflexivity].
Qed.

Lemma createAuthentication_invariant (k s uuid : jsstring) (w : World) :
  store_invariant w -> store_invariant (U2f.createAuthentication k s uuid w).2.
Proof.
  intros Hinv. unfold U2f.createAuthentication. js.
  account_cases r Hacc; js; [|exact Hinv].
  change (account k s w = Some r) in Hacc.
  pose proof (store_invariant_record _ _ _ Hinv (account_in_table _ _ _ _ Hacc)) as Hrec.
  destruct (truthy uuid) eqn:Huuid; js; [|exact Hinv].
  destruct (U2f.u2f_entry r uuid) as [entry|] eqn:Hentry; js; [|exact Hinv].
  pose proof (u2f_entry_invariant _ _ _ Hrec Hentry) as He.
  destruct (field_truthy (encryptedAppId entry)); js; [|exact Hinv].
  decrypt_cases_in_goal Hd text; js; try exact Hinv.
  destruct (field_truthy (encryptedKeyHandle entry)); js; [|exact Hinv].
  decrypt_cases_in_goal Hd' text'; js; try exact Hinv.
  unfold U2f.request, randomBytes. js.
  encrypt_cases_in_goal blob Hblob; js.
  - apply (store_invariant_same_table w); [exact Hw'|exact Hinv].
  - unfold updateApiKeyRecord; cbn [write_fault log with_console with_random_pos].
    destruct (write_fault w); js; [exact Hinv|].
    apply (store_invariant_insert w _ (record_id r)
             (U2f.set_u2f_entry uuid
                (U2f.set_encryptedAuthenticationRequest (Text blob) entry) r));
      [exact Hinv | now apply record_invariant_set_entry | reflexivity].
Qed.

Lemma validateRegistration_invariant (k s uuid : jsstring) (signResult : option Json)
    (w : World) :
  store_invariant w ->
  store_invariant (U2f.validateRegistration k s uuid signResult w).2.
Proof.
  intros Hinv. unfold U2f.validateRegistration. js.
  account_cases r Hacc; js; [|exact Hinv].
  change (account k s w = Some r) in Hacc.
  pose proof (store_invariant_record _ _ _ Hinv (account_in_table _ _ _ _ Hacc)) as Hrec.
  destruct (truthy uuid) eqn:Huuid; js; [|exact Hinv].
  destruct (U2f.u2f_entry r uuid) as [entry|] eqn:Hentry; js; [|exact Hinv].
  destruct (field_truthy (encryptedRegistrationRequest entry)); js; [|exact Hinv].
  decrypt_cases_in_goal Hd text; js; try exact Hinv.
  unfold U2f.JSON_parse_or_throw.
  destruct (JSON_parse text) as [jreq|]; js; [|exact Hinv].
  destruct (truthy (registration_errorMessage _)); js; [exact Hinv|].
  encrypt_cases_in_goal b1 Hb1; js.
  { apply (store_invariant_same_table w); [exact Hw'|exact Hinv]. }
  encrypt_cases_in_goal b2 Hb2; js.
  { apply (store_invariant_same_table w); [exact Hw'|exact Hinv]. }
  unfold updateApiKeyRecord; cbn [write_fault log with_console with_random_pos].
  destruct (write_fault w); js; [exact Hinv|].
  eapply (store_invariant_insert w _ (record_id r)); [exact Hinv | | reflexivity].
  apply record_invariant_set_entry; [exact Hrec|].
  unfold entry_invariant, pending, registered.
  cbn [encryptedRegistrationRequest encryptedPublicKey encryptedKeyHandle
       U2f.set_encryptedKeyHandle U2f.set_encryptedPublicKey
       U2f.set_encryptedRegistrationRequest].
  now rewrite Hb1, Hb2.
Qed.

Lemma createRegistration_callback_invariant (k s appId : jsstring) (w : World) :
  store_invariant w ->
  store_invariant
    (getActivatedApiKey k s (U2f.createRegistration_callback s appId) w).2.
Proof.
  intros Hinv. unfold U2f.createRegistration_callback.
  account_cases r Hacc; js; [|exact Hinv].
  pose proof (store_invariant_record _ _ _ Hinv (account_in_table _ _ _ _ Hacc)) as Hrec.
  unfold U2f.request, randomBytes, uuid_v4. js.
  cbn [uuids with_random_pos].
  destruct (uuids w) as [|u rest]; js; [exact Hinv|].
  match goal with |- context [while_in_use ?f ?p u ?w1] =>
    destruct (while_in_use_store f p u w1) as (Ht & Hu & Hw);
    destruct (while_in_use f p u w1) as [[u'|e] w2]
  end; js.
  2: { apply (store_invariant_same_table w); [exact Ht|exact Hinv]. }
  cbn [fst snd] in Ht, Hu, Hw.
  encrypt_cases_in_goal b1 Hb1; js.
  { apply (store_invariant_same_table w); [|exact Hinv].
    etransitivity; [exact Hw'|exact Ht]. }
  encrypt_cases_in_goal b2 Hb2; js.
  { apply (store_invariant_same_table w); [|exact Hinv].
    etransitivity; [exact Hw'|exact Ht]. }
  unfold updateApiKeyRecord; cbn [write_fault log with_console with_random_pos].
  destruct (write_fault w2); js.
  - apply (store_invariant_same_table w); [exact Ht|exact Hinv].
  - eapply (store_invariant_insert w _ (record_id r)); [exact Hinv | | ].
    2: { cbn [table log with_store with_console with_random_pos]. rewrite Ht. reflexivity. }
    apply (record_invariant_set_entry (Some u')); [exact Hrec|].
    unfold entry_invariant, pending, registered.
    cbn [encryptedRegistrationRequest encryptedPublicKey encryptedKeyHandle field_truthy].
    cbn [field_truthy] in Hb2. now rewrite Hb2.
Qed.


End U2fFacts.

(** ** The claims about the U2F manager and the precondition chain *)

Section U2fClaims.
Context `{Crypto} `{Speakeasy} `{QrCode} `{U2fLib}.

(** What the callback of [createRegistration] does once it is reached
    with an activated account, a usable secret and a free first UUID:
    it stores a credential with a registration request and no public
    key. *)
Lemma createRegistration_callback_creates (k s appId : jsstring) (w : World)
    (r : ApiKeyRecord) (key a u : string) (rest : list string) :
  account k s w = Some r ->
  s = Some key -> length (Base64.decode key) = 32 ->
  appId = Some a ->
  uuids w = u :: rest ->
  default ∅ (u2f r) !! u = None ->
  write_fault w = None ->
  exists entry w' challenge,
    getActivatedApiKey k s (U2f.createRegistration_callback s appId) w
    = (Normal (Success (U2fRegistrationCreated u challenge)), w')
    /\ table w' = <[record_id r := U2f.set_u2f_entry (Some u) entry r]> (table w)
    /\ pending entry = true
    /\ encryptedPublicKey entry = Undefined
    /\ registered entry = false.
Proof.
  intros Hacc -> Hkey -> Huuids Hfree Hwrite.
  rewrite (getActivatedApiKey_some k (Some key) w r Hacc).
  unfold U2f.createRegistration_callback. js.
  unfold U2f.request, randomBytes, uuid_v4. js.
  cbn [uuids with_random_pos]. rewrite Huuids. js.
  cbn [uuids with_uuids].
  assert (Hloop : forall w1 : World,
             while_in_use (length rest)
               (fun u0 => present (default ∅ (u2f r) !! u0)) u w1
             = (Normal u, w1)).
  { intros w1. destruct (length rest); cbn [while_in_use]; now rewrite Hfree. }
  rewrite Hloop. js.
  match goal with |- context [Encryption.encrypt (Some a) (Some key) ?w1] =>
    destruct (encrypt_with_key a key w1 Hkey) as (b1 & -> & Hb1) end.
  js.
  match goal with |- context [Encryption.encrypt (Some ?t) (Some key) ?w1] =>
    destruct (encrypt_with_key t key w1 Hkey) as (b2 & -> & Hb2) end.
  js. unfold updateApiKeyRecord.
  cbn [write_fault log with_console with_random_pos with_uuids].
  rewrite Hwrite. js.
  do 3 eexists. split; [reflexivity|]. split; [reflexivity|].
  unfold pending, registered.
  cbn [encryptedRegistrationRequest encryptedPublicKey encryptedKeyHandle
       field_truthy andb].
  cbn [field_truthy] in Hb2. rewrite Hb2. auto.
Qed.

(** C1, as amended. When the preconditions hold (activated account,
    UUID present, authentication request and public key present and
    decryptable, both JSON texts parse) and the store accepts writes:
    if the signature check reports no error, the stored request is
    overwritten with the marker [" "] and the record is persisted
    before Valid is returned, and every later call with the same UUID
    is refused without touching the store; if the check reports an
    error, the caller receives status 400 with that message, nothing is
    written, and the request stays as it was. *)
Theorem validateAuthentication_consumes_request_on_success
    (k s uuid signResult : jsstring) (w : World)
    (r : ApiKeyRecord) (entry : U2fEntry) (reqblob reqtext pkblob pktext stext : string)
    (jreq jsig : Json) :
  u2f_chain k s uuid w = Some (r, entry) ->
  store_keyed w ->
  write_fault w = None ->
  encryptedAuthenticationRequest entry = Text reqblob ->
  decrypts_to reqblob s reqtext ->
  encryptedPublicKey entry = Text pkblob ->
  decrypts_to pkblob s pktext ->
  JSON_parse reqtext = Some jreq ->
  signResult = Some stext ->
  JSON_parse stext = Some jsig ->
  let result := u2f_checkSignature jreq jsig (Some pktext) in
  let response := (U2f.validateAuthentication k s uuid signResult w).1 in
  let w' := (U2f.validateAuthentication k s uuid signResult w).2 in
  let cleared := U2f.set_encryptedAuthenticationRequest (Text " ") entry in
  if truthy (signature_errorMessage result) then
    response = Normal (Failure 400 (to_String (signature_errorMessage result)))
    /\ unchanged w w'
    /\ u2f_chain k s uuid w' = Some (r, entry)
  else
    response = Normal (Success (Message "Valid" 200))
    /\ table w' = <[record_id r := U2f.set_u2f_entry uuid cleared r]> (table w)
    /\ updates w' = U2f.set_u2f_entry uuid cleared r :: updates w
    /\ u2f_chain k s uuid w' = Some (U2f.set_u2f_entry uuid cleared r, cleared)
    /\ forall again,
         refused (U2f.validateAuthentication k s uuid again w').1
         /\ unchanged w' (U2f.validateAuthentication k s uuid again w').2.
Proof.
  intros Hchain Hkeyed Hwrite Hreq Hdreq Hpk Hdpk Hjreq Hsign Hjsig
    result response w' cleared.
  subst response w'.
  rewrite (validateAuthentication_checked k s uuid signResult w r entry reqblob
             reqtext pkblob pktext stext jreq jsig
             Hchain Hreq Hdreq Hpk Hdpk Hjreq Hsign Hjsig).
  fold result. rewrite Hwrite.
  destruct (truthy (signature_errorMessage result)); cbn [fst snd].
  - split; [reflexivity|]. split; [split; reflexivity|]. exact Hchain.
  - split; [reflexivity|]. split; [reflexivity|]. split; [reflexivity|].
    match goal with |- u2f_chain k s uuid ?w1 = _ /\ _ =>
      assert (Hchain' : u2f_chain k s uuid w1
                        = Some (U2f.set_u2f_entry uuid cleared r, cleared))
        by (apply (u2f_chain_after_update k s uuid w w1 r entry cleared Hkeyed Hchain);
            reflexivity)
    end.
    split; [exact Hchain'|]. intros again.
    rewrite (validateAuthentication_spent k s uuid again _ _ _ Hchain' eq_refl).
    split; [do 2 eexists; reflexivity | split; reflexivity].
Qed.

(** C10. After a successful [validateAuthentication] the credential's
    [encryptedAuthenticationRequest] is the one-character string [" "],
    which is truthy; a later call for that UUID therefore passes the
    presence test, has [decrypt] refuse [" "] with the format error (one
    piece found), and answers status 500 "Internal Server Error" after
    logging "Error validating authenticationRequest", not the line of
    the missing-request test. *)
Theorem spent_request_fails_at_decrypt (k s uuid signResult : jsstring) (w : World) :
  store_keyed w ->
  (U2f.validateAuthentication k s uuid signResult w).1
  = Normal (Success (Message "Valid" 200)) ->
  let w' := (U2f.validateAuthentication k s uuid signResult w).2 in
  exists r' entry',
    u2f_chain k s uuid w' = Some (r', entry')
    /\ encryptedAuthenticationRequest entry' = Text " "
    /\ field_truthy (encryptedAuthenticationRequest entry') = true
    /\ decrypt_fails " " s
    /\ forall again,
         U2f.validateAuthentication k s uuid again w'
         = (Normal (Failure 500 "Internal Server Error"),
            log "Error validating authenticationRequest"
              (log (format_error_line 1) (log (begin_authentication uuid) w'))).
Proof.
  intros Hkeyed Hsuccess w'. subst w'.
  pose proof (validateAuthentication_success_shape k s uuid signResult w) as Hshape.
  destruct (U2f.validateAuthentication k s uuid signResult w) as [c w'].
  cbn [fst snd] in *. subst c.
  destruct Hshape as (r & entry & Hchain & Htable & Hread).
  pose proof (u2f_chain_after_update k s uuid w w' r entry _ Hkeyed Hchain Htable Hread)
    as Hchain'.
  do 2 eexists. split; [exact Hchain'|]. split; [reflexivity|]. split; [reflexivity|].
  split.
  - apply decrypt_malformed. cbn. lia.
  - intros again.
    exact (validateAuthentication_spent k s uuid again w' _ _ Hchain' eq_refl).
Qed.

(** C2, the part the code misses: whatever its arguments and the state
    of the store, [createRegistration] ends with the [ReferenceError] of
    its first statement and leaves the world as it found it; no
    credential with a registration request is ever created. *)
Theorem createRegistration_never_registers (k s appId : jsstring) (w : World) :
  U2f.createRegistration k s appId w = (Abrupt (ReferenceError "u2fUuid"), w).
Proof. reflexivity. Qed.

(** The other parts of C2 hold.  Every operation keeps the phase
    invariant of every stored credential. *)
Lemma u2f_operations_keep_invariant (k s uuid : jsstring) (w : World) :
  store_invariant w ->
  (forall appId,
     store_invariant
       (getActivatedApiKey k s (U2f.createRegistration_callback s appId) w).2
     /\ store_invariant (U2f.createRegistration k s appId w).2)
  /\ (forall signResult,
        store_invariant (U2f.validateRegistration k s uuid signResult w).2)
  /\ store_invariant (U2f.createAuthentication k s uuid w).2
  /\ (forall signResult,
        store_invariant (U2f.validateAuthentication k s uuid signResult w).2)
  /\ store_invariant (U2f.delete k s uuid w).2.
Proof.
  intros Hinv. split; [|split; [|split; [|split]]].
  - intros appId. split.
    + now apply createRegistration_callback_invariant.
    + exact Hinv.
  - intros signResult. now apply validateRegistration_invariant.
  - now apply createAuthentication_invariant.
  - intros signResult. now apply validateAuthentication_invariant.
  - now apply delete_invariant.
Qed.

(** A second [validateRegistration] on a credential that the first one
    registered finds no pending request. *)
Lemma validateRegistration_twice (k s uuid : jsstring) (signResult : option Json)
    (w : World) (r : ApiKeyRecord) (entry : U2fEntry) (blob text pk kh : string)
    (jreq : Json) :
  store_keyed w ->
  u2f_chain k s uuid w = Some (r, entry) ->
  encryptedRegistrationRequest entry = Text blob ->
  decrypts_to blob s text ->
  JSON_parse text = Some jreq ->
  u2f_checkRegistration jreq signResult = mkRegistrationResult None (Some pk) (Some kh) ->
  write_fault w = None ->
  exists w',
    U2f.validateRegistration k s uuid signResult w = (Normal (Success NoBody), w')
    /\ forall again,
         U2f.validateRegistration k s uuid again w'
         = (Normal (Failure 500 "Internal Server Error"),
            log "No encryptedRegistrationRequest found in that U2F record."
              (log (begin_registration uuid) w')).
Proof.
  intros Hkeyed Hchain Hreq Hdec Hjreq Hcheck Hwrite.
  destruct (validateRegistration_registers k s uuid signResult w r entry blob text
              pk kh jreq Hchain Hreq Hdec Hjreq Hcheck Hwrite)
    as (entry' & w' & Hrun & Htable & Hread & _ & Hpending & _).
  exists w'. split; [exact Hrun|]. intros again.
  apply (validateRegistration_not_pending k s uuid again w'
           (U2f.set_u2f_entry uuid entry' r) entry'); [|exact Hpending].
  exact (u2f_chain_after_update k s uuid w w' r entry entry' Hkeyed Hchain Htable Hread).
Qed.

End U2fClaims.

(** ** The claims on the sample installation *)

Lemma sample_request_decrypts :
  decrypts_to (H:=Sample.crypto) Sample.request_blob (Some Sample.secret)
    "{challenge:abc}".
Proof. intros A callback w. reflexivity. Qed.

Lemma sample_publicKey_decrypts :
  decrypts_to (H:=Sample.crypto) Sample.publicKey_blob (Some Sample.secret) "PK".
Proof. intros A callback w. reflexivity. Qed.

Lemma sample_seed_decrypts :
  decrypts_to (H:=Sample.crypto) Sample.seed_blob (Some Sample.secret)
    "JBSWY3DPEHPK3PXP".
Proof. intros A callback w. reflexivity. Qed.

Lemma sample_store_keyed : store_keyed Sample.world.
Proof.
  intros k r Hk. unfold Sample.world in Hk. cbn [table] in Hk.
  destruct (decide (k = "key-1")) as [->|N1].
  - rewrite lookup_insert_eq in Hk. now injection Hk as <-.
  - rewrite lookup_insert_ne in Hk by congruence.
    destruct (decide (k = "key-2")) as [->|N2].
    + rewrite lookup_singleton_eq in Hk. now injection Hk as <-.
    + rewrite lookup_singleton_ne in Hk by congruence. discriminate.
Qed.

Lemma sample_store_invariant : store_invariant Sample.world.
Proof.
  intros k r m uuid e Hk Hm He.
  unfold Sample.world in Hk. cbn [table] in Hk.
  apply lookup_insert_Some in Hk as [[<- <-]|[_ Hk]].
  - injection Hm as <-.
    apply lookup_insert_Some in He as [[<- <-]|[_ He]]; [reflexivity|].
    apply lookup_insert_Some in He as [[<- <-]|[_ He]]; [reflexivity|].
    apply lookup_singleton_Some in He as [<- <-]. reflexivity.
  - apply lookup_singleton_Some in Hk as [<- <-]. discriminate Hm.
Qed.

(** C1 fails as stated: on the sample installation the preconditions
    hold for the credential "u2f-awaiting", the proof "bad" is rejected
    with status 400, nothing is written, the stored request is still the
    encrypted challenge, and a second call with the proof "good" is
    answered Valid. *)
Lemma rejected_proof_keeps_request :
  let call := @U2f.validateAuthentication Sample.crypto Sample.u2flib
                (Some "key-1") (Some Sample.secret) (Some "u2f-awaiting") in
  let w' := (call (Some "bad") Sample.world).2 in
  u2f_chain (Some "key-1") (Some Sample.secret) (Some "u2f-awaiting") Sample.world
  = Some (Sample.record, Sample.awaiting_entry)
  /\ encryptedAuthenticationRequest Sample.awaiting_entry = Text Sample.request_blob
  /\ decrypts_to (H:=Sample.crypto) Sample.request_blob (Some Sample.secret)
       "{challenge:abc}"
  /\ (call (Some "bad") Sample.world).1 = Normal (Failure 400 "Invalid signature")
  /\ table w' = table Sample.world
  /\ updates w' = []
  /\ u2f_chain (Some "key-1") (Some Sample.secret) (Some "u2f-awaiting") w'
     = Some (Sample.record, Sample.awaiting_entry)
  /\ encryptedAuthenticationRequest Sample.awaiting_entry <> Text " "
  /\ ~ refused (call (Some "good") w').1
  /\ (call (Some "good") w').1 = Normal (Success (Message "Valid" 200)).
Proof.
  cbv zeta.
  split; [vm_compute; reflexivity|].
  split; [reflexivity|].
  split; [exact sample_request_decrypts|].
  split; [vm_compute; reflexivity|].
  split; [vm_compute; reflexivity|].
  split; [vm_compute; reflexivity|].
  split; [vm_compute; reflexivity|].
  split; [discriminate|].
  assert (Hgood : (@U2f.validateAuthentication Sample.crypto Sample.u2flib
                     (Some "key-1") (Some Sample.secret) (Some "u2f-awaiting")
                     (Some "good")
                     (@U2f.validateAuthentication Sample.crypto Sample.u2flib
                        (Some "key-1") (Some Sample.secret) (Some "u2f-awaiting")
                        (Some "bad") Sample.world).2).1
                  = Normal (Success (Message "Valid" 200)))
    by (vm_compute; reflexivity).
  split; [|exact Hgood].
  intros (status & text & Hrefused). rewrite Hgood in Hrefused. discriminate.
Qed.

Lemma validateAuthentication_consumes_request_on_success_witness :
  let k := Some "key-1" in
  let s := Some Sample.secret in
  let uuid := Some "u2f-awaiting" in
  let w := Sample.world in
  let call := @U2f.validateAuthentication Sample.crypto Sample.u2flib k s uuid in
  (u2f_chain k s uuid w = Some (Sample.record, Sample.awaiting_entry)
   /\ store_keyed w
   /\ write_fault w = None
   /\ encryptedAuthenticationRequest Sample.awaiting_entry = Text Sample.request_blob
   /\ decrypts_to (H:=Sample.crypto) Sample.request_blob s "{challenge:abc}"
   /\ encryptedPublicKey Sample.awaiting_entry = Text Sample.publicKey_blob
   /\ decrypts_to (H:=Sample.crypto) Sample.publicKey_blob s "PK"
   /\ @JSON_parse Sample.u2flib "{challenge:abc}" = Some "{challenge:abc}"
   /\ @JSON_parse Sample.u2flib "good" = Some "good")
  /\ let result := @u2f_checkSignature Sample.u2flib "{challenge:abc}" "good" (Some "PK") in
     let response := (call (Some "good") w).1 in
     let w' := (call (Some "good") w).2 in
     let cleared :=
       U2f.set_encryptedAuthenticationRequest (Text " ") Sample.awaiting_entry in
     if truthy (signature_errorMessage result) then
       response = Normal (Failure 400 (to_String (signature_errorMessage result)))
       /\ unchanged w w'
       /\ u2f_chain k s uuid w' = Some (Sample.record, Sample.awaiting_entry)
     else
       response = Normal (Success (Message "Valid" 200))
       /\ table w'
          = <[record_id Sample.record := U2f.set_u2f_entry uuid cleared Sample.record]>
              (table w)
       /\ updates w' = U2f.set_u2f_entry uuid cleared Sample.record :: updates w
       /\ u2f_chain k s uuid w'
          = Some (U2f.set_u2f_entry uuid cleared Sample.record, cleared)
       /\ forall again,
            refused (call again w').1 /\ unchanged w' (call again w').2.
Proof.
  intros k s uuid w call. split.
  - split; [vm_compute; reflexivity|].
    split; [exact sample_store_keyed|].
    split; [reflexivity|]. split; [reflexivity|].
    split; [exact sample_request_decrypts|]. split; [reflexivity|].
    split; [exact sample_publicKey_decrypts|]. split; reflexivity.
  - apply (@validateAuthentication_consumes_request_on_success
             Sample.crypto Sample.u2flib k s uuid (Some "good") w
             Sample.record Sample.awaiting_entry Sample.request_blob
             "{challenge:abc}" Sample.publicKey_blob "PK" "good"
             "{challenge:abc}" "good").
    + vm_compute. reflexivity.
    + exact sample_store_keyed.
    + reflexivity.
    + reflexivity.
    + exact sample_request_decrypts.
    + reflexivity.
    + exact sample_publicKey_decrypts.
    + reflexivity.
    + reflexivity.
    + reflexivity.
Defined.

Lemma spent_request_fails_at_decrypt_witness :
  let k := Some "key-1" in
  let s := Some Sample.secret in
  let uuid := Some "u2f-awaiting" in
  let w := Sample.world in
  let call := @U2f.validateAuthentication Sample.crypto Sample.u2flib k s uuid in
  (store_keyed w
   /\ (call (Some "good") w).1 = Normal (Success (Message "Valid" 200)))
  /\ let w' := (call (Some "good") w).2 in
     exists r' entry',
       u2f_chain k s uuid w' = Some (r', entry')
       /\ encryptedAuthenticationRequest entry' = Text " "
       /\ field_truthy (encryptedAuthenticationRequest entry') = true
       /\ decrypt_fails (H:=Sample.crypto) " " s
       /\ forall again,
            call again w'
            = (Normal (Failure 500 "Internal Server Error"),
               log "Error validating authenticationRequest"
                 (log (format_error_line 1) (log (begin_authentication uuid) w'))).
Proof.
  intros k s uuid w call. split.
  - split; [exact sample_store_keyed | vm_compute; reflexivity].
  - apply (@spent_request_fails_at_decrypt Sample.crypto Sample.u2flib
             k s uuid (Some "good") w).
    + exact sample_store_keyed.
    + vm_compute. reflexivity.
Defined.

Lemma validate_valid_iff_candidate_witness :
  let k := Some "key-1" in
  let s := Some Sample.secret in
  let uuid := Some "totp-1" in
  let w := Sample.world in
  (totp_chain k s uuid w = Some (Sample.record, mkTotpEntry (Text Sample.seed_blob))
   /\ truthy (Some "600000") = true
   /\ decrypts_to (H:=Sample.crypto) Sample.seed_blob s "JBSWY3DPEHPK3PXP"
   /\ (clock w / 1000 / 30 = 50000000)%Z)
  /\ let step := (clock w / 1000 / 30)%Z in
     let response :=
       (@Totp.validate Sample.crypto Sample.speakeasy string k s uuid
          (Some "600000") w).1 in
     (response = Normal (Success (Message "Valid" 200))
      <-> ("600000" = @hotp Sample.speakeasy "JBSWY3DPEHPK3PXP" (step - 1)
           \/ "600000" = @hotp Sample.speakeasy "JBSWY3DPEHPK3PXP" step
           \/ "600000" = @hotp Sample.speakeasy "JBSWY3DPEHPK3PXP" (step + 1)))
     /\ (response = Normal (Success (Message "Valid" 200))
         \/ response = Normal (Failure 401 "Invalid")).
Proof.
  intros k s uuid w. split.
  - split; [vm_compute; reflexivity|].
    split; [reflexivity|]. split; [exact sample_seed_decrypts | reflexivity].
  - apply (@validate_valid_iff_candidate Sample.crypto Sample.speakeasy string
             k s uuid (Some "600000") w Sample.record
             (mkTotpEntry (Text Sample.seed_blob)) Sample.seed_blob
             "JBSWY3DPEHPK3PXP").
    + vm_compute. reflexivity.
    + reflexivity.
    + reflexivity.
    + exact sample_seed_decrypts.
Defined.

Lemma validate_never_mutates_witness :
  let k := Some "key-1" in
  let s := Some Sample.secret in
  let uuid := Some "totp-1" in
  let code := Some "600000" in
  let w := Sample.world in
  let w' := (@Totp.validate Sample.crypto Sample.speakeasy string k s uuid code w).2 in
  Totp.counter (with_clock 1500000020000 w') = Totp.counter w
  /\ unchanged w w'
  /\ (@Totp.validate Sample.crypto Sample.speakeasy string k s uuid code
        (with_clock 1500000020000 w')).1
     = (@Totp.validate Sample.crypto Sample.speakeasy string k s uuid code w).1
  /\ (@Totp.validate Sample.crypto Sample.speakeasy string k s uuid code w).1
     = Normal (Success (Message "Valid" 200)).
Proof.
  intros k s uuid code w w'.
  pose proof (@validate_never_mutates Sample.crypto Sample.speakeasy string
                k s uuid code w) as (Hsame & Hagain).
  split; [vm_compute; reflexivity|].
  split; [exact Hsame|].
  split; [apply (Hagain 1500000020000%Z); vm_compute; reflexivity|].
  vm_compute. reflexivity.
Defined.

(** C5, at a failing input. On the sample installation the registration
    check rejects the proof "bad" with the message "Invalid registration
    data"; [validateRegistration] answers status 500 with the fixed text
    "Internal Server Error" and the message reaches the console only. *)
Theorem validateRegistration_hides_protocol_error :
  let check := @u2f_checkRegistration Sample.u2flib "{challenge:abc}" (Some "bad") in
  registration_errorMessage check = Some "Invalid registration data"
  /\ @U2f.validateRegistration Sample.crypto Sample.u2flib
       (Some "key-1") (Some Sample.secret) (Some "u2f-pending") (Some "bad")
       Sample.world
     = (Normal (Failure 500 "Internal Server Error"),
        log "U2F check registration failed. Error: Invalid registration data"
          (log "Begin validating registration for uuid: u2f-pending" Sample.world)).
Proof. split; vm_compute; reflexivity. Qed.

(** C6, at a failing input. On the sample installation the credential
    "u2f-damaged" stores a public key that is not an encrypted blob:
    [decrypt] reports the format error, [validateAuthentication] goes on
    to the signature check with an undefined key, and the caller
    receives status 400 with the checker's message, not an internal
    error. *)
Theorem validateAuthentication_ignores_decrypt_error :
  decrypt_fails (H:=Sample.crypto) "not-an-encrypted-blob" (Some Sample.secret)
  /\ encryptedPublicKey Sample.damaged_entry = Text "not-an-encrypted-blob"
  /\ @U2f.validateAuthentication Sample.crypto Sample.u2flib
       (Some "key-1") (Some Sample.secret) (Some "u2f-damaged") (Some "good")
       Sample.world
     = (Normal (Failure 400 "Invalid public key"),
        log "Error validating U2F authentication. Error: Invalid public key"
          (log (format_error_line 1)
             (log "Begin validating authentication for uuid: u2f-damaged"
                Sample.world))).
Proof.
  split; [|split].
  - apply decrypt_malformed. cbn. lia.
  - reflexivity.
  - vm_compute. reflexivity.
Qed.

(** C8, at a failing input. On the sample installation the account
    "key-2" was never activated, so the precondition chain fails for
    it.  The sibling [delete] returns the error of status 401 to its
    caller; [createRegistration] returns nothing: the exception of its
    first statement escapes before the chain is run, so no error
    reaches the caller's callback. *)
Theorem createRegistration_returns_no_error :
  let k := Some "key-2" in
  let s := Some Sample.secret in
  let outcome :=
    @U2f.createRegistration Sample.crypto Sample.u2flib k s
      (Some "https://example.com") Sample.world in
  table Sample.world !! "key-2" = Some Sample.dormant
  /\ activated Sample.dormant = false
  /\ account k s Sample.world = None
  /\ (@U2f.delete Sample.u2flib k s (Some "u2f-awaiting") Sample.world).1
     = Normal (Failure 401 "Unauthorized")
  /\ outcome = (Abrupt (ReferenceError "u2fUuid"), Sample.world)
  /\ ~ refused outcome.1.
Proof.
  cbv zeta. repeat split; try (vm_compute; reflexivity).
  intros (status & text & Hrefused). discriminate Hrefused.
Qed.

(** * Further properties of the code *)

(** ** What a request leaves behind *)

Lemma same_but_u2f_set_entry (uuid : jsstring) (e : U2fEntry) (r : ApiKeyRecord) :
  same_but_u2f (to_String uuid) r (U2f.set_u2f_entry uuid e r).
Proof.
  repeat split. intros u Hu. cbn [U2f.set_u2f_entry U2f.set_u2f u2f from_option id].
  now rewrite lookup_insert_ne by congruence.
Qed.

Lemma same_but_u2f_delete (uuid : jsstring) (r : ApiKeyRecord) :
  same_but_u2f (to_String uuid) r (U2f.delete_u2f_entry uuid r).
Proof.
  repeat split. intros u Hu. cbn [U2f.delete_u2f_entry U2f.set_u2f u2f from_option id].
  now rewrite lookup_delete_ne by congruence.
Qed.

Ltac encrypt_cases_here blob Hblob :=
  match goal with
  | |- context [Encryption.encrypt ?text ?key ?w1] =>
      let e := fresh "e" in
      let w' := fresh "w'" in
      let Hw' := fresh "Hw'" in
      let Hu' := fresh "Hu'" in
      destruct (encrypt_cases text key w1)
        as [(e & w' & -> & Hw' & Hu') | (blob & -> & Hblob)]
  end.

Ltac untouched_leaf := split; [reflexivity | intros _; reflexivity].

Lemma while_in_use_free (fuel : nat) (in_use : string -> bool) (candidate : string)
    (w w' : World) (u : string) :
  while_in_use fuel in_use candidate w = (Normal u, w') -> in_use u = false.
Proof.
  revert candidate w. induction fuel as [|fuel IH]; intros candidate w.
  - cbn [while_in_use]. destruct (in_use candidate) eqn:Hc; js.
    + discriminate.
    + intros Hrun. now injection Hrun as <- _.
  - cbn [while_in_use]. destruct (in_use candidate) eqn:Hc; js.
    + unfold uuid_v4. cbn [uuids log with_console].
      destruct (uuids w) as [|next rest]; js; [discriminate|]. apply IH.
    + intros Hrun. now injection Hrun as <- _.
Qed.

Lemma same_but_u2f_insert (u : string) (e : U2fEntry) (r : ApiKeyRecord) :
  same_but_u2f u r (U2f.set_u2f (<[u := e]> (default ∅ (u2f r))) r).
Proof.
  repeat split. intros u' Hu. cbn [U2f.set_u2f u2f from_option id].
  now rewrite lookup_insert_ne by congruence.
Qed.

Lemma same_but_totp_insert (u : string) (e : TotpEntry) (r : ApiKeyRecord) :
  same_but_totp u r (Totp.set_totp (<[u := e]> (default ∅ (totp r))) r).
Proof.
  repeat split. intros u' Hu. cbn [Totp.set_totp totp from_option id].
  now rewrite lookup_insert_ne by congruence.
Qed.

Ltac untouched_after_throw Hw' Hu' :=
  split; [etransitivity; [exact Hw' | reflexivity]
         | intros _; etransitivity; [exact Hu' | reflexivity]].

Section OutcomeFacts.
Context `{Crypto} `{Speakeasy} `{QrCode} `{U2fLib}.

Lemma delete_settled (k s uuid : jsstring) (w : World) :
  u2f_settled k s uuid w (U2f.delete k s uuid w).
Proof.
  unfold u2f_settled, U2f.delete. js.
  account_cases r Hacc; js; [|untouched_leaf].
  change (account k s w = Some r) in Hacc.
  destruct (truthy uuid) eqn:Huuid; js; [|untouched_leaf].
  destruct (U2f.u2f_entry r uuid) as [entry|] eqn:Hentry; js; [|untouched_leaf].
  unfold updateApiKeyRecord; cbn [write_fault log with_console].
  destruct (write_fault w) eqn:Hwrite; js.
  - split; [reflexivity | intros Hn; congruence].
  - exists r, entry, (U2f.delete_u2f_entry uuid r).
    unfold u2f_chain. rewrite Hacc, Huuid, Hentry.
    repeat split; try reflexivity. apply same_but_u2f_delete.
Qed.

Lemma validateAuthentication_settled (k s uuid signResult : jsstring) (w : World) :
  u2f_settled k s uuid w (U2f.validateAuthentication k s uuid signResult w).
Proof.
  unfold u2f_settled, U2f.validateAuthentication. js.
  account_cases r Hacc; js; [|untouched_leaf].
  change (account k s w = Some r) in Hacc.
  destruct (truthy uuid) eqn:Huuid; js; [|untouched_leaf].
  destruct (U2f.u2f_entry r uuid) as [entry|] eqn:Hentry; js; [|untouched_leaf].
  destruct (field_truthy (encryptedAuthenticationRequest entry)); js; [|untouched_leaf].
  decrypt_cases_in_goal Hd text; js; try untouched_leaf.
  destruct (field_truthy (encryptedPublicKey entry)); js; [|untouched_leaf].
  decrypt_cases_in_goal Hd' text'; js; try untouched_leaf.
  all: unfold U2f.JSON_parse_or_throw.
  all: destruct (JSON_parse text) as [jreq|]; js; [|untouched_leaf].
  all: destruct signResult as [stext|]; js; [|untouched_leaf].
  all: destruct (JSON_parse stext) as [jsig|]; js; [|untouched_leaf].
  all: destruct (truthy (signature_errorMessage _)); js; [untouched_leaf|].
  all: unfold updateApiKeyRecord; cbn [write_fault log with_console].
  all: destruct (write_fault w) eqn:Hwrite; js; [split; [reflexivity | intros Hn; congruence]|].
  all: eexists _, _, _; unfold u2f_chain; rewrite Hacc, Huuid, Hentry;
    repeat split; try reflexivity; apply same_but_u2f_set_entry.
Qed.

Lemma createAuthentication_settled (k s uuid : jsstring) (w : World) :
  u2f_settled k s uuid w (U2f.createAuthentication k s uuid w).
Proof.
  unfold u2f_settled, U2f.createAuthentication. js.
  account_cases r Hacc; js; [|untouched_leaf].
  change (account k s w = Some r) in Hacc.
  destruct (truthy uuid) eqn:Huuid; js; [|untouched_leaf].
  destruct (U2f.u2f_entry r uuid) as [entry|] eqn:Hentry; js; [|untouched_leaf].
  destruct (field_truthy (encryptedAppId entry)); js; [|untouched_leaf].
  decrypt_cases_in_goal Hd text; js; try untouched_leaf.
  destruct (field_truthy (encryptedKeyHandle entry)); js; [|untouched_leaf].
  decrypt_cases_in_goal Hd' text'; js; try untouched_leaf.
  unfold U2f.request, randomBytes. js.
  encrypt_cases_here blob Hblob; js; [untouched_after_throw Hw' Hu'|].
  unfold updateApiKeyRecord; cbn [write_fault log with_console with_random_pos].
  destruct (write_fault w) eqn:Hwrite; js; [split; [reflexivity | intros Hn; congruence]|].
  eexists _, _, _; unfold u2f_chain; rewrite Hacc, Huuid, Hentry;
    repeat split; try reflexivity; apply same_but_u2f_set_entry.
Qed.

Lemma validateRegistration_settled (k s uuid : jsstring) (signResult : option Json)
    (w : World) :
  u2f_settled k s uuid w (U2f.validateRegistration k s uuid signResult w).
Proof.
  unfold u2f_settled, U2f.validateRegistration. js.
  account_cases r Hacc; js; [|untouched_leaf].
  change (account k s w = Some r) in Hacc.
  destruct (truthy uuid) eqn:Huuid; js; [|untouched_leaf].
  destruct (U2f.u2f_entry r uuid) as [entry|] eqn:Hentry; js; [|untouched_leaf].
  destruct (field_truthy (encryptedRegistrationRequest entry)); js; [|untouched_leaf].
  decrypt_cases_in_goal Hd text; js; try untouched_leaf.
  unfold U2f.JSON_parse_or_throw.
  destruct (JSON_parse text) as [jreq|]; js; [|untouched_leaf].
  destruct (truthy (registration_errorMessage _)); js; [untouched_leaf|].
  encrypt_cases_here b1 Hb1; js; [untouched_after_throw Hw' Hu'|].
  encrypt_cases_here b2 Hb2; js; [untouched_after_throw Hw' Hu'|].
  unfold updateApiKeyRecord; cbn [write_fault log with_console with_random_pos].
  destruct (write_fault w) eqn:Hwrite; js; [split; [reflexivity | intros Hn; congruence]|].
  eexists _, _, _; unfold u2f_chain; rewrite Hacc, Huuid, Hentry;
    repeat split; try reflexivity; apply same_but_u2f_set_entry.
Qed.

Lemma createRegistration_callback_settled (k s appId : jsstring) (w : World) :
  registration_settled k s w
    (getActivatedApiKey k s (U2f.createRegistration_callback s appId) w).
Proof.
  unfold registration_settled, U2f.createRegistration_callback.
  account_cases r Hacc; js; [|untouched_leaf].
  unfold U2f.request, randomBytes, uuid_v4. js.
  cbn [uuids with_random_pos].
  destruct (uuids w) as [|u rest]; js; [untouched_leaf|].
  match goal with |- context [while_in_use ?f ?p u ?w1] =>
    destruct (while_in_use_store f p u w1) as (Ht & Hu & Hw);
    pose proof (while_in_use_free f p u w1) as Hfree;
    destruct (while_in_use f p u w1) as [[u'|e] w2]
  end; js.
  2: { split; [exact Ht | intros _; exact Hu]. }
  cbn [fst snd] in Ht, Hu, Hw. specialize (Hfree w2 u' eq_refl).
  encrypt_cases_here b1 Hb1; js.
  { split; [etransitivity; [exact Hw'|exact Ht]
           | intros _; etransitivity; [exact Hu'|exact Hu]]. }
  encrypt_cases_here b2 Hb2; js.
  { split; [etransitivity; [exact Hw'|exact Ht]
           | intros _; etransitivity; [exact Hu'|exact Hu]]. }
  unfold updateApiKeyRecord; cbn [write_fault log with_console with_random_pos].
  destruct (write_fault w2) eqn:Hwrite; js.
  - split; [exact Ht | intros Hn]. cbn in Hw. congruence.
  - eexists r, _, u'. split; [reflexivity|]. split; [cbn in Hw; congruence|].
    split; [split|].
    + cbn [table log with_store with_console with_random_pos]. now rewrite Ht.
    + cbn [updates log with_store with_console with_random_pos]. now rewrite Hu.
    + split; [|apply same_but_u2f_insert].
      destruct (default ∅ (u2f r) !! u'); [discriminate|reflexivity].
Qed.

Lemma totp_create_settled (k s issuer label : jsstring) (w : World) :
  enrollment_settled k s w (Totp.create (Json:=Json) k s issuer label w).
Proof.
  unfold enrollment_settled, account, Totp.create, getApiKeyByValue,
    isAlreadyActivated.
  destruct (truthy k); js; [|untouched_leaf].
  destruct (truthy s); js; [|untouched_leaf].
  destruct (read_fault w); js; [untouched_leaf|].
  destruct (table w !! to_String k) as [r|]; js; [|untouched_leaf].
  destruct (activated r); js; [|untouched_leaf].
  unfold Totp.generateSecret, randomBytes. js.
  destruct (toDataURL _) as [e|dataUrl]; js; [untouched_leaf|].
  unfold fresh_uuid, uuid_v4. js. cbn [uuids with_random_pos].
  destruct (uuids w) as [|u rest]; js; [untouched_leaf|].
  match goal with |- context [while_in_use ?f ?p u ?w1] =>
    destruct (while_in_use_store f p u w1) as (Ht & Hu & Hw);
    pose proof (while_in_use_free f p u w1) as Hfree;
    destruct (while_in_use f p u w1) as [[u'|e] w2]
  end; js.
  2: { split; [exact Ht | intros _; exact Hu]. }
  cbn [fst snd] in Ht, Hu, Hw. specialize (Hfree w2 u' eq_refl).
  encrypt_cases_here b1 Hb1; js.
  { split; [etransitivity; [exact Hw'|exact Ht]
           | intros _; etransitivity; [exact Hu'|exact Hu]]. }
  unfold updateApiKeyRecord; cbn [write_fault log with_console with_random_pos].
  destruct (write_fault w2) eqn:Hwrite; js.
  - split; [exact Ht | intros Hn]. cbn in Hw. congruence.
  - eexists r, _, u'. split; [reflexivity|]. split; [cbn in Hw; congruence|].
    split; [split|].
    + cbn [table log with_store with_console with_random_pos]. now rewrite Ht.
    + cbn [updates log with_store with_console with_random_pos]. now rewrite Hu.
    + split; [|apply same_but_totp_insert].
      destruct (default ∅ (totp r) !! u'); [discriminate|reflexivity].
Qed.

End OutcomeFacts.

(** ** More on helpers/encryption.js *)

Section EncryptionExtras.
Context `{Crypto}.

Lemma length_ctr_crypt (key iv data : list byte) :
  length (Encryption.ctr_crypt key iv data) = length data.
Proof. unfold Encryption.ctr_crypt. apply length_xor_bytes. Qed.

Lemma split_blob (iv ct : list byte) :
  Encryption.split ":" (Base64.encode iv ++ ":" ++ Base64.encode ct)
  = [Base64.encode iv; Base64.encode ct].
Proof.
  rewrite (append_cons ":"%char ""), append_nil_l.
  rewrite split_app by apply encode_no_colon.
  now rewrite split_no_sep by apply encode_no_colon.
Qed.

Lemma encrypt_run_shape (s k : string) (w : World) :
  let iv := map (random w) (seq (random_pos w) 16) in
  let w' := with_random_pos (random_pos w + 16) w in
  if (length (Base64.decode k) =? 32)%nat then
    exists ct,
      Encryption.encrypt (Some s) (Some k) w
      = (Normal (Base64.encode iv ++ ":" ++ Base64.encode ct), w')
      /\ length iv = 16
      /\ length ct = length (list_byte_of_string s)
      /\ Encryption.split ":" (Base64.encode iv ++ ":" ++ Base64.encode ct)
         = [Base64.encode iv; Base64.encode ct]
  else
    Encryption.encrypt (Some s) (Some k) w = (Abrupt CipherInitError, w').
Proof.
  intros iv w'. unfold Encryption.encrypt. cbn [Encryption.Buffer_from_base64].
  unfold mbind, Js_bind, mret, Js_ret, randomBytes, Encryption.createCipheriv.
  fold iv. fold w'.
  assert (Hiv : length iv = 16) by (unfold iv; now rewrite length_map, length_seq).
  rewrite Hiv. destruct (length (Base64.decode k) =? 32)%nat; cbn [andb Nat.eqb].
  - eexists. split; [reflexivity|]. split; [exact Hiv|].
    split; [apply length_ctr_crypt | apply split_blob].
  - reflexivity.
Qed.

(** X1. [encrypt] with a key of 32 bytes returns the base64 text of 16
    fresh random bytes (the IV), one colon, and the base64 text of a
    cipher text exactly as long as the UTF-8 text; the blob splits at
    the colon into these two pieces and the random source advances by
    16 bytes.  With a key of any other length the cipher set-up throws
    and no blob is made. *)
Theorem encrypt_blob_shape (s k : string) (w : World) :
  let iv := map (random w) (seq (random_pos w) 16) in
  let w' := with_random_pos (random_pos w + 16) w in
  if (length (Base64.decode k) =? 32)%nat then
    exists ct,
      Encryption.encrypt (Some s) (Some k) w
      = (Normal (Base64.encode iv ++ ":" ++ Base64.encode ct), w')
      /\ length iv = 16
      /\ length ct = length (list_byte_of_string s)
      /\ Encryption.split ":" (Base64.encode iv ++ ":" ++ Base64.encode ct)
         = [Base64.encode iv; Base64.encode ct]
  else
    Encryption.encrypt (Some s) (Some k) w = (Abrupt CipherInitError, w').
Proof. exact (encrypt_run_shape s k w). Qed.

(** X3. Two successive encryptions under a 32-byte key both succeed
    and consume 32 bytes of the random source, 16 each; whenever the
    two 16-byte draws differ the two blobs differ, even when the texts
    are equal. *)
Theorem encrypt_blobs_differ_with_ivs (s s' k : string) (w : World) :
  length (Base64.decode k) = 32 ->
  exists b1 b2 w1 w2,
    Encryption.encrypt (Some s) (Some k) w = (Normal b1, w1)
    /\ Encryption.encrypt (Some s') (Some k) w1 = (Normal b2, w2)
    /\ random_pos w2 = random_pos w + 32
    /\ (map (random w) (seq (random_pos w) 16)
        <> map (random w) (seq (random_pos w + 16) 16) -> b1 <> b2).
Proof.
  intros Hk.
  pose proof (encrypt_run_shape s k w) as H1. cbv zeta in H1.
  rewrite Hk in H1. cbn [Nat.eqb] in H1.
  destruct H1 as (ct1 & Hrun1 & _ & _ & Hsplit1).
  pose proof (encrypt_run_shape s' k (with_random_pos (random_pos w + 16) w)) as H2.
  cbv zeta in H2. rewrite Hk in H2. cbn [Nat.eqb random random_pos with_random_pos] in H2.
  destruct H2 as (ct2 & Hrun2 & _ & _ & Hsplit2).
  do 4 eexists. split; [exact Hrun1|]. split; [exact Hrun2|].
  split; [cbn; lia|].
  intros Hiv Heq. apply Hiv.
  rewrite Heq, Hsplit2 in Hsplit1.
  apply (f_equal (fun pieces => Base64.decode (nth 0 pieces ""))) in Hsplit1.
  cbn [nth] in Hsplit1. rewrite !decode_encode in Hsplit1. now symmetry.
Qed.

End EncryptionExtras.

(** ** More on models/totp.js *)

Lemma with_console_id (w : World) : with_console (console w ++ [])%list w = w.
Proof. destruct w. unfold with_console. cbn. now rewrite app_nil_r. Qed.

Lemma while_in_use_run (in_use : string -> bool) (u : string) (rest : list string) :
  in_use u = false ->
  forall (taken : list string) (candidate : string) (fuel : nat) (w : World),
    forallb in_use taken = true ->
    in_use candidate = true ->
    uuids w = (taken ++ u :: rest)%list ->
    length taken < fuel ->
    exists w',
      while_in_use fuel in_use candidate w = (Normal u, w')
      /\ uuids w' = rest /\ table w' = table w /\ updates w' = updates w
      /\ read_fault w' = read_fault w /\ write_fault w' = write_fault w
      /\ clock w' = clock w /\ random w' = random w /\ random_pos w' = random_pos w.
Proof.
  intros Hu taken. induction taken as [|t taken IH]; intros candidate fuel w Htaken Hc Hdraws Hfuel.
  - destruct fuel as [|fuel]; [lia|]. cbn [while_in_use]. rewrite Hc. js.
    unfold uuid_v4. cbn [uuids log with_console]. rewrite Hdraws. cbn [app]. js.
    destruct fuel; cbn [while_in_use]; rewrite Hu; js; eexists; split; try reflexivity;
      repeat split; reflexivity.
  - destruct fuel as [|fuel]; [cbn in Hfuel; lia|]. cbn [while_in_use]. rewrite Hc. js.
    unfold uuid_v4. cbn [uuids log with_console]. rewrite Hdraws. cbn [app]. js.
    cbn [forallb] in Htaken. apply andb_prop in Htaken as [Ht Htaken].
    match goal with |- context [while_in_use fuel in_use t ?w1] =>
      destruct (IH t fuel w1 Htaken Ht eq_refl) as (w' & Hrun & Hrest)
    end.
    { cbn in Hfuel. lia. }
    exists w'. split; [exact Hrun|]. exact Hrest.
Qed.

Lemma fresh_uuid_run (in_use : string -> bool) (u : string) (taken rest : list string)
    (w : World) :
  forallb in_use taken = true ->
  in_use u = false ->
  uuids w = (taken ++ u :: rest)%list ->
  exists w',
    fresh_uuid in_use w = (Normal u, w')
    /\ uuids w' = rest /\ table w' = table w /\ updates w' = updates w
    /\ read_fault w' = read_fault w /\ write_fault w' = write_fault w
    /\ clock w' = clock w /\ random w' = random w /\ random_pos w' = random_pos w.
Proof.
  intros Htaken Hu Hdraws. unfold fresh_uuid, uuid_v4. js. rewrite Hdraws.
  destruct taken as [|t taken]; cbn [app]; js.
  - cbn [uuids with_uuids]. destruct (length rest); cbn [while_in_use]; rewrite Hu; js;
      eexists; split; try reflexivity; repeat split; reflexivity.
  - cbn [forallb] in Htaken. apply andb_prop in Htaken as [Ht Htaken].
    match goal with |- context [while_in_use ?f in_use t ?w1] =>
      destruct (while_in_use_run in_use u rest Hu taken t f w1 Htaken Ht eq_refl)
        as (w' & Hrun & Hrest)
    end.
    { cbn [uuids with_uuids]. rewrite length_app. cbn. lia. }
    exists w'. split; [exact Hrun|]. exact Hrest.
Qed.

Lemma account_some_inv (k s : jsstring) (w : World) (r : ApiKeyRecord) :
  account k s w = Some r ->
  truthy k = true /\ truthy s = true /\ read_fault w = None
  /\ table w !! to_String k = Some r /\ activated r = true.
Proof.
  unfold account. intros Hacc.
  destruct (truthy k); [|discriminate]. destruct (truthy s); [|discriminate].
  cbn [andb] in Hacc.
  destruct (read_fault w); [discriminate|].
  destruct (table w !! to_String k) as [r'|]; [|discriminate].
  destruct (activated r') eqn:Hact; [|discriminate].
  injection Hacc as <-. auto.
Qed.

Lemma account_after_update (k s : jsstring) (w w' : World) (r r' : ApiKeyRecord) :
  store_keyed w ->
  account k s w = Some r ->
  table w' = <[record_id r := r']> (table w) ->
  read_fault w' = read_fault w ->
  activated r' = activated r ->
  account k s w' = Some r'.
Proof.
  intros Hkeyed Hacc Htable Hread Hact.
  destruct (account_some_inv k s w r Hacc) as (Hk & Hs & Hr & Hrec & Hactive).
  unfold account. rewrite Hk, Hs, Hread, Hr, Htable. cbn [andb].
  rewrite (Hkeyed _ _ Hrec), lookup_insert_eq. now rewrite Hact, Hactive.
Qed.

Section TotpExtras.
Context `{Crypto} `{Speakeasy} `{QrCode} {Json : Type}.

Lemma totp_create_run (k s issuer label : jsstring) (w : World) (r : ApiKeyRecord)
    (key u dataUrl : string) (taken rest : list string) :
  account k s w = Some r ->
  s = Some key -> length (Base64.decode key) = 32 ->
  uuids w = (taken ++ u :: rest)%list ->
  forallb (fun t => present (default ∅ (totp r) !! t)) taken = true ->
  default ∅ (totp r) !! u = None ->
  let seed := base32_secret (map (random w) (seq (random_pos w) 32)) in
  toDataURL (enrollment_url issuer label seed) = inr dataUrl ->
  write_fault w = None ->
  exists blob w',
    Totp.create (Json:=Json) k s issuer label w
    = (Normal (Success (TotpCreated u seed dataUrl)), w')
    /\ decrypts_to blob s seed
    /\ table w'
       = <[record_id r :=
             Totp.set_totp (<[u := mkTotpEntry (Text blob)]> (default ∅ (totp r))) r]>
           (table w)
    /\ read_fault w' = read_fault w
    /\ clock w' = clock w.
Proof.
  intros Hacc -> Hkey Hdraws Htaken Hfree seed Hqr Hwrite.
  destruct (account_some_inv k (Some key) w r Hacc) as (Hk & Hs & Hr & Hrec & Hactive).
  unfold Totp.create, getApiKeyByValue, isAlreadyActivated.
  rewrite Hk, Hs. js. rewrite Hr, Hrec, Hactive. js.
  unfold Totp.generateSecret, randomBytes. js. fold seed.
  unfold enrollment_url in Hqr. rewrite Hqr. js.
  match goal with |- context [fresh_uuid ?p ?w1] =>
    destruct (fresh_uuid_run p u taken rest w1 Htaken) as
      (w2 & -> & _ & Ht & Hu & Hrf & Hwf & Hclock & _ & _)
  end.
  { now rewrite Hfree. }
  { exact Hdraws. }
  js.
  destruct (encrypt_then_decrypt seed key w2 Hkey) as (blob & -> & Hdec). js.
  unfold updateApiKeyRecord. cbn [write_fault with_random_pos].
  rewrite Hwf. cbn [write_fault with_random_pos]. rewrite Hwrite. js.
  exists blob. eexists. split; [reflexivity|]. split; [exact Hdec|].
  cbn [table read_fault clock with_store with_random_pos].
  rewrite Ht, Hrf, Hclock. auto.
Qed.

Lemma totp_chain_after_create (k s : jsstring) (w w' : World) (r : ApiKeyRecord)
    (u : string) (entry : TotpEntry) :
  store_keyed w ->
  account k s w = Some r ->
  table w' = <[record_id r :=
                 Totp.set_totp (<[u := entry]> (default ∅ (totp r))) r]> (table w) ->
  read_fault w' = read_fault w ->
  u <> "" ->
  totp_chain k s (Some u) w'
  = Some (Totp.set_totp (<[u := entry]> (default ∅ (totp r))) r, entry).
Proof.
  intros Hkeyed Hacc Htable Hread Hu.
  unfold totp_chain.
  rewrite (account_after_update k s w w' r _ Hkeyed Hacc Htable Hread eq_refl).
  cbn [truthy]. apply String.eqb_neq in Hu. rewrite Hu. cbn [negb].
  unfold Totp.totp_entry. cbn [totp Totp.set_totp mbind option_bind to_String].
  now rewrite lookup_insert_eq.
Qed.

Lemma validate_accepts (k s uuid code : jsstring) (w : World)
    (r : ApiKeyRecord) (entry : TotpEntry) (blob seed : string) (step : Z) :
  totp_chain k s uuid w = Some (r, entry) ->
  truthy code = true ->
  encryptedTotpKey entry = Text blob ->
  decrypts_to blob s seed ->
  to_String code = hotp seed step ->
  (Totp.counter w - 1 <= step <= Totp.counter w + 1)%Z ->
  Totp.validate (Json:=Json) k s uuid code w
  = (Normal (Success (Message "Valid" 200)), log "Valid TOTP code." w).
Proof.
  intros Hchain Hcode Hblob Hdec Heq Hstep.
  rewrite (validate_run k s uuid code w r entry blob seed Hchain Hcode Hblob Hdec).
  rewrite candidates_window_1, Heq. cbn [existsb].
  assert (Hcases : step = (Totp.counter w - 1)%Z \/ step = Totp.counter w
                   \/ step = (Totp.counter w + 1)%Z) by lia.
  destruct Hcases as [-> | [-> | ->]]; rewrite String.eqb_refl; cbn [orb];
    rewrite ?orb_true_r; reflexivity.
Qed.

Lemma counter_skew (c t : Z) :
  (Z.abs (c - t) <= 30000)%Z ->
  (c / 1000 / 30 - 1 <= t / 1000 / 30 <= c / 1000 / 30 + 1)%Z.
Proof.
  intros Hskew. rewrite !Z.div_div by lia. cbn [Z.mul Pos.mul].
  zify. Z.to_euclidean_division_equations. lia.
Qed.

(** X4. [Totp.create] for an activated account with a 32-byte secret,
    a store that accepts the write and a QR code that renders: the
    answer carries the first drawn UUID that is not yet a TOTP
    credential of the account (the draws before it are all in use), the
    secret that the generator made and the data URL of the
    [otpauth://] URL; under that UUID the account's record now holds a
    blob that decrypts to the secret. *)
Theorem totp_create_enrolls (k s issuer label : jsstring) (w : World)
    (r : ApiKeyRecord) (key u dataUrl : string) (taken rest : list string) :
  account k s w = Some r ->
  s = Some key -> length (Base64.decode key) = 32 ->
  uuids w = (taken ++ u :: rest)%list ->
  forallb (fun t => present (default ∅ (totp r) !! t)) taken = true ->
  default ∅ (totp r) !! u = None ->
  let seed := base32_secret (map (random w) (seq (random_pos w) 32)) in
  toDataURL (enrollment_url issuer label seed) = inr dataUrl ->
  write_fault w = None ->
  exists blob w',
    Totp.create (Json:=Json) k s issuer label w
    = (Normal (Success (TotpCreated u seed dataUrl)), w')
    /\ decrypts_to blob s seed
    /\ table w'
       = <[record_id r :=
             Totp.set_totp (<[u := mkTotpEntry (Text blob)]> (default ∅ (totp r))) r]>
           (table w)
    /\ read_fault w' = read_fault w
    /\ clock w' = clock w.
Proof. exact (totp_create_run k s issuer label w r key u dataUrl taken rest). Qed.

(** X5. A credential made by [Totp.create] is accepted by
    [Totp.validate]: at any later clock [c], the code that the
    generator gives for the time step of a device time [t] within 30
    seconds of [c] is answered Valid. *)
Theorem totp_create_then_validate (k s issuer label : jsstring) (w : World)
    (r : ApiKeyRecord) (key u dataUrl : string) (taken rest : list string)
    (code : string) (c t : Z) :
  store_keyed w ->
  account k s w = Some r ->
  s = Some key -> length (Base64.decode key) = 32 ->
  uuids w = (taken ++ u :: rest)%list ->
  forallb (fun t => present (default ∅ (totp r) !! t)) taken = true ->
  default ∅ (totp r) !! u = None ->
  let seed := base32_secret (map (random w) (seq (random_pos w) 32)) in
  toDataURL (enrollment_url issuer label seed) = inr dataUrl ->
  write_fault w = None ->
  u <> "" -> code <> "" ->
  code = hotp seed (t / 1000 / 30) ->
  (Z.abs (c - t) <= 30000)%Z ->
  let w' := (Totp.create (Json:=Json) k s issuer label w).2 in
  (Totp.validate (Json:=Json) k s (Some u) (Some code) (with_clock c w')).1
  = Normal (Success (Message "Valid" 200)).
Proof.
  intros Hkeyed Hacc Hs Hkey Hdraws Htaken Hfree seed Hqr Hwrite Hu Hcode Heq Hskew w'.
  destruct (totp_create_run k s issuer label w r key u dataUrl taken rest
              Hacc Hs Hkey Hdraws Htaken Hfree Hqr Hwrite)
    as (blob & w1 & Hrun & Hdec & Htable & Hread & Hclock).
  subst w'. rewrite Hrun. cbn [snd].
  assert (Htruthy : truthy (Some code) = true).
  { cbn [truthy]. apply String.eqb_neq in Hcode. now rewrite Hcode. }
  set (entry := mkTotpEntry (Text blob)).
  set (r' := Totp.set_totp (<[u := entry]> (default ∅ (totp r))) r) in *.
  assert (Hchain : totp_chain k s (Some u) (with_clock c w1) = Some (r', entry)).
  { apply (totp_chain_after_create k s w (with_clock c w1) r u entry Hkeyed Hacc);
      [exact Htable | exact Hread | exact Hu]. }
  rewrite (validate_accepts k s (Some u) (Some code) (with_clock c w1) r'
             entry blob seed (t / 1000 / 30) Hchain Htruthy eq_refl Hdec Heq);
    [reflexivity|].
  unfold Totp.counter. cbn [clock with_clock]. apply counter_skew. exact Hskew.
Qed.

(** X6. [Totp.validate] tolerates a clock skew of 30 seconds: the
    code of the time step of any device time [t] with
    [|clock - t| <= 30000] milliseconds is answered Valid. *)
Theorem validate_tolerates_clock_skew (k s uuid code : jsstring) (w : World)
    (r : ApiKeyRecord) (entry : TotpEntry) (blob seed : string) (t : Z) :
  totp_chain k s uuid w = Some (r, entry) ->
  truthy code = true ->
  encryptedTotpKey entry = Text blob ->
  decrypts_to blob s seed ->
  to_String code = hotp seed (t / 1000 / 30) ->
  (Z.abs (clock w - t) <= 30000)%Z ->
  (Totp.validate (Json:=Json) k s uuid code w).1
  = Normal (Success (Message "Valid" 200)).
Proof.
  intros Hchain Hcode Hblob Hdec Heq Hskew.
  rewrite (validate_accepts k s uuid code w r entry blob seed (t / 1000 / 30)
             Hchain Hcode Hblob Hdec Heq); [reflexivity|].
  unfold Totp.counter. apply counter_skew. exact Hskew.
Qed.

(** X7. A stored TOTP seed that is not a two-piece blob makes
    [Totp.validate] answer status 500 with the text "Error validating
    TOTP code."; the store is unchanged. *)
Theorem validate_undecryptable_seed (k s uuid code : jsstring) (w : World)
    (r : ApiKeyRecord) (entry : TotpEntry) (blob : string) :
  totp_chain k s uuid w = Some (r, entry) ->
  truthy code = true ->
  encryptedTotpKey entry = Text blob ->
  blob <> "" ->
  length (Encryption.split ":" blob) <> 2 ->
  (Totp.validate (Json:=Json) k s uuid code w).1
  = Normal (Failure 500 "Error validating TOTP code.")
  /\ unchanged w (Totp.validate (Json:=Json) k s uuid code w).2.
Proof.
  unfold totp_chain. intros Hchain Hcode Hblob Hne Hsplit.
  destruct (account k s w) as [r'|] eqn:Hacc; [|discriminate].
  destruct (account_some_inv k s w r' Hacc) as (Hk & Hs & Hr & Hrec & Hactive).
  destruct (truthy uuid) eqn:Huuid; [|discriminate].
  destruct (Totp.totp_entry r' uuid) as [entry'|] eqn:Hentry; [|discriminate].
  injection Hchain as <- <-.
  unfold Totp.validate, getApiKeyByValue, isAlreadyActivated.
  rewrite Hk, Hs, Huuid, Hcode. js. rewrite Hr, Hrec, Hactive. js.
  rewrite Hentry, Hblob. cbn [field_truthy field_text].
  apply String.eqb_neq in Hne. rewrite Hne. js.
  rewrite (decrypt_malformed blob s Hsplit). js.
  split; [reflexivity | split; reflexivity].
Qed.

End TotpExtras.

(** ** More on models/u2f.js *)

Lemma store_keyed_after_update (w w' : World) (r r' : ApiKeyRecord) :
  store_keyed w ->
  table w' = <[record_id r := r']> (table w) ->
  record_id r' = record_id r ->
  store_keyed w'.
Proof.
  intros Hkeyed Htable Hid k0 r0 Hk0. rewrite Htable in Hk0.
  destruct (decide (record_id r = k0)) as [<-|Hne].
  - rewrite lookup_insert_eq in Hk0. now injection Hk0 as <-.
  - rewrite lookup_insert_ne in Hk0 by exact Hne. now apply Hkeyed.
Qed.

Section U2fExtras.
Context `{Crypto} `{U2fLib}.

Lemma createAuthentication_run (k s uuid : jsstring) (w : World)
    (r : ApiKeyRecord) (entry : U2fEntry) (ab appId kb kh : string) :
  u2f_chain k s uuid w = Some (r, entry) ->
  encryptedAppId entry = Text ab -> decrypts_to ab s appId ->
  encryptedKeyHandle entry = Text kb -> decrypts_to kb s kh ->
  write_fault w = None ->
  let request := authentication_request appId kh w in
  exists blob w',
    U2f.createAuthentication k s uuid w
    = (Normal (Success (U2fAuthenticationCreated uuid
                          (Json_get request "version") (Json_get request "challenge")
                          (Some appId) (Some kh))), w')
    /\ decrypts_to blob s (JSON_stringify request)
    /\ table w'
       = <[record_id r :=
             U2f.set_u2f_entry uuid
               (U2f.set_encryptedAuthenticationRequest (Text blob) entry) r]> (table w)
    /\ read_fault w' = read_fault w
    /\ write_fault w' = write_fault w.
Proof.
  intros Hchain Hab Hdab Hkb Hdkb Hwrite request.
  destruct (decrypts_to_key _ _ _ Hdab) as (key & -> & Hkey).
  unfold U2f.createAuthentication. enter_u2f Hchain.
  rewrite Hab, (decrypts_to_truthy _ _ _ Hdab). js.
  cbn [field_text]. rewrite Hdab. js.
  rewrite Hkb, (decrypts_to_truthy _ _ _ Hdkb). js.
  cbn [field_text]. rewrite Hdkb. js.
  unfold U2f.request, randomBytes. js. cbn [random random_pos log with_console].
  fold (authentication_request appId kh w). fold request.
  match goal with |- context [Encryption.encrypt (Some ?t) (Some key) ?w1] =>
    destruct (encrypt_then_decrypt t key w1 Hkey) as (blob & -> & Hdec) end.
  js. unfold updateApiKeyRecord. cbn [write_fault log with_console with_random_pos].
  rewrite Hwrite. js.
  exists blob. eexists. split; [reflexivity|]. split; [exact Hdec|].
  cbn [table read_fault write_fault log with_console with_store with_random_pos].
  auto.
Qed.

(** X8. [createAuthentication] on a registered credential answers
    with the UUID, the version and challenge of a request made from 32
    fresh random bytes, and the decrypted application id and key
    handle; the credential's stored authentication request is replaced
    by a blob that decrypts to that request, and no other field of the
    credential changes. *)
Theorem createAuthentication_issues_challenge (k s uuid : jsstring) (w : World)
    (r : ApiKeyRecord) (entry : U2fEntry) (ab appId kb kh : string) :
  u2f_chain k s uuid w = Some (r, entry) ->
  encryptedAppId entry = Text ab -> decrypts_to ab s appId ->
  encryptedKeyHandle entry = Text kb -> decrypts_to kb s kh ->
  write_fault w = None ->
  let request := authentication_request appId kh w in
  exists blob w',
    U2f.createAuthentication k s uuid w
    = (Normal (Success (U2fAuthenticationCreated uuid
                          (Json_get request "version") (Json_get request "challenge")
                          (Some appId) (Some kh))), w')
    /\ decrypts_to blob s (JSON_stringify request)
    /\ table w'
       = <[record_id r :=
             U2f.set_u2f_entry uuid
               (U2f.set_encryptedAuthenticationRequest (Text blob) entry) r]> (table w)
    /\ read_fault w' = read_fault w
    /\ write_fault w' = write_fault w.
Proof. exact (createAuthentication_run k s uuid w r entry ab appId kb kh). Qed.

(** X9. A credential without a key handle (one whose registration was
    never completed) cannot start an authentication:
    [createAuthentication] answers status 500 and the store is
    unchanged. *)
Theorem createAuthentication_requires_key_handle (k s uuid : jsstring) (w : World)
    (r : ApiKeyRecord) (entry : U2fEntry) (ab appId : string) :
  u2f_chain k s uuid w = Some (r, entry) ->
  encryptedAppId entry = Text ab -> decrypts_to ab s appId ->
  field_truthy (encryptedKeyHandle entry) = false ->
  (U2f.createAuthentication k s uuid w).1
  = Normal (Failure 500 "Internal Server Error")
  /\ unchanged w (U2f.createAuthentication k s uuid w).2.
Proof.
  intros Hchain Hab Hdab Hkh.
  unfold U2f.createAuthentication. enter_u2f Hchain.
  rewrite Hab, (decrypts_to_truthy _ _ _ Hdab). js.
  cbn [field_text]. rewrite Hdab. js. rewrite Hkh. js.
  split; [reflexivity | split; reflexivity].
Qed.

(** X10. A challenge issued by [createAuthentication] is checked by the
    next [validateAuthentication] against the stored public key: a
    rejected proof is answered 400 with the checker's message and
    the store keeps its content; an accepted proof is answered Valid, and
    after it every further [validateAuthentication] on the credential
    is refused. *)
Theorem authentication_cycle (k s uuid : jsstring) (w : World)
    (r : ApiKeyRecord) (entry : U2fEntry) (ab appId kb kh pkb pk stext : string)
    (jreq jsig : Json) :
  store_keyed w ->
  u2f_chain k s uuid w = Some (r, entry) ->
  encryptedAppId entry = Text ab -> decrypts_to ab s appId ->
  encryptedKeyHandle entry = Text kb -> decrypts_to kb s kh ->
  encryptedPublicKey entry = Text pkb -> decrypts_to pkb s pk ->
  write_fault w = None ->
  JSON_parse (JSON_stringify (authentication_request appId kh w)) = Some jreq ->
  JSON_parse stext = Some jsig ->
  let w1 := (U2f.createAuthentication k s uuid w).2 in
  let w2 := (U2f.validateAuthentication k s uuid (Some stext) w1).2 in
  if truthy (signature_errorMessage (u2f_checkSignature jreq jsig (Some pk))) then
    (U2f.validateAuthentication k s uuid (Some stext) w1).1
    = Normal (Failure 400
                (to_String (signature_errorMessage
                              (u2f_checkSignature jreq jsig (Some pk)))))
    /\ table w2 = table w1
  else
    (U2f.validateAuthentication k s uuid (Some stext) w1).1
    = Normal (Success (Message "Valid" 200))
    /\ forall again,
         refused (U2f.validateAuthentication k s uuid again w2).1.
Proof.
  intros Hkeyed Hchain Hab Hdab Hkb Hdkb Hpk Hdpk Hwrite Hjreq Hjsig w1 w2.
  destruct (createAuthentication_run k s uuid w r entry ab appId kb kh
              Hchain Hab Hdab Hkb Hdkb Hwrite)
    as (blob & w' & Hrun & Hdec & Htable & Hread & Hwf).
  subst w2 w1. rewrite Hrun. cbn [snd].
  set (entry1 := U2f.set_encryptedAuthenticationRequest (Text blob) entry) in *.
  set (r1 := U2f.set_u2f_entry uuid entry1 r) in *.
  pose proof (u2f_chain_after_update k s uuid w w' r entry entry1 Hkeyed Hchain
                Htable Hread) as Hchain1.
  fold r1 in Hchain1.
  rewrite (validateAuthentication_checked k s uuid (Some stext) w' r1 entry1 blob
             (JSON_stringify (authentication_request appId kh w)) pkb pk stext
             jreq jsig Hchain1 eq_refl Hdec Hpk Hdpk Hjreq eq_refl Hjsig).
  rewrite Hwf, Hwrite.
  destruct (truthy (signature_errorMessage _)); cbn [fst snd].
  - split; reflexivity.
  - split; [reflexivity|]. intros again.
    assert (Hkeyed1 : store_keyed w')
      by (apply (store_keyed_after_update w w' r r1 Hkeyed Htable); reflexivity).
    match goal with |- refused (U2f.validateAuthentication k s uuid again ?w3).1 =>
      assert (Hchain2 : u2f_chain k s uuid w3
                        = Some (U2f.set_u2f_entry uuid
                                  (U2f.set_encryptedAuthenticationRequest (Text " ") entry1)
                                  r1,
                                U2f.set_encryptedAuthenticationRequest (Text " ") entry1))
        by (apply (u2f_chain_after_update k s uuid w' w3 r1 entry1 _ Hkeyed1 Hchain1);
            reflexivity)
    end.
    rewrite (validateAuthentication_spent k s uuid again _ _ _ Hchain2 eq_refl).
    do 2 eexists. reflexivity.
Qed.

Lemma delete_run (k s uuid : jsstring) (w : World) (r : ApiKeyRecord) (entry : U2fEntry) :
  u2f_chain k s uuid w = Some (r, entry) ->
  write_fault w = None ->
  U2f.delete k s uuid w
  = (Normal (Success NoBody),
     log ("Successfully deleted U2F for uuid: " ++ to_String uuid)
       (with_store (<[record_id r := U2f.delete_u2f_entry uuid r]> (table w))
          (U2f.delete_u2f_entry uuid r :: updates w)
          (log ("Begin deleting U2F for uuid: " ++ to_String uuid) w))).
Proof.
  intros Hchain Hwrite. unfold U2f.delete. enter_u2f Hchain.
  unfold updateApiKeyRecord. cbn [write_fault log with_console]. rewrite Hwrite. js.
  reflexivity.
Qed.

Lemma u2f_not_found (k s uuid : jsstring) (w : World) (r : ApiKeyRecord) :
  account k s w = Some r ->
  truthy uuid = true ->
  U2f.u2f_entry r uuid = None ->
  (U2f.createAuthentication k s uuid w).1 = not_found
  /\ (U2f.delete k s uuid w).1 = not_found
  /\ (forall signResult, (U2f.validateAuthentication k s uuid signResult w).1 = not_found)
  /\ (forall signResult, (U2f.validateRegistration k s uuid signResult w).1 = not_found).
Proof.
  intros Hacc Huuid Hentry.
  repeat split; intros;
    unfold U2f.createAuthentication, U2f.delete, U2f.validateAuthentication,
      U2f.validateRegistration; js;
    match goal with
    | |- context [getActivatedApiKey ?k ?s _ ?w'] =>
        rewrite (getActivatedApiKey_some k s w' _ Hacc)
    end; js; rewrite Huuid; js; rewrite Hentry; js; reflexivity.
Qed.

(** X11. [delete] on an existing credential with a store that accepts
    the write answers success; afterwards the account has no
    credential under that UUID, every other U2F credential of the
    account is as before, and all four operations on the UUID answer
    status 404. *)
Theorem delete_removes_credential (k s uuid : jsstring) (w : World)
    (r : ApiKeyRecord) (entry : U2fEntry) :
  store_keyed w ->
  u2f_chain k s uuid w = Some (r, entry) ->
  write_fault w = None ->
  let w' := (U2f.delete k s uuid w).2 in
  (U2f.delete k s uuid w).1 = Normal (Success NoBody)
  /\ account k s w' = Some (U2f.delete_u2f_entry uuid r)
  /\ U2f.u2f_entry (U2f.delete_u2f_entry uuid r) uuid = None
  /\ (forall other, to_String other <> to_String uuid ->
        U2f.u2f_entry (U2f.delete_u2f_entry uuid r) other = U2f.u2f_entry r other)
  /\ (U2f.createAuthentication k s uuid w').1 = not_found
  /\ (U2f.delete k s uuid w').1 = not_found
  /\ (forall signResult, (U2f.validateAuthentication k s uuid signResult w').1 = not_found)
  /\ (forall signResult, (U2f.validateRegistration k s uuid signResult w').1 = not_found).
Proof.
  intros Hkeyed Hchain Hwrite w'. subst w'.
  rewrite (delete_run k s uuid w r entry Hchain Hwrite). cbn [fst snd].
  destruct (u2f_chain_some _ _ _ _ _ _ Hchain) as (Hacc & Huuid & Hentry).
  assert (Hgone : U2f.u2f_entry (U2f.delete_u2f_entry uuid r) uuid = None).
  { unfold U2f.u2f_entry.
    cbn [U2f.delete_u2f_entry U2f.set_u2f u2f mbind option_bind].
    apply lookup_delete_eq. }
  match goal with |- _ /\ account k s ?w1 = _ /\ _ =>
    assert (Hacc' : account k s w1 = Some (U2f.delete_u2f_entry uuid r))
      by (apply (account_after_update k s w w1 r _ Hkeyed Hacc); reflexivity)
  end.
  split; [reflexivity|]. split; [exact Hacc'|]. split; [exact Hgone|].
  split.
  - intros other Hother. unfold U2f.u2f_entry.
    cbn [U2f.delete_u2f_entry U2f.set_u2f u2f mbind option_bind].
    rewrite lookup_delete_ne by congruence.
    destruct (u2f r) as [m|] eqn:Hm; cbn [from_option id mbind option_bind];
      [reflexivity | apply lookup_empty].
  - exact (u2f_not_found k s uuid _ _ Hacc' Huuid Hgone).
Qed.

Lemma validateRegistration_run (k s uuid : jsstring) (signResult : option Json)
    (w : World) (r : ApiKeyRecord) (entry : U2fEntry) (blob text pk kh : string)
    (jreq : Json) :
  u2f_chain k s uuid w = Some (r, entry) ->
  encryptedRegistrationRequest entry = Text blob ->
  decrypts_to blob s text ->
  JSON_parse text = Some jreq ->
  truthy (registration_errorMessage (u2f_checkRegistration jreq signResult)) = false ->
  publicKey (u2f_checkRegistration jreq signResult) = Some pk ->
  keyHandle (u2f_checkRegistration jreq signResult) = Some kh ->
  write_fault w = None ->
  exists pkb khb w',
    U2f.validateRegistration k s uuid signResult w = (Normal (Success NoBody), w')
    /\ decrypts_to pkb s pk /\ decrypts_to khb s kh
    /\ table w'
       = <[record_id r := U2f.set_u2f_entry uuid (registered_entry pkb khb entry) r]>
           (table w)
    /\ read_fault w' = read_fault w
    /\ write_fault w' = write_fault w.
Proof.
  intros Hchain Hreq Hdec Hjreq Herr Hpk Hkh Hwrite.
  destruct (decrypts_to_key _ _ _ Hdec) as (key & -> & Hkey).
  unfold U2f.validateRegistration. enter_u2f Hchain.
  rewrite Hreq, (decrypts_to_truthy _ _ _ Hdec). js.
  cbn [field_text]. rewrite Hdec. js.
  unfold U2f.JSON_parse_or_throw. rewrite Hjreq. js.
  rewrite Herr, Hpk, Hkh. js.
  match goal with |- context [Encryption.encrypt (Some pk) (Some key) ?w1] =>
    destruct (encrypt_then_decrypt pk key w1 Hkey) as (b1 & -> & Hb1) end.
  js.
  match goal with |- context [Encryption.encrypt (Some kh) (Some key) ?w1] =>
    destruct (encrypt_then_decrypt kh key w1 Hkey) as (b2 & -> & Hb2) end.
  js. unfold updateApiKeyRecord. cbn [write_fault log with_console with_random_pos].
  rewrite Hwrite. js.
  exists b1, b2. eexists. split; [reflexivity|].
  split; [exact Hb1|]. split; [exact Hb2|].
  cbn [table read_fault write_fault log with_console with_store with_random_pos].
  auto.
Qed.

(** X12. When the registration check accepts the proof,
    [validateRegistration] answers success and the credential becomes
    registered: its registration request is cleared and it holds blobs
    that decrypt to the public key and the key handle that the check
    returned.  A following [createAuthentication] answers with the
    application id and that key handle. *)
Theorem registration_enables_authentication (k s uuid : jsstring)
    (signResult : option Json) (w : World) (r : ApiKeyRecord) (entry : U2fEntry)
    (blob text pk kh ab appId : string) (jreq : Json) :
  store_keyed w ->
  u2f_chain k s uuid w = Some (r, entry) ->
  encryptedRegistrationRequest entry = Text blob ->
  decrypts_to blob s text ->
  JSON_parse text = Some jreq ->
  truthy (registration_errorMessage (u2f_checkRegistration jreq signResult)) = false ->
  publicKey (u2f_checkRegistration jreq signResult) = Some pk ->
  keyHandle (u2f_checkRegistration jreq signResult) = Some kh ->
  encryptedAppId entry = Text ab -> decrypts_to ab s appId ->
  write_fault w = None ->
  let w1 := (U2f.validateRegistration k s uuid signResult w).2 in
  let request := authentication_request appId kh w1 in
  (U2f.validateRegistration k s uuid signResult w).1 = Normal (Success NoBody)
  /\ (exists r1 pkb khb,
        u2f_chain k s uuid w1 = Some (r1, registered_entry pkb khb entry)
        /\ decrypts_to pkb s pk /\ decrypts_to khb s kh)
  /\ (U2f.createAuthentication k s uuid w1).1
     = Normal (Success (U2fAuthenticationCreated uuid
                          (Json_get request "version") (Json_get request "challenge")
                          (Some appId) (Some kh))).
Proof.
  intros Hkeyed Hchain Hreq Hdec Hjreq Herr Hpk Hkh Hab Hdab Hwrite w1 request.
  destruct (validateRegistration_run k s uuid signResult w r entry blob text pk kh
              jreq Hchain Hreq Hdec Hjreq Herr Hpk Hkh Hwrite)
    as (pkb & khb & w' & Hrun & Hdpk & Hdkh & Htable & Hread & Hwf).
  subst request w1. rewrite Hrun. cbn [fst snd].
  pose proof (u2f_chain_after_update k s uuid w w' r entry _ Hkeyed Hchain
                Htable Hread) as Hchain1.
  split; [reflexivity|]. split; [eauto 10|].
  destruct (createAuthentication_run k s uuid w' _ _ ab appId khb kh
              Hchain1 Hab Hdab eq_refl Hdkh)
    as (b & w2 & -> & _); [congruence|reflexivity].
Qed.


End U2fExtras.

(** ** The life of a U2F credential *)


Section U2fLifecycle.
Context `{Crypto} `{U2fLib}.



(** X15. A stored application id, registration request or
    authentication request that is not a two-piece blob is answered
    status 500 "Internal Server Error" by the operation that reads it
    ([createAuthentication], [validateRegistration],
    [validateAuthentication]), and the store is unchanged. *)
Theorem undecryptable_u2f_blob (k s uuid : jsstring) (w : World)
    (r : ApiKeyRecord) (entry : U2fEntry) (blob : string) :
  u2f_chain k s uuid w = Some (r, entry) ->
  blob <> "" ->
  length (Encryption.split ":" blob) <> 2 ->
  let failure := Normal (Failure 500 "Internal Server Error") in
  (encryptedAppId entry = Text blob ->
   (U2f.createAuthentication k s uuid w).1 = failure
   /\ unchanged w (U2f.createAuthentication k s uuid w).2)
  /\ (encryptedRegistrationRequest entry = Text blob ->
      forall signResult,
        (U2f.validateRegistration k s uuid signResult w).1 = failure
        /\ unchanged w (U2f.validateRegistration k s uuid signResult w).2)
  /\ (encryptedAuthenticationRequest entry = Text blob ->
      forall signResult,
        (U2f.validateAuthentication k s uuid signResult w).1 = failure
        /\ unchanged w (U2f.validateAuthentication k s uuid signResult w).2).
Proof.
  intros Hchain Hne Hsplit failure.
  apply String.eqb_neq in Hne.
  split; [|split].
  - intros Hblob. unfold U2f.createAuthentication. enter_u2f Hchain.
    rewrite Hblob. cbn [field_truthy field_text]. rewrite Hne. js.
    rewrite (decrypt_malformed blob s Hsplit). js.
    split; [reflexivity | split; reflexivity].
  - intros Hblob signResult. unfold U2f.validateRegistration. enter_u2f Hchain.
    rewrite Hblob. cbn [field_truthy field_text]. rewrite Hne. js.
    rewrite (decrypt_malformed blob s Hsplit). js.
    split; [reflexivity | split; reflexivity].
  - intros Hblob signResult. unfold U2f.validateAuthentication. enter_u2f Hchain.
    rewrite Hblob. cbn [field_truthy field_text]. rewrite Hne. js.
    rewrite (decrypt_malformed blob s Hsplit). js.
    split; [reflexivity | split; reflexivity].
Qed.

(** X16. A second [createAuthentication] replaces the challenge of the
    first: the following [validateAuthentication] is decided by the
    signature check against the second request alone. *)
Theorem new_challenge_replaces_old (k s uuid : jsstring) (w : World)
    (r : ApiKeyRecord) (entry : U2fEntry) (ab appId kb kh pkb pk stext : string)
    (jreq jsig : Json) :
  store_keyed w ->
  u2f_chain k s uuid w = Some (r, entry) ->
  encryptedAppId entry = Text ab -> decrypts_to ab s appId ->
  encryptedKeyHandle entry = Text kb -> decrypts_to kb s kh ->
  encryptedPublicKey entry = Text pkb -> decrypts_to pkb s pk ->
  write_fault w = None ->
  let w1 := (U2f.createAuthentication k s uuid w).2 in
  let w2 := (U2f.createAuthentication k s uuid w1).2 in
  JSON_parse (JSON_stringify (authentication_request appId kh w1)) = Some jreq ->
  JSON_parse stext = Some jsig ->
  (U2f.validateAuthentication k s uuid (Some stext) w2).1
  = if truthy (signature_errorMessage (u2f_checkSignature jreq jsig (Some pk))) then
      Normal (Failure 400
                (to_String (signature_errorMessage
                              (u2f_checkSignature jreq jsig (Some pk)))))
    else Normal (Success (Message "Valid" 200)).
Proof.
  intros Hkeyed Hchain Hab Hdab Hkb Hdkb Hpk Hdpk Hwrite w1 w2 Hjreq Hjsig.
  destruct (createAuthentication_run k s uuid w r entry ab appId kb kh
              Hchain Hab Hdab Hkb Hdkb Hwrite)
    as (blob & w' & Hrun & _ & Htable & Hread & Hwf).
  assert (Hw1 : w1 = w') by (subst w1; now rewrite Hrun).
  subst w2. rewrite Hw1 in *. clear Hw1 w1.
  set (entry1 := U2f.set_encryptedAuthenticationRequest (Text blob) entry) in *.
  set (r1 := U2f.set_u2f_entry uuid entry1 r) in *.
  pose proof (u2f_chain_after_update k s uuid w w' r entry entry1 Hkeyed Hchain
                Htable Hread) as Hchain1.
  fold r1 in Hchain1.
  assert (Hkeyed1 : store_keyed w')
    by (apply (store_keyed_after_update w w' r r1 Hkeyed Htable); reflexivity).
  destruct (createAuthentication_run k s uuid w' r1 entry1 ab appId kb kh
              Hchain1 Hab Hdab Hkb Hdkb)
    as (blob2 & w'' & Hrun2 & Hdec2 & Htable2 & Hread2 & Hwf2); [congruence|].
  rewrite Hrun2. cbn [snd].
  set (entry2 := U2f.set_encryptedAuthenticationRequest (Text blob2) entry1) in *.
  pose proof (u2f_chain_after_update k s uuid w' w'' r1 entry1 entry2 Hkeyed1 Hchain1
                Htable2 Hread2) as Hchain2.
  rewrite (validateAuthentication_checked k s uuid (Some stext) w'' _ entry2 blob2
             (JSON_stringify (authentication_request appId kh w')) pkb pk stext
             jreq jsig Hchain2 eq_refl Hdec2 Hpk Hdpk Hjreq eq_refl Hjsig).
  rewrite Hwf2, Hwf, Hwrite.
  destruct (truthy (signature_errorMessage _)); reflexivity.
Qed.

End U2fLifecycle.

(** ** Requests in sequence *)

Section RequestFacts.
Context `{Crypto} `{Speakeasy} `{QrCode} `{U2fLib}.

Lemma u2f_settled_success (k s uuid : jsstring) (w : World)
    (outcome : Completion (Response Json) * World) :
  u2f_settled k s uuid w outcome ->
  succeeded outcome.1 = true ->
  exists r,
    account k s w = Some r /\ write_fault w = None
    /\ exists r', wrote w outcome.2 r r'
                  /\ is_Some (U2f.u2f_entry r uuid)
                  /\ same_but_u2f (to_String uuid) r r'.
Proof.
  unfold u2f_settled. intros Hs Hok. rewrite Hok in Hs.
  destruct Hs as (r & entry & r' & Hchain & Hwrite & Hwrote & Hsame).
  destruct (u2f_chain_some _ _ _ _ _ _ Hchain) as (Hacc & Huuid & Hentry).
  exists r. split; [exact Hacc|]. split; [exact Hwrite|].
  exists r'. split; [exact Hwrote|]. split; [now exists entry | exact Hsame].
Qed.

Lemma u2f_settled_failure (k s uuid : jsstring) (w : World)
    (outcome : Completion (Response Json) * World) :
  u2f_settled k s uuid w outcome ->
  succeeded outcome.1 = false -> untouched w outcome.2.
Proof. unfold u2f_settled. intros Hs Hfail. now rewrite Hfail in Hs. Qed.

Lemma perform_failure (op : Operation Json) (w : World) :
  succeeded (perform op w).1 = false -> untouched w (perform op w).2.
Proof.
  destruct op as [k s appId | k s appId | k s uuid signResult | k s uuid
                 | k s uuid signResult | k s uuid | k s issuer label
                 | k s uuid code]; cbn [perform].
  - intros _. split; [reflexivity | intros _; reflexivity].
  - intros Hfail.
    pose proof (createRegistration_callback_settled k s appId w) as Hs.
    unfold registration_settled in Hs. now rewrite Hfail in Hs.
  - exact (u2f_settled_failure k s uuid w _ (validateRegistration_settled k s uuid signResult w)).
  - exact (u2f_settled_failure k s uuid w _ (createAuthentication_settled k s uuid w)).
  - exact (u2f_settled_failure k s uuid w _ (validateAuthentication_settled k s uuid signResult w)).
  - exact (u2f_settled_failure k s uuid w _ (delete_settled k s uuid w)).
  - intros Hfail. pose proof (totp_create_settled k s issuer label w) as Hs.
    unfold enrollment_settled in Hs. now rewrite Hfail in Hs.
  - intros _. destruct (logged_unchanged _ _ (validate_logged (Json:=Json) k s uuid code w))
      as (Ht & Hu).
    split; [exact Ht | intros _; exact Hu].
Qed.

Lemma perform_success (op : Operation Json) (w : World) :
  succeeded (perform op w).1 = true -> success_effect op w (perform op w).2.
Proof.
  unfold success_effect.
  destruct op as [k s appId | k s appId | k s uuid signResult | k s uuid
                 | k s uuid signResult | k s uuid | k s issuer label
                 | k s uuid code]; unfold caller; cbn [perform api_key api_secret credential_change].
  - discriminate.
  - intros Hok.
    pose proof (createRegistration_callback_settled k s appId w) as Hs.
    unfold registration_settled in Hs. rewrite Hok in Hs.
    destruct Hs as (r & r' & u & Hacc & Hwrite & Hwrote & Hfree & Hsame).
    eauto 10.
  - intros Hok.
    destruct (u2f_settled_success k s uuid w _
                (validateRegistration_settled k s uuid signResult w) Hok)
      as (r & Hacc & Hwrite & r' & Hrest).
    eauto 10.
  - intros Hok.
    destruct (u2f_settled_success k s uuid w _
                (createAuthentication_settled k s uuid w) Hok)
      as (r & Hacc & Hwrite & r' & Hrest).
    eauto 10.
  - intros Hok.
    destruct (u2f_settled_success k s uuid w _
                (validateAuthentication_settled k s uuid signResult w) Hok)
      as (r & Hacc & Hwrite & r' & Hrest).
    eauto 10.
  - intros Hok.
    destruct (u2f_settled_success k s uuid w _ (delete_settled k s uuid w) Hok)
      as (r & Hacc & Hwrite & r' & Hrest).
    eauto 10.
  - intros Hok. pose proof (totp_create_settled k s issuer label w) as Hs.
    unfold enrollment_settled in Hs. rewrite Hok in Hs.
    destruct Hs as (r & r' & u & Hacc & Hwrite & Hwrote & Hfree & Hsame).
    eauto 10.
  - intros Hok.
    destruct (totp_chain k s uuid w) as [[r entry]|] eqn:Hchain.
    + unfold totp_chain in Hchain.
      destruct (account k s w) as [r0|]; [|discriminate].
      exists r0. split; [reflexivity|].
      exact (logged_unchanged _ _ (validate_logged (Json:=Json) k s uuid code w)).
    + destruct (totp_validate_refused (H2:=H2) k s uuid code w Hchain)
        as ((status & text & Hrefused) & _).
      rewrite Hrefused in Hok. discriminate.
Qed.

Lemma credential_change_id (op : Operation Json) (r r' : ApiKeyRecord) :
  credential_change op r r' -> record_id r' = record_id r.
Proof.
  destruct op; cbn [credential_change];
    first [ contradiction
          | intros (u & _ & Hid & _); exact Hid
          | intros (_ & Hid & _); exact Hid ].
Qed.

Lemma credential_change_invariant (op : Operation Json) (w : World)
    (r r' : ApiKeyRecord) :
  match op with
  | RegistrationCallback _ _ _ | ValidateRegistration _ _ _ _
  | CreateAuthentication _ _ _ | ValidateAuthentication _ _ _ _
  | Delete _ _ _ | CreateRegistration _ _ _ => True
  | TotpCreate _ _ _ _ | TotpValidate _ _ _ _ =>
      credential_change op r r' -> record_invariant r -> record_invariant r'
  end.
Proof.
  destruct op; cbn [credential_change]; try exact I; try contradiction.
  intros (u & _ & _ & _ & Hu2f & _) Hrec m uuid e Hm He.
  rewrite Hu2f in Hm. exact (Hrec m uuid e Hm He).
Qed.

Lemma perform_keeps_keyed (op : Operation Json) (w : World) :
  store_keyed w -> store_keyed (perform op w).2.
Proof.
  intros Hkeyed.
  destruct (succeeded (perform op w).1) eqn:Hok.
  - destruct (perform_success op w Hok) as (r & Hcaller & Heffect).
    assert (Hcases : table (perform op w).2 = table w
                     \/ exists r', wrote w (perform op w).2 r r'
                                   /\ credential_change op r r').
    { destruct op; try (right; exact (proj2 Heffect)).
      left. exact (proj1 Heffect). }
    destruct Hcases as [Htable | (r' & (Htable & _) & Hchange)].
    + intros k0 r0 Hk0. rewrite Htable in Hk0. now apply Hkeyed.
    + apply (store_keyed_after_update w _ r r' Hkeyed Htable).
      exact (credential_change_id op r r' Hchange).
  - destruct (perform_failure op w Hok) as (Htable & _).
    intros k0 r0 Hk0. rewrite Htable in Hk0. now apply Hkeyed.
Qed.

Lemma totp_create_invariant (k s issuer label : jsstring) (w : World) :
  store_invariant w ->
  store_invariant (Totp.create (Json:=Json) k s issuer label w).2.
Proof.
  intros Hinv. pose proof (totp_create_settled k s issuer label w) as Hs.
  unfold enrollment_settled in Hs.
  destruct (succeeded (Totp.create k s issuer label w).1).
  - destruct Hs as (r & r' & u & Hacc & _ & (Htable & _) & _ & (_ & _ & Hu2f & _)).
    apply (store_invariant_insert w _ (record_id r) r' Hinv); [|exact Htable].
    intros m uuid e Hm He. rewrite Hu2f in Hm.
    exact (store_invariant_record w _ r Hinv (account_in_table _ _ _ _ Hacc)
             m uuid e Hm He).
  - destruct Hs as (Htable & _). exact (store_invariant_same_table _ _ Htable Hinv).
Qed.

Lemma perform_keeps_invariant (op : Operation Json) (w : World) :
  store_invariant w -> store_invariant (perform op w).2.
Proof.
  intros Hinv.
  destruct op as [k s appId | k s appId | k s uuid signResult | k s uuid
                 | k s uuid signResult | k s uuid | k s issuer label
                 | k s uuid code]; cbn [perform].
  - exact Hinv.
  - now apply createRegistration_callback_invariant.
  - now apply validateRegistration_invariant.
  - now apply createAuthentication_invariant.
  - now apply validateAuthentication_invariant.
  - now apply delete_invariant.
  - now apply totp_create_invariant.
  - destruct (logged_unchanged _ _ (validate_logged (Json:=Json) k s uuid code w)) as (Ht & _).
    exact (store_invariant_same_table _ _ Ht Hinv).
Qed.

(** X17. Whatever sequence of requests is served and however each of
    them ends, a store whose records are filed under their own
    identifier and whose U2F credentials are each either pending or
    registered (never both, never neither) stays such a store. *)
Theorem requests_keep_store_invariants (ops : list (Operation Json)) (w : World) :
  store_keyed w -> store_invariant w ->
  store_keyed (perform_all ops w) /\ store_invariant (perform_all ops w).
Proof.
  revert w. induction ops as [|op ops IH]; intros w Hkeyed Hinv; cbn [perform_all].
  - split; assumption.
  - apply IH; [now apply perform_keeps_keyed | now apply perform_keeps_invariant].
Qed.

(** X18. A request that is not answered with success (a failure
    status or an exception) leaves the content of the store as it was;
    if the store accepts writes, no record was handed to
    [updateApiKeyRecord] at all. *)
Theorem failed_request_leaves_store (op : Operation Json) (w : World) :
  succeeded (perform op w).1 = false -> untouched w (perform op w).2.
Proof. exact (perform_failure op w). Qed.

(** X19. A request answered with success was made by an activated
    account.  [Totp.validate] wrote nothing; every other request wrote
    exactly one record, the caller's own, to a store that accepts
    writes, and the record differs from the one read at one credential
    only: the U2F credential addressed, or a U2F or TOTP credential
    under a UUID that was free.  The other kind of credentials, the identifier and
    the activation are as they were. *)
Theorem successful_request_writes_one_credential (op : Operation Json) (w : World) :
  succeeded (perform op w).1 = true -> success_effect op w (perform op w).2.
Proof. exact (perform_success op w). Qed.

Lemma perform_other_account (op : Operation Json) (w : World) (other : string) :
  store_keyed w ->
  to_String (api_key op) <> other ->
  table (perform op w).2 !! other = table w !! other.
Proof.
  intros Hkeyed Hother.
  destruct (succeeded (perform op w).1) eqn:Hok.
  - destruct (perform_success op w Hok) as (r & Hcaller & Heffect).
    assert (Hcases : table (perform op w).2 = table w
                     \/ exists r', wrote w (perform op w).2 r r').
    { destruct op; try (right; destruct Heffect as (_ & r' & Hwrote & _); eauto).
      left. exact (proj1 Heffect). }
    destruct Hcases as [-> | (r' & -> & _)]; [reflexivity|].
    apply lookup_insert_ne.
    rewrite (Hkeyed _ _ (account_in_table _ _ _ _ Hcaller)). exact Hother.
  - destruct (perform_failure op w Hok) as (-> & _). reflexivity.
Qed.

(** X20. Requests never touch the record of an account whose API key
    none of them presents. *)
Theorem requests_leave_other_accounts (ops : list (Operation Json)) (w : World)
    (other : string) :
  store_keyed w ->
  Forall (fun op => to_String (api_key op) <> other) ops ->
  table (perform_all ops w) !! other = table w !! other.
Proof.
  revert w. induction ops as [|op ops IH]; intros w Hkeyed Hops; cbn [perform_all].
  - reflexivity.
  - apply Forall_cons in Hops as [Hop Hops].
    rewrite (IH _ (perform_keeps_keyed op w Hkeyed) Hops).
    now apply perform_other_account.
Qed.

End RequestFacts.

(** ** The further properties on the installations *)

Lemma sample_appId_decrypts :
  decrypts_to (H:=Sample.crypto) Sample.appId_blob (Some Sample.secret)
    "https://example.com".
Proof. intros A callback w. reflexivity. Qed.

Lemma sample_keyHandle_decrypts :
  decrypts_to (H:=Sample.crypto) Sample.keyHandle_blob (Some Sample.secret) "KH".
Proof. intros A callback w. reflexivity. Qed.

Lemma varied_store_keyed : store_keyed Cases.varied.
Proof. exact sample_store_keyed. Qed.

Lemma encrypt_blobs_differ_with_ivs_witness :
  let w := Cases.varied in
  let encrypt := @Encryption.encrypt Sample.crypto (Some "same text")
                   (Some Sample.secret) in
  length (Base64.decode Sample.secret) = 32
  /\ map (random w) (seq (random_pos w) 16)
     <> map (random w) (seq (random_pos w + 16) 16)
  /\ exists b1 b2 w1 w2,
       encrypt w = (Normal b1, w1)
       /\ encrypt w1 = (Normal b2, w2)
       /\ random_pos w2 = random_pos w + 32
       /\ (map (random w) (seq (random_pos w) 16)
           <> map (random w) (seq (random_pos w + 16) 16) -> b1 <> b2).
Proof.
  intros w encrypt.
  split; [vm_compute; reflexivity|].
  split; [vm_compute; discriminate|].
  apply (@encrypt_blobs_differ_with_ivs Sample.crypto "same text" "same text"
           Sample.secret w).
  vm_compute. reflexivity.
Defined.

Lemma totp_create_enrolls_witness :
  let k := Some "key-1" in
  let s := Some Sample.secret in
  let w := Cases.varied in
  let seed :=
    @base32_secret Sample.speakeasy (map (random w) (seq (random_pos w) 32)) in
  let dataUrl :=
    "data:image/png;base64,"
    ++ @enrollment_url Sample.speakeasy (Some "Example") None seed in
  (account k s w = Some Sample.record
   /\ uuids w = ["totp-1"; "uuid-1"; "uuid-2"]
   /\ present (default ∅ (totp Sample.record) !! "totp-1") = true
   /\ default ∅ (totp Sample.record) !! "uuid-1" = None)
  /\ exists blob w',
       @Totp.create Sample.crypto Sample.speakeasy Sample.qrcode string
         k s (Some "Example") None w
       = (Normal (Success (TotpCreated "uuid-1" seed dataUrl)), w')
       /\ decrypts_to (H:=Sample.crypto) blob s seed
       /\ table w'
          = <[record_id Sample.record :=
                Totp.set_totp
                  (<["uuid-1" := mkTotpEntry (Text blob)]>
                     (default ∅ (totp Sample.record))) Sample.record]>
              (table w)
       /\ read_fault w' = read_fault w
       /\ clock w' = clock w.
Proof.
  intros k s w seed dataUrl. split.
  - repeat split; vm_compute; reflexivity.
  - apply (@totp_create_enrolls Sample.crypto Sample.speakeasy Sample.qrcode string
             k s (Some "Example") None w Sample.record Sample.secret "uuid-1"
             dataUrl ["totp-1"] ["uuid-2"]).
    + vm_compute. reflexivity.
    + reflexivity.
    + vm_compute. reflexivity.
    + reflexivity.
    + vm_compute. reflexivity.
    + vm_compute. reflexivity.
    + reflexivity.
    + reflexivity.
Defined.

Lemma totp_create_then_validate_witness :
  let k := Some "key-1" in
  let s := Some Sample.secret in
  let w := Cases.varied in
  let seed :=
    @base32_secret Sample.speakeasy (map (random w) (seq (random_pos w) 32)) in
  let w' := (@Totp.create Sample.crypto Sample.speakeasy Sample.qrcode string
               k s (Some "Example") None w).2 in
  ("600000" = @hotp Sample.speakeasy seed (1500000020000 / 1000 / 30)
   /\ (Z.abs (1500000040000 - 1500000020000) <= 30000)%Z)
  /\ (@Totp.validate Sample.crypto Sample.speakeasy string
        k s (Some "uuid-1") (Some "600000") (with_clock 1500000040000 w')).1
     = Normal (Success (Message "Valid" 200)).
Proof.
  intros k s w seed w'. split.
  - split; [vm_compute; reflexivity | lia].
  - apply (@totp_create_then_validate Sample.crypto Sample.speakeasy Sample.qrcode
             string k s (Some "Example") None w Sample.record Sample.secret "uuid-1"
             ("data:image/png;base64,"
              ++ @enrollment_url Sample.speakeasy (Some "Example") None seed)
             ["totp-1"] ["uuid-2"] "600000" 1500000040000%Z 1500000020000%Z).
    + exact varied_store_keyed.
    + vm_compute. reflexivity.
    + reflexivity.
    + vm_compute. reflexivity.
    + reflexivity.
    + vm_compute. reflexivity.
    + vm_compute. reflexivity.
    + reflexivity.
    + reflexivity.
    + discriminate.
    + discriminate.
    + vm_compute. reflexivity.
    + lia.
Defined.

Lemma validate_tolerates_clock_skew_witness :
  let k := Some "key-1" in
  let s := Some Sample.secret in
  let uuid := Some "totp-1" in
  let w := Sample.world in
  (totp_chain k s uuid w = Some (Sample.record, mkTotpEntry (Text Sample.seed_blob))
   /\ "600000" = @hotp Sample.speakeasy "JBSWY3DPEHPK3PXP" (1500000025000 / 1000 / 30)
   /\ (Z.abs (clock w - 1500000025000) <= 30000)%Z)
  /\ (@Totp.validate Sample.crypto Sample.speakeasy string
        k s uuid (Some "600000") w).1
     = Normal (Success (Message "Valid" 200)).
Proof.
  intros k s uuid w. split.
  - split; [vm_compute; reflexivity|].
    split; [vm_compute; reflexivity | vm_compute; discriminate].
  - apply (@validate_tolerates_clock_skew Sample.crypto Sample.speakeasy string
             k s uuid (Some "600000") w Sample.record
             (mkTotpEntry (Text Sample.seed_blob)) Sample.seed_blob
             "JBSWY3DPEHPK3PXP" 1500000025000%Z).
    + vm_compute. reflexivity.
    + reflexivity.
    + reflexivity.
    + exact sample_seed_decrypts.
    + vm_compute. reflexivity.
    + vm_compute. discriminate.
Defined.

Lemma validate_undecryptable_seed_witness :
  let k := Some "key-3" in
  let s := Some Sample.secret in
  let uuid := Some "totp-3" in
  let w := Cases.garbled in
  let outcome := @Totp.validate Sample.crypto Sample.speakeasy string
                   k s uuid (Some "123456") w in
  (totp_chain k s uuid w
   = Some (Cases.garbled_record, mkTotpEntry (Text "garbled"))
   /\ length (Encryption.split ":" "garbled") = 1)
  /\ outcome.1 = Normal (Failure 500 "Error validating TOTP code.")
  /\ unchanged w outcome.2.
Proof.
  intros k s uuid w outcome. split.
  - split; vm_compute; reflexivity.
  - apply (@validate_undecryptable_seed Sample.crypto Sample.speakeasy string
             k s uuid (Some "123456") w Cases.garbled_record
             (mkTotpEntry (Text "garbled")) "garbled").
    + vm_compute. reflexivity.
    + reflexivity.
    + reflexivity.
    + discriminate.
    + vm_compute. discriminate.
Defined.

Lemma createAuthentication_issues_challenge_witness :
  let k := Some "key-1" in
  let s := Some Sample.secret in
  let uuid := Some "u2f-awaiting" in
  let w := Cases.varied in
  let request := @authentication_request Sample.u2flib "https://example.com" "KH" w in
  u2f_chain k s uuid w = Some (Sample.record, Sample.awaiting_entry)
  /\ exists blob w',
       @U2f.createAuthentication Sample.crypto Sample.u2flib k s uuid w
       = (Normal (Success (U2fAuthenticationCreated uuid
                             (@Json_get Sample.u2flib request "version")
                             (@Json_get Sample.u2flib request "challenge")
                             (Some "https://example.com") (Some "KH"))), w')
       /\ decrypts_to (H:=Sample.crypto) blob s (@JSON_stringify Sample.u2flib request)
       /\ table w'
          = <[record_id Sample.record :=
                U2f.set_u2f_entry uuid
                  (U2f.set_encryptedAuthenticationRequest (Text blob)
                     Sample.awaiting_entry) Sample.record]> (table w)
       /\ read_fault w' = read_fault w
       /\ write_fault w' = write_fault w.
Proof.
  intros k s uuid w request. split; [vm_compute; reflexivity|].
  apply (@createAuthentication_issues_challenge Sample.crypto Sample.u2flib
           k s uuid w Sample.record Sample.awaiting_entry
           Sample.appId_blob "https://example.com" Sample.keyHandle_blob "KH").
  - vm_compute. reflexivity.
  - reflexivity.
  - exact sample_appId_decrypts.
  - reflexivity.
  - exact sample_keyHandle_decrypts.
  - reflexivity.
Defined.

Lemma createAuthentication_requires_key_handle_witness :
  let k := Some "key-1" in
  let s := Some Sample.secret in
  let uuid := Some "u2f-pending" in
  let w := Sample.world in
  (u2f_chain k s uuid w = Some (Sample.record, Sample.pending_entry)
   /\ encryptedKeyHandle Sample.pending_entry = Undefined)
  /\ (@U2f.createAuthentication Sample.crypto Sample.u2flib k s uuid w).1
     = Normal (Failure 500 "Internal Server Error")
  /\ unchanged w (@U2f.createAuthentication Sample.crypto Sample.u2flib k s uuid w).2.
Proof.
  intros k s uuid w. split.
  - split; [vm_compute; reflexivity | reflexivity].
  - apply (@createAuthentication_requires_key_handle Sample.crypto Sample.u2flib
             k s uuid w Sample.record Sample.pending_entry
             Sample.appId_blob "https://example.com").
    + vm_compute. reflexivity.
    + reflexivity.
    + exact sample_appId_decrypts.
    + reflexivity.
Defined.

Lemma authentication_cycle_witness :
  let k := Some "key-1" in
  let s := Some Sample.secret in
  let uuid := Some "u2f-awaiting" in
  let w := Cases.varied in
  let request := @authentication_request Sample.u2flib "https://example.com" "KH" w in
  let w1 := (@U2f.createAuthentication Sample.crypto Sample.u2flib k s uuid w).2 in
  let call := @U2f.validateAuthentication Sample.crypto Sample.u2flib k s uuid in
  (u2f_chain k s uuid w = Some (Sample.record, Sample.awaiting_entry)
   /\ @JSON_parse Sample.u2flib (@JSON_stringify Sample.u2flib request) = Some request
   /\ signature_errorMessage
        (@u2f_checkSignature Sample.u2flib request "good" (Some "PK")) = None)
  /\ (call (Some "good") w1).1 = Normal (Success (Message "Valid" 200))
  /\ forall again, refused (call again (call (Some "good") w1).2).1.
Proof.
  intros k s uuid w request w1 call. split.
  - repeat split; vm_compute; reflexivity.
  - apply (@authentication_cycle Sample.crypto Sample.u2flib k s uuid w
             Sample.record Sample.awaiting_entry
             Sample.appId_blob "https://example.com" Sample.keyHandle_blob "KH"
             Sample.publicKey_blob "PK" "good" request "good").
    + exact varied_store_keyed.
    + vm_compute. reflexivity.
    + reflexivity.
    + exact sample_appId_decrypts.
    + reflexivity.
    + exact sample_keyHandle_decrypts.
    + reflexivity.
    + exact sample_publicKey_decrypts.
    + reflexivity.
    + vm_compute. reflexivity.
    + reflexivity.
Defined.

Lemma delete_removes_credential_witness :
  let k := Some "key-1" in
  let s := Some Sample.secret in
  let uuid := Some "u2f-awaiting" in
  let w := Sample.world in
  let w' := (@U2f.delete Sample.u2flib k s uuid w).2 in
  u2f_chain k s uuid w = Some (Sample.record, Sample.awaiting_entry)
  /\ (@U2f.delete Sample.u2flib k s uuid w).1 = Normal (Success NoBody)
  /\ account k s w' = Some (U2f.delete_u2f_entry uuid Sample.record)
  /\ U2f.u2f_entry (U2f.delete_u2f_entry uuid Sample.record) uuid = None
  /\ U2f.u2f_entry (U2f.delete_u2f_entry uuid Sample.record) (Some "u2f-pending")
     = Some Sample.pending_entry
  /\ (@U2f.createAuthentication Sample.crypto Sample.u2flib k s uuid w').1
     = @not_found Sample.u2flib
  /\ (@U2f.delete Sample.u2flib k s uuid w').1 = @not_found Sample.u2flib.
Proof.
  intros k s uuid w w'.
  assert (Hchain : u2f_chain k s uuid w = Some (Sample.record, Sample.awaiting_entry))
    by (vm_compute; reflexivity).
  pose proof (@delete_removes_credential Sample.crypto Sample.u2flib k s uuid w
                Sample.record Sample.awaiting_entry sample_store_keyed Hchain eq_refl)
    as (Hok & Hacc & Hgone & Hothers & Hcreate & Hdelete & _).
  split; [exact Hchain|]. split; [exact Hok|]. split; [exact Hacc|].
  split; [exact Hgone|].
  split; [rewrite (Hothers (Some "u2f-pending")) by discriminate;
          vm_compute; reflexivity|].
  split; [exact Hcreate | exact Hdelete].
Defined.

Lemma registration_enables_authentication_witness :
  let k := Some "key-1" in
  let s := Some Sample.secret in
  let uuid := Some "u2f-pending" in
  let w := Sample.world in
  let check := @u2f_checkRegistration Sample.u2flib "{challenge:abc}" (Some "good") in
  let w1 := (@U2f.validateRegistration Sample.crypto Sample.u2flib
               k s uuid (Some "good") w).2 in
  let request := @authentication_request Sample.u2flib "https://example.com" "KH" w1 in
  (u2f_chain k s uuid w = Some (Sample.record, Sample.pending_entry)
   /\ decrypts_to (H:=Sample.crypto) Sample.request_blob s "{challenge:abc}"
   /\ registration_errorMessage check = None
   /\ publicKey check = Some "PK" /\ keyHandle check = Some "KH")
  /\ (@U2f.validateRegistration Sample.crypto Sample.u2flib
        k s uuid (Some "good") w).1 = Normal (Success NoBody)
  /\ (exists r1 pkb khb,
        u2f_chain k s uuid w1 = Some (r1, registered_entry pkb khb Sample.pending_entry)
        /\ decrypts_to (H:=Sample.crypto) pkb s "PK"
        /\ decrypts_to (H:=Sample.crypto) khb s "KH")
  /\ (@U2f.createAuthentication Sample.crypto Sample.u2flib k s uuid w1).1
     = Normal (Success (U2fAuthenticationCreated uuid
                          (@Json_get Sample.u2flib request "version")
                          (@Json_get Sample.u2flib request "challenge")
                          (Some "https://example.com") (Some "KH"))).
Proof.
  intros k s uuid w check w1 request. split.
  - split; [vm_compute; reflexivity|].
    split; [exact sample_request_decrypts|]. repeat split; reflexivity.
  - apply (@registration_enables_authentication Sample.crypto Sample.u2flib
             k s uuid (Some "good") w Sample.record Sample.pending_entry
             Sample.request_blob "{challenge:abc}" "PK" "KH"
             Sample.appId_blob "https://example.com" "{challenge:abc}").
    + exact sample_store_keyed.
    + vm_compute. reflexivity.
    + reflexivity.
    + exact sample_request_decrypts.
    + reflexivity.
    + reflexivity.
    + reflexivity.
    + reflexivity.
    + reflexivity.
    + exact sample_appId_decrypts.
    + reflexivity.
Defined.



Lemma undecryptable_u2f_blob_witness :
  let k := Some "key-3" in
  let s := Some Sample.secret in
  let uuid := Some "u2f-3" in
  let w := Cases.garbled in
  let failure : Completion (Response string) :=
    Normal (Failure 500 "Internal Server Error") in
  let create := @U2f.createAuthentication Sample.crypto Sample.u2flib k s uuid w in
  let register :=
    @U2f.validateRegistration Sample.crypto Sample.u2flib k s uuid (Some "good") w in
  let authenticate :=
    @U2f.validateAuthentication Sample.crypto Sample.u2flib k s uuid (Some "good") w in
  (u2f_chain k s uuid w = Some (Cases.garbled_record, Cases.garbled_entry)
   /\ length (Encryption.split ":" "garbled") = 1)
  /\ (create.1 = failure /\ unchanged w create.2)
  /\ (register.1 = failure /\ unchanged w register.2)
  /\ (authenticate.1 = failure /\ unchanged w authenticate.2).
Proof.
  intros k s uuid w failure create register authenticate.
  assert (Hchain : u2f_chain k s uuid w
                   = Some (Cases.garbled_record, Cases.garbled_entry))
    by (vm_compute; reflexivity).
  assert (Hne : "garbled" <> "") by discriminate.
  assert (Hsplit : length (Encryption.split ":" "garbled") <> 2)
    by (vm_compute; discriminate).
  pose proof (@undecryptable_u2f_blob Sample.crypto Sample.u2flib k s uuid w
                Cases.garbled_record Cases.garbled_entry "garbled" Hchain Hne Hsplit)
    as (Hcreate & Hregistration & Hauthentication).
  split; [split; [exact Hchain | vm_compute; reflexivity]|].
  split; [exact (Hcreate eq_refl)|].
  split; [exact (Hregistration eq_refl (Some "good"))
         | exact (Hauthentication eq_refl (Some "good"))].
Defined.

Lemma new_challenge_replaces_old_witness :
  let k := Some "key-1" in
  let s := Some Sample.secret in
  let uuid := Some "u2f-awaiting" in
  let w := Cases.varied in
  let create := @U2f.createAuthentication Sample.crypto Sample.u2flib k s uuid in
  let w1 := (create w).2 in
  let w2 := (create w1).2 in
  let first := @authentication_request Sample.u2flib "https://example.com" "KH" w in
  let second := @authentication_request Sample.u2flib "https://example.com" "KH" w1 in
  (first <> second
   /\ @JSON_parse Sample.u2flib (@JSON_stringify Sample.u2flib second) = Some second)
  /\ (@U2f.validateAuthentication Sample.crypto Sample.u2flib
        k s uuid (Some "good") w2).1
     = if truthy (signature_errorMessage
                    (@u2f_checkSignature Sample.u2flib second "good" (Some "PK")))
       then Normal (Failure 400
                      (to_String
                         (signature_errorMessage
                            (@u2f_checkSignature Sample.u2flib second "good"
                               (Some "PK")))))
       else Normal (Success (Message "Valid" 200)).
Proof.
  intros k s uuid w create w1 w2 first second. split.
  - split; [vm_compute; discriminate | vm_compute; reflexivity].
  - apply (@new_challenge_replaces_old Sample.crypto Sample.u2flib k s uuid w
             Sample.record Sample.awaiting_entry
             Sample.appId_blob "https://example.com" Sample.keyHandle_blob "KH"
             Sample.publicKey_blob "PK" "good" second "good").
    + exact varied_store_keyed.
    + vm_compute. reflexivity.
    + reflexivity.
    + exact sample_appId_decrypts.
    + reflexivity.
    + exact sample_keyHandle_decrypts.
    + reflexivity.
    + exact sample_publicKey_decrypts.
    + reflexivity.
    + vm_compute. reflexivity.
    + reflexivity.
Defined.

Lemma requests_keep_store_invariants_witness :
  let k := Some "key-1" in
  let s := Some Sample.secret in
  let w := Cases.varied in
  let ops : list (Operation string) :=
    [ RegistrationCallback k s (Some "https://example.com");
      ValidateRegistration k s (Some "u2f-pending") (Some "good");
      CreateAuthentication k s (Some "u2f-pending");
      ValidateAuthentication k s (Some "u2f-pending") (Some "bad");
      ValidateAuthentication k s (Some "u2f-pending") (Some "good");
      Delete k s (Some "u2f-damaged");
      TotpCreate k s None None;
      TotpValidate k s (Some "totp-1") (Some "600000");
      CreateRegistration k s (Some "https://example.com") ] in
  let w' := @perform_all Sample.crypto Sample.speakeasy Sample.qrcode Sample.u2flib
              ops w in
  (store_keyed w /\ store_invariant w)
  /\ store_keyed w' /\ store_invariant w'.
Proof.
  intros k s w ops w'. split.
  - split; [exact varied_store_keyed | exact sample_store_invariant].
  - apply (@requests_keep_store_invariants Sample.crypto Sample.speakeasy
             Sample.qrcode Sample.u2flib ops w).
    + exact varied_store_keyed.
    + exact sample_store_invariant.
Defined.

Lemma failed_request_leaves_store_witness :
  let op : Operation string :=
    ValidateAuthentication (Some "key-1") (Some Sample.secret) (Some "u2f-awaiting")
      (Some "bad") in
  let outcome := @perform Sample.crypto Sample.speakeasy Sample.qrcode Sample.u2flib
                   op Sample.world in
  outcome.1 = Normal (Failure 400 "Invalid signature")
  /\ untouched Sample.world outcome.2.
Proof.
  intros op outcome. split; [vm_compute; reflexivity|].
  apply (@failed_request_leaves_store Sample.crypto Sample.speakeasy Sample.qrcode
           Sample.u2flib op Sample.world).
  vm_compute. reflexivity.
Defined.

Lemma successful_request_writes_one_credential_witness :
  let op : Operation string :=
    ValidateAuthentication (Some "key-1") (Some Sample.secret) (Some "u2f-awaiting")
      (Some "good") in
  let outcome := @perform Sample.crypto Sample.speakeasy Sample.qrcode Sample.u2flib
                   op Sample.world in
  outcome.1 = Normal (Success (Message "Valid" 200))
  /\ @success_effect Sample.u2flib op Sample.world outcome.2.
Proof.
  intros op outcome. split; [vm_compute; reflexivity|].
  apply (@successful_request_writes_one_credential Sample.crypto Sample.speakeasy
           Sample.qrcode Sample.u2flib op Sample.world).
  vm_compute. reflexivity.
Defined.

Lemma requests_leave_other_accounts_witness :
  let k := Some "key-1" in
  let s := Some Sample.secret in
  let ops : list (Operation string) :=
    [ RegistrationCallback k s (Some "https://example.com");
      ValidateRegistration k s (Some "u2f-pending") (Some "good");
      Delete k s (Some "u2f-damaged");
      TotpCreate k s None None ] in
  let w' := @perform_all Sample.crypto Sample.speakeasy Sample.qrcode Sample.u2flib
              ops Sample.world in
  table Sample.world !! "key-2" = Some Sample.dormant
  /\ table w' !! "key-2" = table Sample.world !! "key-2".
Proof.
  intros k s ops w'. split; [vm_compute; reflexivity|].
  apply (@requests_leave_other_accounts Sample.crypto Sample.speakeasy Sample.qrcode
           Sample.u2flib ops Sample.world "key-2").
  - exact sample_store_keyed.
  - repeat (constructor; [cbn; discriminate|]). constructor.
Defined.
